(** * Zoo management system: a shallow embedding and its checked properties

    The development follows the Python package [zoo]:
    - [core.py]    animals ([Animal] and its three concrete classes),
    - [staff.py]   staff members,
    - [events.py]  [ZooEvent] and its subclasses, [TourEvent.add_visitors],
    - [storage.py] [ZooStorage]: the nested record structure written to disk,
    - [zoo.py]     the registry [Zoo], reports, and the day simulation.

    Modelling conventions.
    - An object whose class defines no [__eq__] (animals, staff) carries its
      identity in a field [oid]; [x in lst] on such objects compares [oid]s.
    - [datetime] is a naive one (no [tzinfo]): the integer count of
      microseconds since 0001-01-01 00:00; [timedelta] is a signed count of
      microseconds, [date] a day number.  Adding a [timedelta] to a
      [datetime] and building a [timedelta] raise [OverflowError] outside the
      range of the library type, as the library does.
    - Python floats are idealised as rationals; [total_seconds] is exact to
      the microsecond for durations below 2^33 seconds, and statements that
      read a duration back from a document are made for such durations.
    - Logging, [print], and [asyncio.sleep] are recorded in one trace, in
      the order in which the program performs them.
    - Exceptions leave the state mutated so far in place, as in Python.
    - Attributes that no modelled method reads (the observers of an event,
      the storage handle of a zoo) and the autosave task are left out. *)

From Stdlib Require Import ZArith QArith Qround Sorting.Sorted Sorting.Permutation.
From Stdlib Require DecimalString DecimalZ DecimalPos.
From stdpp Require Import gmap strings list fin_maps pretty.

Local Open Scope Z_scope.

(** ** Values that travel through the persisted document *)

#[local] Set Warnings "-register-all".

(** The document handed to [json.dump] and received from [json.load]. *)
Inductive value : Type :=
  | VNone
  | VBool (b : bool)
  | VInt (z : Z)
  | VFloat (q : Q)
  | VStr (s : string)
  | VList (l : list value)
  | VDict (d : list (string * value)).

(** ** Exceptions *)

Inductive exn : Type :=
  | KeyError (key : value)
  | ValueError (msg : string)
  | TypeError (msg : string)
  | AttributeError (msg : string)
  | FileNotFoundError (msg : string)
  | OverflowError (msg : string).

(** ** The interface of the Python runtime library

    What the program obtains from [datetime] and from [repr]/[str] is taken
    as an interface: text rendering of dates and times, and the ISO codecs
    used by the persistence layer. *)
Class PyRuntime : Type := {
  (** [str(dt)] for a [datetime] *)
  datetime_str : Z → string;
  (** [dt.isoformat()] and [datetime.fromisoformat] *)
  datetime_isoformat : Z → string;
  datetime_fromisoformat : string → option Z;
  (** [d.isoformat()], which is also [str(d)], and [date.fromisoformat] *)
  date_isoformat : Z → string;
  date_fromisoformat : string → option Z;
  (** [repr(v)], which [str] of a [KeyError] shows *)
  value_repr : value → string;
}.

(** The ISO codecs read back what they wrote. *)
Class PyRuntimeLaws (R : PyRuntime) : Prop := {
  datetime_iso_roundtrip : ∀ t, datetime_fromisoformat (datetime_isoformat t) = Some t;
  date_iso_roundtrip : ∀ d, date_fromisoformat (date_isoformat d) = Some d;
}.

(** [str(e)] for the exceptions of the model. *)
Definition exn_str `{PyRuntime} (e : exn) : string :=
  match e with
  | KeyError k => value_repr k
  | ValueError m => m
  | TypeError m => m
  | AttributeError m => m
  | FileNotFoundError m => m
  | OverflowError m => m
  end.

(** ** Observable effects *)

Inductive level : Type := DEBUG | INFO | WARNING | ERROR.

Inductive effect : Type :=
  | Log (lvl : level) (msg : string)   (* a record emitted through [logger] *)
  | Print (line : string)              (* [print(...)] *)
  | Sleep.                             (* [await asyncio.sleep(0.5)] *)

(** The part of the process state that is not a [Zoo]: the trace of effects,
    the object allocator, and the clock reading. *)
Record World : Type := mkWorld {
  trace : list effect;
  next_oid : nat;
  now : Z;
}.

(** ** A state-and-exception monad *)

Definition M (S A : Type) : Type := S → S * (exn + A).

Definition ret {S A} (a : A) : M S A := λ s, (s, inr a).

Definition bind {S A B} (m : M S A) (k : A → M S B) : M S B :=
  λ s, match m s with
       | (s', inr a) => k a s'
       | (s', inl e) => (s', inl e)
       end.

Definition raise {S A} (e : exn) : M S A := λ s, (s, inl e).

(** [try: m  except Exception as e: h e] *)
Definition try_except {S A} (m : M S A) (h : exn → M S A) : M S A :=
  λ s, match m s with
       | (s', inr a) => (s', inr a)
       | (s', inl e) => h e s'
       end.

(** An expression that reads no state: its value, or the exception. *)
Definition lift {S A} (r : exn + A) : M S A := λ s, (s, r).

Definition get {S} : M S S := λ s, (s, inr s).
Definition modify {S} (f : S → S) : M S unit := λ s, (f s, inr tt).

Declare Scope py_scope.
Delimit Scope py_scope with py.
Notation "x <- m ;; k" := (bind m (λ x, k))
  (at level 20, m at level 99, k at level 200, only parsing) : py_scope.
Notation "m ;; k" := (bind m (λ _, k))
  (at level 100, k at level 200, only parsing, right associativity) : py_scope.
Local Open Scope py_scope.

(** [for x in l: body x] *)
Fixpoint for_each {S A} (l : list A) (body : A → M S unit) : M S unit :=
  match l with
  | [] => ret tt
  | x :: rest => body x ;; for_each rest body
  end.

Definition emit_w (e : effect) (w : World) : World :=
  mkWorld (trace w ++ [e]) (next_oid w) (now w).

(** ** core.py *)

Module Animal.

(** The three concrete classes with their own attributes. *)
Inductive kind : Type :=
  | Bird (wing_span : Q) (can_fly : bool)
  | Mammal (is_domestic : bool) (fur_type : string)
  | Reptile (is_venomous : bool).

Record t : Type := mk {
  oid : nat;
  name : string;
  age : Z;
  species : string;
  cls : kind;
}.

(** [animal.__class__.__name__] *)
Definition class_name (a : t) : string :=
  match cls a with
  | Bird _ _ => "Bird"
  | Mammal _ _ => "Mammal"
  | Reptile _ => "Reptile"
  end.

(** Constructors; [Bird] and [Reptile] fix the species themselves. *)
Definition new_Bird (o : nat) (name : string) (age : Z) (wing_span : Q) (can_fly : bool) : t :=
  mk o name age "Bird" (Bird wing_span can_fly).
Definition new_Mammal (o : nat) (name : string) (age : Z) (species : string)
    (is_domestic : bool) (fur_type : string) : t :=
  mk o name age species (Mammal is_domestic fur_type).
Definition new_Reptile (o : nat) (name : string) (age : Z) (is_venomous : bool) : t :=
  mk o name age "Reptile" (Reptile is_venomous).

(** The line printed by [eat]. *)
Definition eat_line (a : t) (food : string) : string :=
  name a +:+ " the " +:+ species a +:+ " is eating " +:+ food +:+ ".".

(** [animal in animals]: no [__eq__], so identity decides. *)
Definition is_in (a : t) (l : list t) : bool :=
  existsb (λ x, Nat.eqb (oid x) (oid a)) l.

End Animal.

(** ** staff.py *)

Module Staff.

Inductive role : Type := ZooKeeper | Veterinarian | Guide.

Record t : Type := mk {
  oid : nat;
  name : string;
  staff_id : Z;
  hire_date : Z;
  cls : role;
}.

Definition class_name (s : t) : string :=
  match cls s with
  | ZooKeeper => "ZooKeeper"
  | Veterinarian => "Veterinarian"
  | Guide => "Guide"
  end.

Definition is_in (s : t) (l : list t) : bool :=
  existsb (λ x, Nat.eqb (oid x) (oid s)) l.

End Staff.

(** Microseconds per day, for [datetime.date()]. *)
Definition usec_per_day : Z := 86400000000.

(** [dt.date()] *)
Definition date_of (dt : Z) : Z := dt / usec_per_day.

(** [datetime.min] and [datetime.max]: 0001-01-01 00:00:00 and
    9999-12-31 23:59:59.999999, the latter on day 3652058 after the former. *)
Definition datetime_min : Z := 0.
Definition datetime_max : Z := 3652059 * usec_per_day - 1.

(** [timedelta.min] and [timedelta.max]: -999999999 days and
    999999999 days, 23:59:59.999999. *)
Definition timedelta_min : Z := -999999999 * usec_per_day.
Definition timedelta_max : Z := 1000000000 * usec_per_day - 1.

Definition in_datetime_range (t : Z) : bool :=
  (datetime_min <=? t) && (t <=? datetime_max).

Definition in_timedelta_range (td : Z) : bool :=
  (timedelta_min <=? td) && (td <=? timedelta_max).

(** [dt + td] for a [datetime] and a [timedelta]. *)
Definition datetime_add (dt td : Z) : exn + Z :=
  if in_datetime_range (dt + td) then inr (dt + td)
  else inl (OverflowError "date value out of range").

(** ** events.py *)

Inductive EventType : Type :=
  FEEDING | MEDICAL_CHECK | TOUR | SHOW | CLEANING | ENRICHMENT.

Module TourEvent.

(** The attributes a [TourEvent] adds to a [ZooEvent]. *)
Record t : Type := mk {
  max_visitors : Z;
  visitor_count : Z;
}.

(** State after [__init__]. *)
Definition init (max_visitors : Z) : t := mk max_visitors 0.

(** [add_visitors]: the new state and the returned flag. *)
Definition add_visitors (count : Z) (self : t) : t * bool :=
  if visitor_count self + count <=? max_visitors self
  then (mk (max_visitors self) (visitor_count self + count), true)
  else (self, false).

(** A sequence of calls, the returned flags dropped. *)
Definition add_visitors_seq (counts : list Z) (self : t) : t :=
  fold_left (λ s c, fst (add_visitors c s)) counts self.

End TourEvent.

Module ZooEvent.

(** The class of the object: the base class or one of its subclasses. *)
Inductive kind : Type :=
  | Base
  | FeedingEvent (food_type : string)
  | MedicalCheckEvent
  | TourEvent (tour : TourEvent.t).

Record t : Type := mk {
  cls : kind;
  event_type : EventType;
  name : string;
  description : string;
  start_time : Z;
  duration : Z;
  location : string;
  staff : list Staff.t;
  animals : list Animal.t;
}.

Definition class_name (e : t) : string :=
  match cls e with
  | Base => "ZooEvent"
  | FeedingEvent _ => "FeedingEvent"
  | MedicalCheckEvent => "MedicalCheckEvent"
  | TourEvent _ => "TourEvent"
  end.

(** [description or default] *)
Definition or_default (description default : string) : string :=
  if String.eqb description "" then default else description.

Definition new_FeedingEvent (name : string) (start_time : Z) (location food_type : string)
    (animals : list Animal.t) (staff : list Staff.t) (duration : Z) (description : string) : t :=
  mk (FeedingEvent food_type) FEEDING name
     (or_default description ("Feeding time with " +:+ food_type +:+ "!"))
     start_time duration location staff animals.

Definition new_MedicalCheckEvent (name : string) (start_time : Z) (location : string)
    (animals : list Animal.t) (staff : list Staff.t) (duration : Z) (description : string) : t :=
  mk MedicalCheckEvent MEDICAL_CHECK name
     (or_default description "Routine medical check-up")
     start_time duration location staff animals.

Definition new_TourEvent (name : string) (start_time : Z) (location : string)
    (staff : list Staff.t) (duration : Z) (description : string) (max_visitors : Z) : t :=
  mk (TourEvent (TourEvent.init max_visitors)) TOUR name
     (or_default description "Guided tour of the zoo")
     start_time duration location staff [].

(** The [end_time] property. *)
Definition end_time (self : t) : exn + Z :=
  datetime_add (start_time self) (duration self).

(** [is_ongoing(when)]; [clock] is what [datetime.now()] would return.  The
    chained comparison reads [end_time] only when the first one holds. *)
Definition is_ongoing (clock : Z) (self : t) (when : option Z) : exn + bool :=
  let when := match when with Some t => t | None => clock end in
  if start_time self <=? when then
    match end_time self with
    | inr end_time => inr (when <=? end_time)
    | inl e => inl e
    end
  else inr false.

End ZooEvent.

(** ** Library behaviour used by zoo.py *)

(** [lst.sort(key=...)]: Python's sort is stable; so is this insertion sort,
    and a stable sort by a key has one possible result. *)
Section StableSort.
Context {A : Type} (key : A → Z).

Fixpoint insert_by_key (x : A) (l : list A) : list A :=
  match l with
  | [] => [x]
  | y :: rest => if key x <=? key y then x :: y :: rest
                 else y :: insert_by_key x rest
  end.

Definition sort_by_key (l : list A) : list A :=
  fold_right insert_by_key [] l.
End StableSort.

(** The newline character of ["\n".join(...)]. *)
Definition nl : string := String (Ascii.ascii_of_nat 10) EmptyString.

(** [sep.join(parts)] *)
Definition join (sep : string) (parts : list string) : string :=
  String.concat sep parts.

(** [s * n] *)
Fixpoint str_mul (s : string) (n : nat) : string :=
  match n with
  | O => ""
  | S n' => s +:+ str_mul s n'
  end.

(** [dt.strftime('%H:%M')] *)
Definition pad2 (n : Z) : string :=
  if n <? 10 then "0" +:+ pretty n else pretty n.

Definition strftime_HM (dt : Z) : string :=
  let us := dt mod usec_per_day in
  pad2 (us / 3600000000) +:+ ":" +:+ pad2 ((us / 60000000) mod 60).

(** [d[k] = d.get(k, 0) + 1] on a dict that keeps insertion order. *)
Fixpoint tally_incr (k : string) (d : list (string * nat)) : list (string * nat) :=
  match d with
  | [] => [(k, 1%nat)]
  | (k', n) :: rest =>
      if String.eqb k' k then (k', S n) :: rest
      else (k', n) :: tally_incr k rest
  end.

(** [set.add] on a set of animals: hashing and equality are by identity, so
    the set is keyed by [oid]; an object already in the set stays. *)
Definition set_add (a : Animal.t) (s : gmap nat Animal.t) : gmap nat Animal.t :=
  match s !! Animal.oid a with
  | Some _ => s
  | None => <[Animal.oid a := a]> s
  end.

(** Iteration over such a set; the order is fixed by the identities and is
    not otherwise specified. *)
Definition set_iter (s : gmap nat Animal.t) : list Animal.t :=
  (map_to_list s).*2.

(** ** zoo.py *)

Module Zoo.

Record t : Type := mk {
  name : string;
  animals : list Animal.t;
  staff : list Staff.t;
  events : list ZooEvent.t;
  _event_subscriptions : gmap string (gmap nat Animal.t);
}.

(** A method runs on [self] and on the rest of the process state. *)
Definition St : Type := t * World.

Definition self : M St t := λ s, (s, inr (fst s)).
Definition world : M St World := λ s, (s, inr (snd s)).
Definition update (f : t → t) : M St unit := modify (λ s, (f (fst s), snd s)).
Definition emit (e : effect) : M St unit := modify (λ s, (fst s, emit_w e (snd s))).
Definition logger (lvl : level) (msg : string) : M St unit := emit (Log lvl msg).

(** Running a computation that does not touch [self]. *)
Definition lift_w {A} (m : M World A) : M St A :=
  λ s, let '(w', r) := m (snd s) in ((fst s, w'), r).

Definition _setup_default_event_subscriptions : gmap string (gmap nat Animal.t) :=
  <["feeding" := ∅]> (<["medical_check" := ∅]> (<["enrichment" := ∅]> ∅)).

(** [Zoo(name)] *)
Definition init (name : string) : t :=
  mk name [] [] [] _setup_default_event_subscriptions.

(** [self._event_subscriptions[event_type].add(animal)] *)
Definition subscribe (event_type : string) (animal : Animal.t) : M St unit :=
  z <- self ;;
  match _event_subscriptions z !! event_type with
  | None => raise (KeyError (VStr event_type))
  | Some s =>
      update (λ z, mk (name z) (animals z) (staff z) (events z)
                      (<[event_type := set_add animal s]> (_event_subscriptions z)))
  end.

Definition add_animal (animal : Animal.t) : M St unit :=
  z <- self ;;
  if Animal.is_in animal (animals z) then
    logger WARNING ("Животное " +:+ Animal.name animal +:+ " уже есть в зоопарке")
  else
    update (λ z, mk (name z) (animals z ++ [animal]) (staff z) (events z)
                    (_event_subscriptions z)) ;;
    logger INFO ("Добавлено животное: " +:+ Animal.name animal
                 +:+ " (" +:+ Animal.species animal +:+ ")") ;;
    subscribe "feeding" animal ;;
    subscribe "medical_check" animal.

Definition add_staff (person : Staff.t) : M St unit :=
  z <- self ;;
  if Staff.is_in person (staff z) then
    logger WARNING ("Сотрудник " +:+ Staff.name person +:+ " уже работает в зоопарке")
  else
    update (λ z, mk (name z) (animals z) (staff z ++ [person]) (events z)
                    (_event_subscriptions z)) ;;
    logger INFO ("Добавлен сотрудник: " +:+ Staff.name person
                 +:+ " (" +:+ Staff.class_name person +:+ ")").

(** [and] reads its second operand only when the first one is true. *)
Definition _events_overlap (event1 event2 : ZooEvent.t) : exn + bool :=
  match ZooEvent.end_time event2 with
  | inl e => inl e
  | inr end_time2 =>
      if ZooEvent.start_time event1 <? end_time2 then
        match ZooEvent.end_time event1 with
        | inl e => inl e
        | inr end_time1 => inr (end_time1 >? ZooEvent.start_time event2)
        end
      else inr false
  end.

Section WithRuntime.
Context `{PyRuntime}.

(** The text of the warning; [end_time] is the value of
    [existing_event.end_time]. *)
Definition overlap_warning (event existing_event : ZooEvent.t) (end_time : Z) : string :=
  "Событие '" +:+ ZooEvent.name event +:+ "' пересекается с '"
  +:+ ZooEvent.name existing_event +:+ "' ("
  +:+ datetime_str (ZooEvent.start_time existing_event) +:+ "-"
  +:+ datetime_str end_time +:+ ")".

(** The scan of [schedule_event]; it stops at the first overlap, and an
    exception of the comparison leaves it. *)
Fixpoint scan_overlaps (existing : list ZooEvent.t) (event : ZooEvent.t) : M St unit :=
  match existing with
  | [] => ret tt
  | existing_event :: rest =>
      overlap <- lift (_events_overlap existing_event event) ;;
      if overlap then
        end_time <- lift (ZooEvent.end_time existing_event) ;;
        logger WARNING (overlap_warning event existing_event end_time)
      else scan_overlaps rest event
  end.

Definition schedule_event (event : ZooEvent.t) : M St unit :=
  z <- self ;;
  scan_overlaps (events z) event ;;
  update (λ z, mk (name z) (animals z) (staff z) (events z ++ [event])
                  (_event_subscriptions z)) ;;
  logger INFO ("Запланировано событие: " +:+ ZooEvent.name event +:+ " на "
               +:+ datetime_str (ZooEvent.start_time event)).

Definition get_events_on_date (z : t) (target_date : Z) : list ZooEvent.t :=
  List.filter (λ e, date_of (ZooEvent.start_time e) =? target_date) (events z).

(** The lines a scheduled event contributes to the report. *)
Definition report_event (event : ZooEvent.t) : list string :=
  [ strftime_HM (ZooEvent.start_time event) +:+ " - " +:+ ZooEvent.name event;
    "   Место: " +:+ ZooEvent.location event;
    "   Участники: " +:+ join ", " (map Staff.name (ZooEvent.staff event)) ]
  ++ (match ZooEvent.animals event with
      | [] => []
      | _ => ["   Животные: " +:+ join ", " (map Animal.name (ZooEvent.animals event))]
      end)
  ++ [""].

(** The list [report] of [daily_report], before it is joined. *)
Definition report_lines (today : Z) (z : t) (report_date : option Z) : list string :=
  let report_date := match report_date with Some d => d | None => today end in
  let daily_events :=
    sort_by_key ZooEvent.start_time
      (List.filter (λ e, date_of (ZooEvent.start_time e) =? report_date) (events z)) in
  let animal_types :=
    fold_left (λ d a, tally_incr (Animal.class_name a) d) (animals z) [] in
  [ "Отчет зоопарка '" +:+ name z +:+ "' за " +:+ date_isoformat report_date;
    str_mul "=" 50;
    "Всего животных: " +:+ pretty (length (animals z));
    "Всего сотрудников: " +:+ pretty (length (staff z));
    "Запланировано событий: " +:+ pretty (length daily_events);
    "";
    "Запланированные события:";
    str_mul "-" 30 ]
  ++ (match daily_events with
      | [] => ["Событий не запланировано"]
      | _ => concat (map report_event daily_events)
      end)
  ++ ["";  "Сводка по животным:"; str_mul "-" 30]
  ++ map (λ '(animal_type, count), animal_type +:+ ": " +:+ pretty count) animal_types.

(** [daily_report(report_date)]; [today] is what [date.today()] returns. *)
Definition daily_report (today : Z) (z : t) (report_date : option Z) : string :=
  join nl (report_lines today z report_date).

Definition notify_animals (event_type : string) (food : option string) : M St unit :=
  z <- self ;;
  match _event_subscriptions z !! event_type with
  | None => logger WARNING ("Неизвестный тип события: " +:+ event_type)
  | Some subscribed =>
      for_each (set_iter subscribed) (λ animal,
        match String.eqb event_type "feeding", food with
        | true, Some food => emit (Print (Animal.eat_line animal food))
        | _, _ =>
            if String.eqb event_type "medical_check" then
              logger INFO (Animal.name animal +:+ " проходит медицинский осмотр")
            else ret tt
        end)
  end.

(** What [run_day] does for one event of the day. *)
Definition process_event (event : ZooEvent.t) : M St unit :=
  logger INFO ("Начало события: " +:+ ZooEvent.name event) ;;
  match ZooEvent.cls event with
  | ZooEvent.FeedingEvent food_type => notify_animals "feeding" (Some food_type)
  | ZooEvent.MedicalCheckEvent => notify_animals "medical_check" None
  | _ => ret tt
  end ;;
  emit Sleep ;;
  logger INFO ("Завершено событие: " +:+ ZooEvent.name event).

Definition run_day (target_date : option Z) : M St unit :=
  w <- world ;;
  let target_date := match target_date with Some d => d | None => date_of (now w) end in
  logger INFO ("Запуск симуляции дня " +:+ date_isoformat target_date) ;;
  z <- self ;;
  let daily_events := sort_by_key ZooEvent.start_time (get_events_on_date z target_date) in
  for_each daily_events process_event ;;
  logger INFO ("Симуляция дня " +:+ date_isoformat target_date +:+ " завершена").

End WithRuntime.

End Zoo.

(** ** storage.py *)

(** *** Python operations on document values

    The embedding is typed: where the program would bind an attribute to a
    value of an unexpected type and carry on, the typed readers below raise
    [TypeError].  Documents written by [save] are never affected. *)

Section Values.
Context {S : Type}.

Fixpoint dict_get (k : string) (d : list (string * value)) : option value :=
  match d with
  | [] => None
  | (k', v) :: rest => if String.eqb k' k then Some v else dict_get k rest
  end.

(** [data[k]] *)
Definition getitem (data : value) (k : string) : M S value :=
  match data with
  | VDict d =>
      match dict_get k d with
      | Some v => ret v
      | None => raise (KeyError (VStr k))
      end
  | _ => raise (TypeError "indices must be integers, or object is not subscriptable")
  end.

(** [data.get(k, default)] *)
Definition get_default (data : value) (k : string) (default : value) : M S value :=
  match data with
  | VDict d => ret (match dict_get k d with Some v => v | None => default end)
  | _ => raise (AttributeError "object has no attribute 'get'")
  end.

Definition as_str (v : value) : M S string :=
  match v with VStr s => ret s | _ => raise (TypeError "expected str") end.
Definition as_int (v : value) : M S Z :=
  match v with VInt z => ret z | _ => raise (TypeError "expected int") end.
Definition as_bool (v : value) : M S bool :=
  match v with VBool b => ret b | _ => raise (TypeError "expected bool") end.
Definition as_float (v : value) : M S Q :=
  match v with
  | VFloat q => ret q
  | VInt z => ret (inject_Z z)
  | _ => raise (TypeError "expected float")
  end.

(** [for x in v] *)
Definition iter_value (v : value) : M S (list value) :=
  match v with
  | VList l => ret l
  | VStr s => ret (map (λ c, VStr (String c EmptyString)) (String.list_ascii_of_string s))
  | VDict d => ret (map (λ kv, VStr (fst kv)) d)
  | _ => raise (TypeError "object is not iterable")
  end.

(** [n == v] for an [int] [n] *)
Definition int_eq_value (n : Z) (v : value) : bool :=
  match v with
  | VInt z => n =? z
  | VBool b => n =? Z.b2z b
  | VFloat q => Qeq_bool (inject_Z n) q
  | _ => false
  end.

(** [s == v] for a [str] [s] *)
Definition str_eq_value (s : string) (v : value) : bool :=
  match v with VStr s' => String.eqb s s' | _ => false end.

(** [n in container] for an [int] [n] *)
Definition contains_int (container : value) (n : Z) : M S bool :=
  match container with
  | VList l => ret (existsb (int_eq_value n) l)
  | VDict d => ret false
  | VStr _ => raise (TypeError "'in <string>' requires string as left operand, not int")
  | _ => raise (TypeError "argument is not iterable")
  end.

(** [s in container] for a [str] [s] *)
Definition contains_str (container : value) (s : string) : M S bool :=
  match container with
  | VList l => ret (existsb (str_eq_value s) l)
  | VDict d => ret (existsb (λ kv, String.eqb s (fst kv)) d)
  | VStr t => ret (match String.index 0 s t with Some _ => true | None => false end)
  | _ => raise (TypeError "argument is not iterable")
  end.

(** [[x for x in l if p x]] where the test may raise *)
Fixpoint filter_m {A} (p : A → M S bool) (l : list A) : M S (list A) :=
  match l with
  | [] => ret []
  | x :: rest =>
      b <- p x ;;
      kept <- filter_m p rest ;;
      ret (if b then x :: kept else kept)
  end.

(** Keys of a dict or members of an enum must be hashable. *)
Definition check_hashable (v : value) : M S unit :=
  match v with
  | VList _ => raise (TypeError "unhashable type: 'list'")
  | VDict _ => raise (TypeError "unhashable type: 'dict'")
  | _ => ret tt
  end.

(** [str(v)] *)
Definition value_str `{PyRuntime} (v : value) : string :=
  match v with VStr s => s | _ => value_repr v end.

End Values.

(** Rounding to the nearest integer, ties to even. *)
Definition round_half_even (q : Q) : Z :=
  let f := Qfloor q in
  match Qcompare (q - inject_Z f) (1 # 2) with
  | Lt => f
  | Gt => f + 1
  | Eq => if Z.even f then f else f + 1
  end.

(** [td.total_seconds()]: the microsecond count divided by [10**6].  The
    library rounds the quotient to a float, which changes nothing to the
    microsecond below 2^33 seconds. *)
Definition total_seconds (td : Z) : Q := Qmake td 1000000.

(** The range check of the [timedelta] constructor, on the microsecond
    count; the day count is converted to a C [int] first. *)
Definition new_timedelta {S} (td : Z) : M S Z :=
  let days := td / usec_per_day in
  if in_timedelta_range td then ret td
  else if (-2147483648 <=? days) && (days <=? 2147483647) then
    raise (OverflowError ("days=" +:+ pretty days +:+ "; must have magnitude <= 999999999"))
  else raise (OverflowError "Python int too large to convert to C int").

(** [timedelta(seconds=v)]; the microseconds of a float are rounded half to
    even. *)
Definition timedelta_of_seconds {S} (v : value) : M S Z :=
  match v with
  | VInt z => new_timedelta (z * 1000000)
  | VBool b => new_timedelta (Z.b2z b * 1000000)
  | VFloat q => new_timedelta (round_half_even (q * inject_Z 1000000))
  | _ => raise (TypeError "unsupported type for timedelta seconds component")
  end.

(** [EventType[name]] *)
Definition EventType_name (t : EventType) : string :=
  match t with
  | FEEDING => "FEEDING"
  | MEDICAL_CHECK => "MEDICAL_CHECK"
  | TOUR => "TOUR"
  | SHOW => "SHOW"
  | CLEANING => "CLEANING"
  | ENRICHMENT => "ENRICHMENT"
  end.

Definition EventType_members : list EventType :=
  [FEEDING; MEDICAL_CHECK; TOUR; SHOW; CLEANING; ENRICHMENT].

Definition EventType_lookup (s : string) : option EventType :=
  List.find (λ t, String.eqb (EventType_name t) s) EventType_members.

Definition EventType_getitem {S} (v : value) : M S EventType :=
  check_hashable v ;;
  match v with
  | VStr s =>
      match EventType_lookup s with
      | Some t => ret t
      | None => raise (KeyError v)
      end
  | _ => raise (KeyError v)
  end.

(** Allocation of a new object: its identity differs from all earlier ones. *)
Definition fresh_oid : M World nat :=
  λ w, (mkWorld (trace w) (Datatypes.S (next_oid w)) (now w), inr (next_oid w)).

(** [Staff.__init__], reached through a concrete subclass. *)
Definition new_Staff (cls : Staff.role) (name : string) (staff_id : Z) : M World Staff.t :=
  o <- fresh_oid ;;
  w <- get ;;
  ret (Staff.mk o name staff_id (date_of (now w)) cls).

Module ZooStorage.

Definition SCHEMA_VERSION : string := "1.0".

Definition _serialize_animal (animal : Animal.t) : value :=
  VDict
    ([ ("type", VStr (Animal.class_name animal));
       ("name", VStr (Animal.name animal));
       ("age", VInt (Animal.age animal));
       ("species", VStr (Animal.species animal)) ]
     ++ match Animal.cls animal with
        | Animal.Bird wing_span can_fly =>
            [("wing_span", VFloat wing_span); ("can_fly", VBool can_fly)]
        | Animal.Mammal is_domestic fur_type =>
            [("is_domestic", VBool is_domestic); ("fur_type", VStr fur_type)]
        | Animal.Reptile is_venomous =>
            [("is_venomous", VBool is_venomous)]
        end).

(** The classes named by [cls_map] of [_deserialize_animal]. *)
Inductive animal_class : Type := CBird | CMammal | CReptile.

Definition animal_cls_map : list (string * animal_class) :=
  [("Bird", CBird); ("Mammal", CMammal); ("Reptile", CReptile)].

(** [cls_map[key]] for a dict with string keys *)
Definition cls_map_getitem {C} (cls_map : list (string * C)) (key : value) : M World C :=
  check_hashable key ;;
  match key with
  | VStr s =>
      match List.find (λ kc, String.eqb (fst kc) s) cls_map with
      | Some kc => ret (snd kc)
      | None => raise (KeyError key)
      end
  | _ => raise (KeyError key)
  end.

(** The final [else: raise ValueError] of the source cannot be reached:
    [cls_map] holds the three classes only. *)
Definition _deserialize_animal (data : value) : M World Animal.t :=
  tag <- getitem data "type" ;;
  cls <- cls_map_getitem animal_cls_map tag ;;
  match cls with
  | CBird =>
      name <- (v <- getitem data "name" ;; as_str v) ;;
      age <- (v <- getitem data "age" ;; as_int v) ;;
      wing_span <- (v <- getitem data "wing_span" ;; as_float v) ;;
      can_fly <- (v <- getitem data "can_fly" ;; as_bool v) ;;
      o <- fresh_oid ;;
      ret (Animal.new_Bird o name age wing_span can_fly)
  | CMammal =>
      name <- (v <- getitem data "name" ;; as_str v) ;;
      age <- (v <- getitem data "age" ;; as_int v) ;;
      species <- (v <- getitem data "species" ;; as_str v) ;;
      is_domestic <- (v <- getitem data "is_domestic" ;; as_bool v) ;;
      fur_type <- (v <- getitem data "fur_type" ;; as_str v) ;;
      o <- fresh_oid ;;
      ret (Animal.new_Mammal o name age species is_domestic fur_type)
  | CReptile =>
      name <- (v <- getitem data "name" ;; as_str v) ;;
      age <- (v <- getitem data "age" ;; as_int v) ;;
      is_venomous <- (v <- getitem data "is_venomous" ;; as_bool v) ;;
      o <- fresh_oid ;;
      ret (Animal.new_Reptile o name age is_venomous)
  end.

Definition staff_cls_map : list (string * Staff.role) :=
  [("ZooKeeper", Staff.ZooKeeper); ("Veterinarian", Staff.Veterinarian);
   ("Guide", Staff.Guide)].

Section WithRuntime.
Context `{PyRuntime}.

Definition _serialize_staff (staff : Staff.t) : value :=
  VDict
    [ ("type", VStr (Staff.class_name staff));
      ("name", VStr (Staff.name staff));
      ("staff_id", VInt (Staff.staff_id staff));
      ("hire_date", VStr (date_isoformat (Staff.hire_date staff))) ].

(** [date.fromisoformat(v)] *)
Definition parse_date (v : value) : M World Z :=
  match v with
  | VStr s =>
      match date_fromisoformat s with
      | Some d => ret d
      | None => raise (ValueError ("Invalid isoformat string: " +:+ value_repr v))
      end
  | _ => raise (TypeError "fromisoformat: argument must be str")
  end.

(** [datetime.fromisoformat(v)] *)
Definition parse_datetime (v : value) : M World Z :=
  match v with
  | VStr s =>
      match datetime_fromisoformat s with
      | Some d => ret d
      | None => raise (ValueError ("Invalid isoformat string: " +:+ value_repr v))
      end
  | _ => raise (TypeError "fromisoformat: argument must be str")
  end.

Definition _deserialize_staff (data : value) : M World Staff.t :=
  tag <- getitem data "type" ;;
  cls <- cls_map_getitem staff_cls_map tag ;;
  hire_date <- (v <- getitem data "hire_date" ;; parse_date v) ;;
  name <- (v <- getitem data "name" ;; as_str v) ;;
  staff_id <- (v <- getitem data "staff_id" ;; as_int v) ;;
  instance <- new_Staff cls name staff_id ;;
  ret (Staff.mk (Staff.oid instance) (Staff.name instance) (Staff.staff_id instance)
                hire_date (Staff.cls instance)).

Definition _serialize_event (event : ZooEvent.t) : value :=
  VDict
    ([ ("type", VStr (ZooEvent.class_name event));
       ("name", VStr (ZooEvent.name event));
       ("description", VStr (ZooEvent.description event));
       ("start_time", VStr (datetime_isoformat (ZooEvent.start_time event)));
       ("duration_seconds", VFloat (total_seconds (ZooEvent.duration event)));
       ("location", VStr (ZooEvent.location event));
       ("staff_ids", VList (map (λ s, VInt (Staff.staff_id s)) (ZooEvent.staff event)));
       ("animal_names", VList (map (λ a, VStr (Animal.name a)) (ZooEvent.animals event))) ]
     ++ match ZooEvent.cls event with
        | ZooEvent.FeedingEvent food_type => [("food_type", VStr food_type)]
        | ZooEvent.TourEvent tour =>
            [("max_visitors", VInt (TourEvent.max_visitors tour));
             ("visitor_count", VInt (TourEvent.visitor_count tour))]
        | _ => []
        end).

Definition _deserialize_event (data : value) (zoo : Zoo.t) : M World ZooEvent.t :=
  event_type <- getitem data "type" ;;
  start_time <- (v <- getitem data "start_time" ;; parse_datetime v) ;;
  duration <- (v <- getitem data "duration_seconds" ;; timedelta_of_seconds v) ;;
  staff <- filter_m (λ s, ids <- getitem data "staff_ids" ;;
                          contains_int ids (Staff.staff_id s)) (Zoo.staff zoo) ;;
  animals <- filter_m (λ a, names <- getitem data "animal_names" ;;
                            contains_str names (Animal.name a)) (Zoo.animals zoo) ;;
  if str_eq_value "FeedingEvent" event_type then
    name <- (v <- getitem data "name" ;; as_str v) ;;
    location <- (v <- getitem data "location" ;; as_str v) ;;
    food_type <- (v <- getitem data "food_type" ;; as_str v) ;;
    description <- (v <- getitem data "description" ;; as_str v) ;;
    ret (ZooEvent.new_FeedingEvent name start_time location food_type animals staff
           duration description)
  else if str_eq_value "MedicalCheckEvent" event_type then
    name <- (v <- getitem data "name" ;; as_str v) ;;
    location <- (v <- getitem data "location" ;; as_str v) ;;
    description <- (v <- getitem data "description" ;; as_str v) ;;
    ret (ZooEvent.new_MedicalCheckEvent name start_time location animals staff
           duration description)
  else if str_eq_value "TourEvent" event_type then
    name <- (v <- getitem data "name" ;; as_str v) ;;
    location <- (v <- getitem data "location" ;; as_str v) ;;
    description <- (v <- getitem data "description" ;; as_str v) ;;
    max_visitors <- (v <- get_default data "max_visitors" (VInt 20) ;; as_int v) ;;
    let event := ZooEvent.new_TourEvent name start_time location staff duration
                   description max_visitors in
    visitor_count <- (v <- get_default data "visitor_count" (VInt 0) ;; as_int v) ;;
    ret (ZooEvent.mk (ZooEvent.TourEvent (TourEvent.mk max_visitors visitor_count))
           (ZooEvent.event_type event) (ZooEvent.name event) (ZooEvent.description event)
           (ZooEvent.start_time event) (ZooEvent.duration event)
           (ZooEvent.location event) (ZooEvent.staff event) (ZooEvent.animals event))
  else
    etype <- (v <- getitem data "event_type" ;; EventType_getitem v) ;;
    name <- (v <- getitem data "name" ;; as_str v) ;;
    description <- (v <- getitem data "description" ;; as_str v) ;;
    location <- (v <- getitem data "location" ;; as_str v) ;;
    ret (ZooEvent.mk ZooEvent.Base etype name description start_time duration
           location staff animals).

(** The dict [data] built by [save]. *)
Definition save_data (zoo : Zoo.t) (clock : Z) : value :=
  VDict
    [ ("schema_version", VStr SCHEMA_VERSION);
      ("animals", VList (map _serialize_animal (Zoo.animals zoo)));
      ("staff", VList (map _serialize_staff (Zoo.staff zoo)));
      ("events", VList (map _serialize_event (Zoo.events zoo)));
      ("last_updated", VStr (datetime_isoformat clock)) ].

(** [save(zoo, path, fmt)]: the result is the document written to the
    file.  Each supported format stores the document as it is. *)
Definition save (zoo : Zoo.t) (fmt : string) : M World value :=
  w <- get ;;
  let data := save_data zoo (now w) in
  if String.eqb fmt "json" then ret data
  else if String.eqb fmt "pickle" then ret data
  else if String.eqb fmt "yaml" then ret data
  else raise (ValueError ("Unsupported format: " +:+ fmt)).

(** [load(path)]: [file] is the document found at [path], if the file
    exists, and [fmt] the lower-cased suffix of [path]. *)
Definition load (path : string) (file : option value) (fmt : string) : M World value :=
  match file with
  | None => raise (FileNotFoundError ("File not found: " +:+ path))
  | Some data =>
      (if String.eqb fmt "json" then ret tt
       else if String.eqb fmt "pickle" then ret tt
       else if String.eqb fmt "yaml" || String.eqb fmt "yml" then ret tt
       else raise (ValueError ("Unsupported file format: " +:+ fmt))) ;;
      version <- get_default data "schema_version" VNone ;;
      (if str_eq_value SCHEMA_VERSION version then ret tt
       else modify (emit_w (Print ("Warning: Schema version mismatch. Expected "
                                   +:+ SCHEMA_VERSION +:+ ", got "
                                   +:+ value_str version)))) ;;
      ret data
  end.

End WithRuntime.

End ZooStorage.

(** ** zoo.py, continued: [Zoo.save] and [Zoo.load] *)

Section ZooPersistence.
Context `{PyRuntime}.

(** [Zoo.save(self, path, fmt)]; the document written is returned. *)
Definition Zoo_save (path fmt : string) : M Zoo.St value :=
  z <- Zoo.self ;;
  data <- Zoo.lift_w (ZooStorage.save z fmt) ;;
  Zoo.logger INFO ("Данные зоопарка сохранены в " +:+ path) ;;
  ret data.

(** The three loops of [Zoo.load], run on the zoo under construction. *)
Definition load_staff (records : list value) : M Zoo.St unit :=
  for_each records (λ staff_data,
    staff <- Zoo.lift_w (ZooStorage._deserialize_staff staff_data) ;;
    Zoo.add_staff staff).

Definition load_animals (records : list value) : M Zoo.St unit :=
  for_each records (λ animal_data,
    animal <- Zoo.lift_w (ZooStorage._deserialize_animal animal_data) ;;
    Zoo.add_animal animal).

Definition load_event (event_data : value) : M Zoo.St unit :=
  try_except
    (zoo <- Zoo.self ;;
     event <- Zoo.lift_w (ZooStorage._deserialize_event event_data zoo) ;;
     Zoo.schedule_event event)
    (λ e, Zoo.logger ERROR ("Ошибка при загрузке события: " +:+ exn_str e)).

Definition load_events (records : list value) : M Zoo.St unit :=
  for_each records load_event.

Definition load_body (path : string) (data : value) : M Zoo.St unit :=
  (v <- get_default data "staff" (VList []) ;; l <- iter_value v ;; load_staff l) ;;
  (v <- get_default data "animals" (VList []) ;; l <- iter_value v ;; load_animals l) ;;
  (v <- get_default data "events" (VList []) ;; l <- iter_value v ;; load_events l) ;;
  Zoo.logger INFO ("Данные зоопарка загружены из " +:+ path).

(** [Zoo.load(path)]: on success the new zoo is returned; an exception
    that escapes leaves no zoo behind. *)
Definition Zoo_load (path : string) (file : option value) (fmt : string) : M World Zoo.t :=
  data <- ZooStorage.load path file fmt ;;
  λ w, match load_body path data (Zoo.init "Загруженный зоопарк", w) with
       | ((zoo, w'), inr _) => (w', inr zoo)
       | ((_, w'), inl e) => (w', inl e)
       end.

End ZooPersistence.

(** ** A runtime instance for running the model on concrete inputs

    Dates and times are written as decimal numerals. *)

Definition print_Z (z : Z) : string :=
  DecimalString.NilZero.string_of_int (Z.to_int z).

Definition parse_Z (s : string) : option Z :=
  option_map Z.of_int (DecimalString.NilZero.int_of_string s).

Definition sample_repr (v : value) : string :=
  match v with
  | VNone => "None"
  | VBool true => "True"
  | VBool false => "False"
  | VInt z => print_Z z
  | VStr s => "'" +:+ s +:+ "'"
  | _ => "<value>"
  end.

Definition sample_runtime : PyRuntime := {|
  datetime_str := print_Z;
  datetime_isoformat := print_Z;
  datetime_fromisoformat := parse_Z;
  date_isoformat := print_Z;
  date_fromisoformat := parse_Z;
  value_repr := sample_repr;
|}.

(** ** Vocabulary of the statements and sample data *)

(** The half-open intervals [[start, end)] of two events share an instant. *)
Definition intervals_intersect (e1 e2 : ZooEvent.t) : Prop :=
  ∃ t : Z,
    (ZooEvent.start_time e1 <= t < ZooEvent.start_time e1 + ZooEvent.duration e1) ∧
    (ZooEvent.start_time e2 <= t < ZooEvent.start_time e2 + ZooEvent.duration e2).

(** The end of the event, [start_time + duration], is a [datetime]. *)
Definition end_in_range (e : ZooEvent.t) : Prop :=
  datetime_min <= ZooEvent.start_time e + ZooEvent.duration e <= datetime_max.

(** The event lasts less than 2^33 seconds, in either direction: the float
    that [total_seconds] returns is then exact to the microsecond. *)
Definition duration_exact (e : ZooEvent.t) : Prop :=
  Z.abs (ZooEvent.duration e) < 8589934592 * 1000000.

(** An event with only its times filled in. *)
Definition timed_event (start_time duration : Z) : ZooEvent.t :=
  ZooEvent.mk ZooEvent.Base SHOW "" "" start_time duration "" [] [].

(** The number of entries of the list that are the object [a]. *)
Definition entries (a : Animal.t) (l : list Animal.t) : nat :=
  length (List.filter (λ x, Nat.eqb (Animal.oid x) (Animal.oid a)) l).

Definition sample_world : World := mkWorld [] 0 (3 * usec_per_day + 5).
Definition sample_bird : Animal.t := Animal.new_Bird 100 "Kesha" 2 (3 # 10) true.
Definition sample_mammal : Animal.t := Animal.new_Mammal 101 "Barsik" 3 "Cat" true "short".
Definition sample_keeper : Staff.t := Staff.mk 200 "Ivan" 1 7 Staff.ZooKeeper.

(** A zoo with one animal and one keeper. *)
Definition sample_zoo : Zoo.t :=
  Zoo.mk "Z" [sample_bird] [sample_keeper] [] Zoo._setup_default_event_subscriptions.

Definition sample_feeding : ZooEvent.t :=
  ZooEvent.new_FeedingEvent "Feed" (3 * usec_per_day + 9 * 3600000000) "Cage" "corn"
    [sample_bird] [sample_keeper] 1800000000 "".

Definition sample_tour : ZooEvent.t :=
  ZooEvent.new_TourEvent "Tour" (3 * usec_per_day + 9 * 3600000000 + 60000000) "Gate"
    [sample_keeper] 3600000000 "" 20.

(** The sample zoo with two events on day 3. *)
Definition sample_zoo_events : Zoo.t :=
  Zoo.mk "Z" [sample_bird] [sample_keeper] [sample_tour; sample_feeding]
    Zoo._setup_default_event_subscriptions.

(** The sample zoo after [add_animal] has subscribed its bird. *)
Definition fed_zoo : Zoo.t :=
  Zoo.mk "Z" [sample_bird] [sample_keeper] []
    (<["medical_check" := set_add sample_bird ∅]>
       (<["feeding" := set_add sample_bird ∅]> Zoo._setup_default_event_subscriptions)).




(** Appending a list of effects to the trace. *)
Definition emit_all (es : list effect) (w : World) : World :=
  mkWorld (trace w ++ es) (next_oid w) (now w).

(** The effects of the notification that [run_day] dispatches for an event. *)
Definition notification (z : Zoo.t) (event : ZooEvent.t) : list effect :=
  match ZooEvent.cls event with
  | ZooEvent.FeedingEvent food_type =>
      match Zoo._event_subscriptions z !! "feeding" with
      | Some subscribed =>
          map (λ a, Print (Animal.eat_line a food_type)) (set_iter subscribed)
      | None => [Log WARNING "Неизвестный тип события: feeding"]
      end
  | ZooEvent.MedicalCheckEvent =>
      match Zoo._event_subscriptions z !! "medical_check" with
      | Some subscribed =>
          map (λ a, Log INFO (Animal.name a +:+ " проходит медицинский осмотр"))
            (set_iter subscribed)
      | None => [Log WARNING "Неизвестный тип события: medical_check"]
      end
  | _ => []
  end.

(** Everything [run_day] does for one event, in order. *)
Definition event_block (z : Zoo.t) (event : ZooEvent.t) : list effect :=
  [Log INFO ("Начало события: " +:+ ZooEvent.name event)]
  ++ notification z event
  ++ [Sleep; Log INFO ("Завершено событие: " +:+ ZooEvent.name event)].

(** The invariant kept by [add_animal]: the feeding and the medical-check
    subscription sets hold exactly the animals of the list. *)
Definition subscribed_all (z : Zoo.t) : Prop :=
  ∃ feeding medical : gmap nat Animal.t,
    Zoo._event_subscriptions z !! "feeding" = Some feeding ∧
    Zoo._event_subscriptions z !! "medical_check" = Some medical ∧
    map_to_list feeding ≡ₚ (λ a, (Animal.oid a, a)) <$> Zoo.animals z ∧
    map_to_list medical ≡ₚ (λ a, (Animal.oid a, a)) <$> Zoo.animals z.

(** A computation that raises from every state. *)
Definition raises {S A} (m : M S A) : Prop :=
  ∀ s, ∃ s' e, m s = (s', inl e).

(** A computation that leaves the state as it found it. *)
Definition stateless {S A} (m : M S A) : Prop :=
  ∀ s, fst (m s) = s.

(** The value under ["type"], when the record is a dict that has one. *)
Definition record_type (data : value) : option value :=
  match data with
  | VDict d => dict_get "type" d
  | _ => None
  end.

(** The type tag of the record is one of [names]. *)
Definition known_tag (names : list string) (data : value) : bool :=
  match record_type data with
  | Some (VStr s) => existsb (λ n, String.eqb n s) names
  | _ => false
  end.

Definition animal_type_names : list string := ["Bird"; "Mammal"; "Reptile"].
Definition staff_type_names : list string := ["ZooKeeper"; "Veterinarian"; "Guide"].
Definition event_type_names : list string := ["FeedingEvent"; "MedicalCheckEvent"; "TourEvent"].

(** The member of [EventType] that the field ["event_type"] names, if any. *)
Definition named_event_type (data : value) : option EventType :=
  match data with
  | VDict d =>
      match dict_get "event_type" d with
      | Some (VStr s) => EventType_lookup s
      | _ => None
      end
  | _ => None
  end.

(** A record with an unknown type tag that names a member of [EventType]. *)
Definition show_record : value :=
  VDict
    [ ("type", VStr "ShowEvent"); ("event_type", VStr "SHOW");
      ("name", VStr "Show"); ("description", VStr "Sea lions");
      ("start_time", VStr "288300000000"); ("duration_seconds", VInt 1800);
      ("location", VStr "Hall"); ("staff_ids", VList []); ("animal_names", VList []) ].

Definition show_document : value :=
  VDict
    [ ("schema_version", VStr "1.0"); ("animals", VList []); ("staff", VList []);
      ("events", VList [show_record]) ].

Definition show_event : ZooEvent.t :=
  ZooEvent.mk ZooEvent.Base SHOW "Show" "Sea lions" 288300000000 1800000000 "Hall" [] [].

(** A document with an animal of an unknown class. *)
Definition fish_document : list (string * value) :=
  [ ("schema_version", VStr "1.0");
    ("animals", VList [ZooStorage._serialize_animal sample_bird;
                       VDict [("type", VStr "Fish"); ("name", VStr "Nemo"); ("age", VInt 1)]]);
    ("staff", VList []); ("events", VList []) ].

(** An event record with an unknown type tag and no ["event_type"] field. *)
Definition cleaning_record : value :=
  VDict
    [ ("type", VStr "CleaningEvent"); ("name", VStr "Cleaning"); ("description", VStr "");
      ("start_time", VStr "288300000000"); ("duration_seconds", VInt 600);
      ("location", VStr "Hall"); ("staff_ids", VList []); ("animal_names", VList []) ].

(** A zoo whose only content is one event of the base class. *)
Definition show_zoo : Zoo.t :=
  Zoo.mk "Z" [] [] [show_event] Zoo._setup_default_event_subscriptions.

(** While a zoo is being loaded, the objects in its lists were all
    allocated earlier, and the subscription sets mirror the animal list. *)
Definition loading_inv (st : Zoo.St) : Prop :=
  subscribed_all (fst st) ∧
  Forall (λ s, (Staff.oid s < next_oid (snd st))%nat) (Zoo.staff (fst st)) ∧
  Forall (λ a, (Animal.oid a < next_oid (snd st))%nat) (Zoo.animals (fst st)).

(** ** Further code of the package *)

(** *** zoo.py: the query helpers *)

(** The classes that [get_animals_by_type] can be asked for. *)
Inductive animal_type : Type := AnimalType | BirdType | MammalType | ReptileType.

(** [isinstance(a, animal_type)] *)
Definition isinstance_animal (a : Animal.t) (animal_type : animal_type) : bool :=
  match animal_type, Animal.cls a with
  | AnimalType, _ => true
  | BirdType, Animal.Bird _ _ => true
  | MammalType, Animal.Mammal _ _ => true
  | ReptileType, Animal.Reptile _ => true
  | _, _ => false
  end.

(** [Zoo.get_animals_by_type] *)
Definition Zoo_get_animals_by_type (z : Zoo.t) (animal_type : animal_type) : list Animal.t :=
  List.filter (λ a, isinstance_animal a animal_type) (Zoo.animals z).

(** The classes that [get_staff_by_type] can be asked for. *)
Inductive staff_type : Type := StaffType | ZooKeeperType | VeterinarianType | GuideType.

(** [isinstance(s, staff_type)] *)
Definition isinstance_staff (s : Staff.t) (staff_type : staff_type) : bool :=
  match staff_type, Staff.cls s with
  | StaffType, _ => true
  | ZooKeeperType, Staff.ZooKeeper => true
  | VeterinarianType, Staff.Veterinarian => true
  | GuideType, Staff.Guide => true
  | _, _ => false
  end.

(** [Zoo.get_staff_by_type] *)
Definition Zoo_get_staff_by_type (z : Zoo.t) (staff_type : staff_type) : list Staff.t :=
  List.filter (λ s, isinstance_staff s staff_type) (Zoo.staff z).

(** *** events.py: the observer list of a [ZooEvent]

    The methods below read and write [self.observers] only.  Observers are
    objects compared by identity. *)

Module Observers.

(** [observer in observers] *)
Definition is_in (observer : nat) (observers : list nat) : bool :=
  existsb (Nat.eqb observer) observers.

(** [observers.remove(observer)]: the first occurrence goes. *)
Fixpoint list_remove (observer : nat) (observers : list nat) : list nat :=
  match observers with
  | [] => []
  | o :: rest => if Nat.eqb observer o then rest else o :: list_remove observer rest
  end.

Definition add_observer (observer : nat) (observers : list nat) : list nat :=
  if is_in observer observers then observers else observers ++ [observer].

Definition remove_observer (observer : nat) (observers : list nat) : list nat :=
  if is_in observer observers then list_remove observer observers else observers.

End Observers.

(** *** Vocabulary for the further properties *)

(** The visitors admitted by a sequence of [add_visitors] calls: the sum of
    the arguments of the calls that returned [True]. *)
Fixpoint admitted (counts : list Z) (self : TourEvent.t) : Z :=
  match counts with
  | [] => 0
  | c :: rest =>
      (if snd (TourEvent.add_visitors c self) then c else 0)
      + admitted rest (fst (TourEvent.add_visitors c self))
  end.

(** [d.get(k, 0)] on the tally. *)
Definition tally_get (k : string) (d : list (string * nat)) : nat :=
  match List.find (λ kv, String.eqb (fst kv) k) d with
  | Some kv => snd kv
  | None => 0%nat
  end.

(** The dict [animal_types] that [daily_report] builds. *)
Definition animal_tally (z : Zoo.t) : list (string * nat) :=
  fold_left (λ d a, tally_incr (Animal.class_name a) d) (Zoo.animals z) [].

(** The number of entries of the list that are the object [s]. *)
Definition staff_entries (s : Staff.t) (l : list Staff.t) : nat :=
  length (List.filter (λ x, Nat.eqb (Staff.oid x) (Staff.oid s)) l).

(** An observer list on which a few [add_observer] calls were made. *)
Definition sample_observers : list nat := [4; 7; 9]%nat.

(** How [daily_report] renders an entry of the tally. *)
Definition tally_line (entry : string * nat) : string :=
  fst entry +:+ ": " +:+ pretty (snd entry).

(** The first line that [daily_report] writes for an event. *)
Definition event_headline (event : ZooEvent.t) : string :=
  strftime_HM (ZooEvent.start_time event) +:+ " - " +:+ ZooEvent.name event.

(** The species that a reloaded animal has: a [Mammal] keeps its own, the
    constructors of [Bird] and [Reptile] set theirs. *)
Definition reloaded_species (a : Animal.t) : string :=
  match Animal.cls a with
  | Animal.Bird _ _ => "Bird"
  | Animal.Mammal _ _ => Animal.species a
  | Animal.Reptile _ => "Reptile"
  end.

(** The description that the constructor of the event's class falls back to. *)
Definition default_description (e : ZooEvent.t) : string :=
  match ZooEvent.cls e with
  | ZooEvent.FeedingEvent food_type => "Feeding time with " +:+ food_type +:+ "!"
  | ZooEvent.MedicalCheckEvent => "Routine medical check-up"
  | ZooEvent.TourEvent _ => "Guided tour of the zoo"
  | ZooEvent.Base => ZooEvent.description e
  end.

(** The staff of the zoo whose id is among those of the event's staff. *)
Definition resolved_staff (e : ZooEvent.t) (zoo : Zoo.t) : list Staff.t :=
  List.filter
    (λ s, existsb (Z.eqb (Staff.staff_id s)) (map Staff.staff_id (ZooEvent.staff e)))
    (Zoo.staff zoo).

(** The animals of the zoo whose name is among those of the event's animals. *)
Definition resolved_animals (e : ZooEvent.t) (zoo : Zoo.t) : list Animal.t :=
  List.filter
    (λ a, existsb (String.eqb (Animal.name a)) (map Animal.name (ZooEvent.animals e)))
    (Zoo.animals zoo).

(** The class name that [_deserialize_event] builds for a type tag. *)
Definition class_for_tag (tag : value) : string :=
  if str_eq_value "FeedingEvent" tag then "FeedingEvent"
  else if str_eq_value "MedicalCheckEvent" tag then "MedicalCheckEvent"
  else if str_eq_value "TourEvent" tag then "TourEvent"
  else "ZooEvent".

(** A method keeps a property of the zoo it runs on. *)
Definition keeps {A} (I : Zoo.t → Prop) (m : M Zoo.St A) : Prop :=
  ∀ z w, I z → I (fst (fst (m (z, w)))).

(** The zoo that [Zoo.load] returns, when it returns one. *)
Definition loaded_zoo `{PyRuntime} (path : string) (file : option value) (fmt : string)
    (w : World) : option Zoo.t :=
  match snd (Zoo_load path file fmt w) with
  | inr z => Some z
  | inl _ => None
  end.

(** A document with two animals of the same name, a keeper and a tour. *)
Definition twins_document : value :=
  VDict
    [ ("schema_version", VStr "0.9");
      ("staff", VList [VDict [("type", VStr "Guide"); ("name", VStr "Maria");
                              ("staff_id", VInt 3); ("hire_date", VStr "7")]]);
      ("animals", VList [ZooStorage._serialize_animal sample_bird;
                         ZooStorage._serialize_animal sample_bird]);
      ("events", VList [cleaning_record]) ].

(** What a reloaded staff member shares with the saved one. *)
Definition same_staff (s s' : Staff.t) : Prop :=
  Staff.name s' = Staff.name s ∧ Staff.staff_id s' = Staff.staff_id s ∧
  Staff.hire_date s' = Staff.hire_date s ∧ Staff.cls s' = Staff.cls s.

(** What a reloaded animal shares with the saved one. *)
Definition same_animal (a a' : Animal.t) : Prop :=
  Animal.name a' = Animal.name a ∧ Animal.age a' = Animal.age a ∧
  Animal.cls a' = Animal.cls a ∧ Animal.species a' = reloaded_species a.

(** What an event reloaded into [zoo] shares with the saved one. *)
Definition same_event (zoo : Zoo.t) (e e' : ZooEvent.t) : Prop :=
  ZooEvent.cls e' = ZooEvent.cls e ∧
  ZooEvent.name e' = ZooEvent.name e ∧
  ZooEvent.start_time e' = ZooEvent.start_time e ∧
  ZooEvent.location e' = ZooEvent.location e ∧
  ZooEvent.description e'
  = ZooEvent.or_default (ZooEvent.description e) (default_description e) ∧
  ZooEvent.staff e' = resolved_staff e zoo ∧
  ZooEvent.animals e'
  = match ZooEvent.cls e with
    | ZooEvent.TourEvent _ => []
    | _ => resolved_animals e zoo
    end.

(** The effect is an INFO record. *)
Definition is_info (e : effect) : bool :=
  match e with Log INFO _ => true | _ => false end.

(** The effect is a pause of the simulation. *)
Definition is_sleep (e : effect) : bool :=
  match e with Sleep => true | _ => false end.

(** A feeding record that refers to the keeper with id 1 and to the animal
    named Kesha. *)
Definition feeding_record : value :=
  VDict
    [ ("type", VStr "FeedingEvent"); ("name", VStr "Feed"); ("description", VStr "");
      ("start_time", VStr "291600000000"); ("duration_seconds", VInt 1800);
      ("location", VStr "Cage"); ("staff_ids", VList [VInt 1]);
      ("animal_names", VList [VStr "Kesha"]); ("food_type", VStr "corn") ].

(** A tour record that gives no visitor numbers. *)
Definition bare_tour_record : list (string * value) :=
  [ ("type", VStr "TourEvent"); ("name", VStr "Tour"); ("description", VStr "");
    ("start_time", VStr "288300000000"); ("duration_seconds", VInt 3600);
    ("location", VStr "Gate"); ("staff_ids", VList [VInt 1]);
    ("animal_names", VList [VStr "Kesha"]) ].

(** * Properties *)

(** ** Event times: [end_time], [_events_overlap], [is_ongoing] *)

Lemma in_datetime_range_true (t : Z) :
  in_datetime_range t = true ↔ datetime_min <= t <= datetime_max.
Proof.
  unfold in_datetime_range. rewrite andb_true_iff, !Z.leb_le. tauto.
Qed.

Lemma end_time_in_range (e : ZooEvent.t) :
  end_in_range e →
  ZooEvent.end_time e = inr (ZooEvent.start_time e + ZooEvent.duration e).
Proof.
  intros He. unfold ZooEvent.end_time, datetime_add.
  apply in_datetime_range_true in He. rewrite He. reflexivity.
Qed.

Lemma end_time_overflow (e : ZooEvent.t) :
  ¬ end_in_range e →
  ZooEvent.end_time e = inl (OverflowError "date value out of range").
Proof.
  intros He. unfold ZooEvent.end_time, datetime_add.
  destruct (in_datetime_range _) eqn:Hr; [| reflexivity].
  apply in_datetime_range_true in Hr. contradiction.
Qed.

(** With both end times in range the two comparisons are made on the sums. *)
Lemma _events_overlap_in_range (e1 e2 : ZooEvent.t) :
  end_in_range e1 → end_in_range e2 →
  Zoo._events_overlap e1 e2
  = inr ((ZooEvent.start_time e1 <? ZooEvent.start_time e2 + ZooEvent.duration e2)
         && (ZooEvent.start_time e1 + ZooEvent.duration e1 >? ZooEvent.start_time e2)).
Proof.
  intros H1 H2. unfold Zoo._events_overlap.
  rewrite (end_time_in_range e1 H1), (end_time_in_range e2 H2).
  destruct (_ <? _); reflexivity.
Qed.

Lemma _events_overlap_true (e1 e2 : ZooEvent.t) :
  end_in_range e1 → end_in_range e2 →
  Zoo._events_overlap e1 e2 = inr true ↔
  ZooEvent.start_time e1 < ZooEvent.start_time e2 + ZooEvent.duration e2 ∧
  ZooEvent.start_time e2 < ZooEvent.start_time e1 + ZooEvent.duration e1.
Proof.
  intros H1 H2. rewrite (_events_overlap_in_range e1 e2 H1 H2). split.
  - intros Hov. injection Hov as Hov.
    apply andb_true_iff in Hov as [Ha Hb].
    apply Z.ltb_lt in Ha. apply Z.gtb_gt in Hb. lia.
  - intros [Ha Hb]. f_equal. apply andb_true_iff. split.
    + apply Z.ltb_lt. exact Ha.
    + apply Z.gtb_gt. lia.
Qed.

Lemma _events_overlap_false (e1 e2 : ZooEvent.t) :
  end_in_range e1 → end_in_range e2 →
  Zoo._events_overlap e1 e2 = inr false ↔
  ¬ (ZooEvent.start_time e1 < ZooEvent.start_time e2 + ZooEvent.duration e2 ∧
     ZooEvent.start_time e2 < ZooEvent.start_time e1 + ZooEvent.duration e1).
Proof.
  intros H1 H2. rewrite <- (_events_overlap_true e1 e2 H1 H2).
  rewrite (_events_overlap_in_range e1 e2 H1 H2).
  destruct (_ && _); split; congruence.
Qed.

Lemma _events_overlap_sym (e1 e2 : ZooEvent.t) :
  end_in_range e1 → end_in_range e2 →
  Zoo._events_overlap e1 e2 = Zoo._events_overlap e2 e1.
Proof.
  intros H1 H2.
  rewrite (_events_overlap_in_range e1 e2 H1 H2), (_events_overlap_in_range e2 e1 H2 H1).
  f_equal. apply eq_true_iff_eq.
  rewrite !andb_true_iff, !Z.ltb_lt, !Z.gtb_gt. lia.
Qed.

(** C6, as stated, fails in two ways.  An event of duration zero that lies
    inside another event is reported as overlapping although its interval
    [[5, 5)] is empty.  And for an event that starts at [datetime.max] and
    lasts a microsecond, [end_time] raises [OverflowError]: the comparison
    raises with that event as second argument and returns [False] with it as
    first argument, so the predicate is not symmetric. *)
Lemma C6_zero_duration_counterexample :
  (Zoo._events_overlap (timed_event 5 0) (timed_event 0 10) = inr true ∧
   ¬ intervals_intersect (timed_event 5 0) (timed_event 0 10)) ∧
  (Zoo._events_overlap (timed_event 0 10) (timed_event datetime_max 1)
   = inl (OverflowError "date value out of range") ∧
   Zoo._events_overlap (timed_event datetime_max 1) (timed_event 0 10) = inr false).
Proof.
  split; split; try reflexivity.
  intros (t & H1 & _). simpl in H1. lia.
Qed.

(** C6, amended: for two events whose ends [start_time + duration] are within
    the range of [datetime], [end_time] is [start_time + duration], the
    predicate [_events_overlap] is symmetric, and events that touch at a
    boundary do not overlap; if both durations are positive as well,
    [_events_overlap] returns true exactly when the half-open intervals
    intersect. *)
Theorem C6_events_overlap_iff_intersect (e1 e2 : ZooEvent.t) :
  end_in_range e1 →
  end_in_range e2 →
  ZooEvent.end_time e1 = inr (ZooEvent.start_time e1 + ZooEvent.duration e1) ∧
  ZooEvent.end_time e2 = inr (ZooEvent.start_time e2 + ZooEvent.duration e2) ∧
  Zoo._events_overlap e1 e2 = Zoo._events_overlap e2 e1 ∧
  (ZooEvent.start_time e1 + ZooEvent.duration e1 = ZooEvent.start_time e2 ∨
   ZooEvent.start_time e2 + ZooEvent.duration e2 = ZooEvent.start_time e1 →
   Zoo._events_overlap e1 e2 = inr false) ∧
  (0 < ZooEvent.duration e1 → 0 < ZooEvent.duration e2 →
   (Zoo._events_overlap e1 e2 = inr true ↔ intervals_intersect e1 e2)).
Proof.
  intros H1 H2.
  split; [apply end_time_in_range; exact H1 |].
  split; [apply end_time_in_range; exact H2 |].
  split; [apply _events_overlap_sym; assumption |].
  split.
  - intros Htouch. apply _events_overlap_false; [assumption | assumption | lia].
  - intros Hd1 Hd2. rewrite (_events_overlap_true e1 e2 H1 H2). split.
    + intros Hov.
      exists (Z.max (ZooEvent.start_time e1) (ZooEvent.start_time e2)). lia.
    + intros (t & Ht1 & Ht2). lia.
Qed.

Lemma C6_events_overlap_witness :
  Zoo._events_overlap (timed_event 0 10) (timed_event 10 5) = inr false ∧
  (Zoo._events_overlap (timed_event 0 10) (timed_event 9 5) = inr true ↔
   intervals_intersect (timed_event 0 10) (timed_event 9 5)).
Proof.
  split.
  - apply (C6_events_overlap_iff_intersect (timed_event 0 10) (timed_event 10 5));
      [vm_compute; split; discriminate | vm_compute; split; discriminate
      | left; reflexivity].
  - apply (C6_events_overlap_iff_intersect (timed_event 0 10) (timed_event 9 5));
      [vm_compute; split; discriminate | vm_compute; split; discriminate
      | reflexivity | reflexivity].
Defined.

(** C9, as stated, fails in two ways.  For an event of negative duration the
    closed interval is empty and [is_ongoing] is false at [end_time].  And
    for an event that starts at [datetime.max] and lasts a microsecond,
    [is_ongoing] raises [OverflowError] at [t = start_time] instead of
    returning true. *)
Lemma C9_negative_duration_counterexample :
  (ZooEvent.end_time (timed_event 10 (-5)) = inr 5 ∧
   ZooEvent.is_ongoing 0 (timed_event 10 (-5)) (Some 5) = inr false) ∧
  ZooEvent.is_ongoing 0 (timed_event datetime_max 1) (Some datetime_max)
  = inl (OverflowError "date value out of range").
Proof. repeat split. Qed.

(** C9, amended: for an event whose end [start_time + duration] is within the
    range of [datetime], [is_ongoing(t)] returns, and returns true exactly
    when [start_time <= t <= end_time]; if the duration is non-negative as
    well, it returns true at [t = end_time], an instant at which an event
    starting then is not counted as overlapping. *)
Theorem C9_is_ongoing_closed_interval (clock : Z) (e : ZooEvent.t) (t : Z) :
  end_in_range e →
  ZooEvent.end_time e = inr (ZooEvent.start_time e + ZooEvent.duration e) ∧
  (∃ b, ZooEvent.is_ongoing clock e (Some t) = inr b) ∧
  (ZooEvent.is_ongoing clock e (Some t) = inr true ↔
   ZooEvent.start_time e <= t <= ZooEvent.start_time e + ZooEvent.duration e) ∧
  (0 <= ZooEvent.duration e →
   ZooEvent.is_ongoing clock e
     (Some (ZooEvent.start_time e + ZooEvent.duration e)) = inr true ∧
   ∀ e', end_in_range e' →
         ZooEvent.start_time e' = ZooEvent.start_time e + ZooEvent.duration e →
         Zoo._events_overlap e e' = inr false).
Proof.
  intros He.
  assert (Hrun : ∀ u, ZooEvent.is_ongoing clock e (Some u)
                      = inr ((ZooEvent.start_time e <=? u)
                             && (u <=? ZooEvent.start_time e + ZooEvent.duration e))).
  { intros u. unfold ZooEvent.is_ongoing.
    rewrite (end_time_in_range e He). destruct (_ <=? u); reflexivity. }
  split; [apply end_time_in_range; exact He |].
  split; [eexists; apply Hrun |].
  split.
  - rewrite Hrun. split.
    + intros Hb. injection Hb as Hb.
      apply andb_true_iff in Hb as [Ha Hb].
      apply Z.leb_le in Ha. apply Z.leb_le in Hb. lia.
    + intros [Ha Hb]. f_equal. apply andb_true_iff.
      split; apply Z.leb_le; assumption.
  - intros Hd. split.
    + rewrite Hrun. f_equal. apply andb_true_iff. split; apply Z.leb_le; lia.
    + intros e' He' Hstart. apply _events_overlap_false; [assumption | assumption | lia].
Qed.

Lemma C9_is_ongoing_witness :
  ZooEvent.is_ongoing 0 (timed_event 10 5) (Some 12) = inr true ∧
  ZooEvent.is_ongoing 0 (timed_event 10 5) (Some 15) = inr true.
Proof.
  assert (Hr : end_in_range (timed_event 10 5)) by (vm_compute; split; discriminate).
  destruct (C9_is_ongoing_closed_interval 0 (timed_event 10 5) 12 Hr)
    as (_ & _ & Hiff & Hend).
  split.
  - apply Hiff. vm_compute. split; discriminate.
  - apply Hend. simpl. lia.
Defined.

(** ** [TourEvent.add_visitors] *)

Lemma add_visitors_max (count : Z) (self : TourEvent.t) :
  TourEvent.max_visitors (fst (TourEvent.add_visitors count self))
  = TourEvent.max_visitors self.
Proof.
  unfold TourEvent.add_visitors. destruct (_ <=? _); reflexivity.
Qed.

(** Every call keeps the count within the limit once it is within it. *)
Lemma add_visitors_bound (count : Z) (self : TourEvent.t) :
  TourEvent.visitor_count self <= TourEvent.max_visitors self →
  TourEvent.visitor_count (fst (TourEvent.add_visitors count self))
  <= TourEvent.max_visitors self.
Proof.
  intros Hle. unfold TourEvent.add_visitors.
  destruct (Z.leb_spec (TourEvent.visitor_count self + count)
              (TourEvent.max_visitors self)); simpl; lia.
Qed.

Lemma add_visitors_seq_bound (counts : list Z) (self : TourEvent.t) :
  TourEvent.visitor_count self <= TourEvent.max_visitors self →
  TourEvent.visitor_count (TourEvent.add_visitors_seq counts self)
  <= TourEvent.max_visitors self ∧
  TourEvent.max_visitors (TourEvent.add_visitors_seq counts self)
  = TourEvent.max_visitors self.
Proof.
  revert self. induction counts as [| c counts IH]; intros self Hle.
  - simpl. split; [lia | reflexivity].
  - change (TourEvent.add_visitors_seq (c :: counts) self)
      with (TourEvent.add_visitors_seq counts (fst (TourEvent.add_visitors c self))).
    pose proof (add_visitors_max c self) as Hmax.
    pose proof (add_visitors_bound c self Hle) as Hb.
    destruct (IH (fst (TourEvent.add_visitors c self))) as [H1 H2]; [lia |].
    split; lia.
Qed.

(** C8, as stated, fails in its last part: with a negative [max_visitors] the
    initial count 0 already exceeds the limit, and stays there. *)
Lemma C8_negative_limit_counterexample :
  ¬ (TourEvent.visitor_count (TourEvent.add_visitors_seq [0; 1] (TourEvent.init (-1)))
     <= TourEvent.max_visitors (TourEvent.init (-1))).
Proof. vm_compute. intros Hle. apply Hle. reflexivity. Qed.

(** C8, amended: for a non-negative [n], [add_visitors(n)] returns true and
    adds exactly [n] when [visitor_count + n <= max_visitors], and otherwise
    returns false and changes nothing; hence for a tour whose [max_visitors]
    is non-negative, starting from [visitor_count = 0], the count never
    exceeds [max_visitors] under calls with non-negative arguments. *)
Theorem C8_add_visitors (self : TourEvent.t) (n : Z) (limit : Z) (counts : list Z) :
  0 <= n →
  0 <= limit →
  Forall (λ c, 0 <= c) counts →
  (TourEvent.visitor_count self + n <= TourEvent.max_visitors self →
   TourEvent.add_visitors n self
   = (TourEvent.mk (TourEvent.max_visitors self) (TourEvent.visitor_count self + n), true)) ∧
  (TourEvent.max_visitors self < TourEvent.visitor_count self + n →
   TourEvent.add_visitors n self = (self, false)) ∧
  TourEvent.visitor_count (TourEvent.add_visitors_seq counts (TourEvent.init limit)) <= limit.
Proof.
  intros Hn Hlimit Hcounts. split; [| split].
  - intros Hfit. unfold TourEvent.add_visitors.
    destruct (Z.leb_spec (TourEvent.visitor_count self + n)
                (TourEvent.max_visitors self)); [reflexivity | lia].
  - intros Hfull. unfold TourEvent.add_visitors.
    destruct (Z.leb_spec (TourEvent.visitor_count self + n)
                (TourEvent.max_visitors self)); [lia | reflexivity].
  - apply (add_visitors_seq_bound counts (TourEvent.init limit)). simpl. lia.
Qed.

Lemma C8_add_visitors_witness :
  TourEvent.add_visitors 5 (TourEvent.mk 20 18) = (TourEvent.mk 20 18, false) ∧
  TourEvent.visitor_count (TourEvent.add_visitors_seq [15; 7; 5] (TourEvent.init 20)) <= 20.
Proof.
  pose proof (C8_add_visitors (TourEvent.mk 20 18) 5 20 [15; 7; 5]) as Hthm.
  destruct Hthm as (_ & Hfull & Hseq).
  - lia.
  - lia.
  - repeat constructor; lia.
  - split; [apply Hfull; simpl; lia | exact Hseq].
Defined.

(** ** The registry: [add_animal] *)

Lemma is_in_false_entries (a : Animal.t) (l : list Animal.t) :
  Animal.is_in a l = false → entries a l = 0%nat.
Proof.
  unfold Animal.is_in, entries. induction l as [| x l IH]; simpl; [reflexivity |].
  destruct (Nat.eqb (Animal.oid x) (Animal.oid a)); simpl; [discriminate | exact IH].
Qed.

Lemma entries_app (a : Animal.t) (l1 l2 : list Animal.t) :
  entries a (l1 ++ l2) = (entries a l1 + entries a l2)%nat.
Proof. unfold entries. rewrite List.filter_app, length_app. reflexivity. Qed.

Lemma is_in_app_self (a : Animal.t) (l : list Animal.t) :
  Animal.is_in a (l ++ [a]) = true.
Proof.
  unfold Animal.is_in. rewrite existsb_app. simpl.
  rewrite Nat.eqb_refl. apply orb_true_iff. right. reflexivity.
Qed.

(** The animal list after a call of [add_animal] on an absent animal,
    whether or not the subscription step raises. *)
Lemma add_animal_absent_animals (z : Zoo.t) (w : World) (a : Animal.t) :
  Animal.is_in a (Zoo.animals z) = false →
  Zoo.animals (fst (fst (Zoo.add_animal a (z, w)))) = Zoo.animals z ++ [a].
Proof.
  intros Habsent. unfold Zoo.add_animal, bind, Zoo.self. simpl. rewrite Habsent.
  unfold Zoo.subscribe, bind, Zoo.self, raise. simpl.
  destruct (Zoo._event_subscriptions z !! "feeding") as [f |]; simpl; [| reflexivity].
  destruct (<["feeding" := set_add a f]> (Zoo._event_subscriptions z) !! "medical_check");
    reflexivity.
Qed.

Lemma add_animal_present (z : Zoo.t) (w : World) (a : Animal.t) :
  Animal.is_in a (Zoo.animals z) = true →
  Zoo.add_animal a (z, w)
  = ((z, emit_w (Log WARNING ("Животное " +:+ Animal.name a +:+ " уже есть в зоопарке")) w),
     inr tt).
Proof.
  intros Hpresent. unfold Zoo.add_animal, bind, Zoo.self. simpl. rewrite Hpresent.
  reflexivity.
Qed.

(** C5: [add_animal(a)] on an animal already in the list changes nothing in
    the zoo and logs one warning; on an absent animal it appends it; adding
    the same object twice leaves exactly one entry for it. *)
Theorem C5_add_animal (z : Zoo.t) (w : World) (a : Animal.t) :
  (Animal.is_in a (Zoo.animals z) = true →
   Zoo.add_animal a (z, w)
   = ((z, emit_w (Log WARNING ("Животное " +:+ Animal.name a +:+ " уже есть в зоопарке")) w),
      inr tt)) ∧
  (Animal.is_in a (Zoo.animals z) = false →
   Zoo.animals (fst (fst (Zoo.add_animal a (z, w)))) = Zoo.animals z ++ [a] ∧
   Zoo.animals (fst (fst (Zoo.add_animal a (fst (Zoo.add_animal a (z, w))))))
   = Zoo.animals z ++ [a] ∧
   entries a (Zoo.animals (fst (fst (Zoo.add_animal a (fst (Zoo.add_animal a (z, w)))))))
   = 1%nat).
Proof.
  split; [apply add_animal_present |].
  intros Habsent.
  pose proof (add_animal_absent_animals z w a Habsent) as Hfirst.
  destruct (Zoo.add_animal a (z, w)) as [[z1 w1] r1] eqn:Hrun. simpl in Hfirst.
  assert (Hsecond : Zoo.animals (fst (fst (Zoo.add_animal a (z1, w1)))) = Zoo.animals z ++ [a]).
  { rewrite add_animal_present; [exact Hfirst |].
    rewrite Hfirst. apply is_in_app_self. }
  split; [exact Hfirst |]. split; [exact Hsecond |].
  simpl. rewrite Hsecond, entries_app, (is_in_false_entries a _ Habsent).
  unfold entries. simpl. rewrite Nat.eqb_refl. reflexivity.
Qed.

Lemma C5_add_animal_witness :
  Zoo.animals (fst (fst (Zoo.add_animal sample_bird (sample_zoo, sample_world))))
  = [sample_bird] ∧
  entries sample_mammal
    (Zoo.animals (fst (fst (Zoo.add_animal sample_mammal
       (fst (Zoo.add_animal sample_mammal (sample_zoo, sample_world)))))))
  = 1%nat.
Proof.
  split.
  - destruct (C5_add_animal sample_zoo sample_world sample_bird) as [Hpresent _].
    rewrite Hpresent; reflexivity.
  - destruct (C5_add_animal sample_zoo sample_world sample_mammal) as [_ Habsent].
    apply Habsent. reflexivity.
Defined.

(** ** The registry: [schedule_event] *)

Section ScheduleEvent.
Context `{PyRuntime}.

(** When the comparison finds an overlap it has read both end times. *)
Lemma _events_overlap_end_time (e1 e2 : ZooEvent.t) :
  Zoo._events_overlap e1 e2 = inr true →
  ∃ end_time, ZooEvent.end_time e1 = inr end_time.
Proof.
  unfold Zoo._events_overlap.
  destruct (ZooEvent.end_time e2) as [x | end2]; [discriminate |].
  destruct (_ <? end2); [| discriminate].
  destruct (ZooEvent.end_time e1) as [x | end1]; [discriminate |].
  intros _. exists end1. reflexivity.
Qed.

(** The scan finds no overlap and logs nothing, or stops at the first
    overlapping event and logs the warning that names it, or is left by the
    exception of a comparison, with nothing logged. *)
Lemma scan_overlaps_first (existing : list ZooEvent.t) (event : ZooEvent.t)
    (z : Zoo.t) (w : World) :
  (Forall (λ ex, Zoo._events_overlap ex event = inr false) existing ∧
   Zoo.scan_overlaps existing event (z, w) = ((z, w), inr tt))
  ∨
  (∃ before first after end_time,
     existing = before ++ first :: after ∧
     Forall (λ ex, Zoo._events_overlap ex event = inr false) before ∧
     Zoo._events_overlap first event = inr true ∧
     ZooEvent.end_time first = inr end_time ∧
     Zoo.scan_overlaps existing event (z, w)
     = ((z, emit_w (Log WARNING (Zoo.overlap_warning event first end_time)) w), inr tt))
  ∨
  (∃ before first after e,
     existing = before ++ first :: after ∧
     Forall (λ ex, Zoo._events_overlap ex event = inr false) before ∧
     Zoo._events_overlap first event = inl e ∧
     Zoo.scan_overlaps existing event (z, w) = ((z, w), inl e)).
Proof.
  induction existing as [| ex rest IH]; simpl.
  - left. split; [constructor | reflexivity].
  - unfold bind, lift.
    destruct (Zoo._events_overlap ex event) as [e | [|]] eqn:Hov.
    + right. right. exists [], ex, rest, e.
      repeat split; [constructor | exact Hov].
    + right. left.
      destruct (_events_overlap_end_time ex event Hov) as (end_time & Hend).
      exists [], ex, rest, end_time. rewrite Hend.
      repeat split; [constructor | exact Hov].
    + destruct IH as [[Hnone Hrun]
                     | [(before & first & after & end_time & Heq & Hnone & Hfirst & Hend & Hrun)
                       | (before & first & after & e & Heq & Hnone & Hfirst & Hrun)]].
      * left. split; [constructor; assumption | exact Hrun].
      * right. left. exists (ex :: before), first, after, end_time.
        rewrite Heq. repeat split;
          [constructor; assumption | exact Hfirst | exact Hend |].
        rewrite <- Heq. exact Hrun.
      * right. right. exists (ex :: before), first, after, e.
        rewrite Heq. repeat split; [constructor; assumption | exact Hfirst |].
        rewrite <- Heq. exact Hrun.
Qed.



End ScheduleEvent.


(** ** Sorting by start time *)

Section StableSortFacts.
Context {A : Type} (key : A → Z).

Lemma insert_by_key_perm (x : A) (l : list A) :
  Permutation (insert_by_key key x l) (x :: l).
Proof.
  induction l as [| y rest IH]; simpl; [reflexivity |].
  destruct (key x <=? key y); [reflexivity |].
  rewrite IH. apply perm_swap.
Qed.

Lemma sort_by_key_perm (l : list A) : Permutation (sort_by_key key l) l.
Proof.
  induction l as [| x rest IH]; simpl; [reflexivity |].
  rewrite insert_by_key_perm, IH. reflexivity.
Qed.

Lemma insert_by_key_sorted (x : A) (l : list A) :
  StronglySorted (λ a b, key a <= key b) l →
  StronglySorted (λ a b, key a <= key b) (insert_by_key key x l).
Proof.
  induction 1 as [| y rest Hsorted IH Hall]; simpl.
  - repeat constructor.
  - destruct (Z.leb_spec (key x) (key y)) as [Hle | Hgt].
    + constructor; [constructor; assumption |].
      constructor; [exact Hle |].
      eapply List.Forall_impl; [| exact Hall]. simpl. intros b Hb. lia.
    + constructor; [exact IH |].
      rewrite (insert_by_key_perm x rest). constructor; [lia | exact Hall].
Qed.

Lemma sort_by_key_sorted (l : list A) :
  StronglySorted (λ a b, key a <= key b) (sort_by_key key l).
Proof.
  induction l as [| x rest IH]; simpl; [constructor |].
  apply insert_by_key_sorted. exact IH.
Qed.
End StableSortFacts.

(** ** The daily report *)

Lemma filter_none {A} (p : A → bool) (l : list A) :
  Forall (λ x, p x = false) l → List.filter p l = [].
Proof.
  induction 1 as [| x rest Hx _ IH]; simpl; [reflexivity |].
  rewrite Hx. exact IH.
Qed.

Section DailyReport.
Context `{PyRuntime}.

(** C7: when no scheduled event starts on the report date, the report
    consists of the header, the exact animal and staff counts, a count of
    zero events, the line saying that no events are scheduled, and the
    per-class tally. *)
Theorem C7_daily_report_no_events (today : Z) (z : Zoo.t) (report_date : Z) :
  Forall (λ e, date_of (ZooEvent.start_time e) ≠ report_date) (Zoo.events z) →
  Zoo.daily_report today z (Some report_date)
  = join nl
      ([ "Отчет зоопарка '" +:+ Zoo.name z +:+ "' за " +:+ date_isoformat report_date;
         str_mul "=" 50;
         "Всего животных: " +:+ pretty (length (Zoo.animals z));
         "Всего сотрудников: " +:+ pretty (length (Zoo.staff z));
         "Запланировано событий: 0";
         "";
         "Запланированные события:";
         str_mul "-" 30;
         "Событий не запланировано";
         "";
         "Сводка по животным:";
         str_mul "-" 30 ]
       ++ map (λ '(animal_type, count), animal_type +:+ ": " +:+ pretty count)
            (fold_left (λ d a, tally_incr (Animal.class_name a) d) (Zoo.animals z) [])).
Proof.
  intros Hnone. unfold Zoo.daily_report, Zoo.report_lines.
  rewrite (filter_none _ (Zoo.events z)).
  - reflexivity.
  - eapply List.Forall_impl; [| exact Hnone]. simpl. intros e He.
    apply Z.eqb_neq. exact He.
Qed.

End DailyReport.

Lemma C7_daily_report_witness :
  ∃ tally,
    Zoo.daily_report (H := sample_runtime) 0 sample_zoo_events (Some 4)
    = join nl
        ([ "Отчет зоопарка 'Z' за 4";
           str_mul "=" 50;
           "Всего животных: 1";
           "Всего сотрудников: 1";
           "Запланировано событий: 0";
           "";
           "Запланированные события:";
           str_mul "-" 30;
           "Событий не запланировано";
           "";
           "Сводка по животным:";
           str_mul "-" 30 ] ++ tally).
Proof.
  eexists.
  rewrite (C7_daily_report_no_events (H := sample_runtime) 0 sample_zoo_events 4).
  - reflexivity.
  - repeat constructor; vm_compute; discriminate.
Defined.

(** ** Notification and the day simulation *)

Lemma emit_w_emit_all (e : effect) (w : World) : emit_w e w = emit_all [e] w.
Proof. reflexivity. Qed.

Lemma emit_all_emit_all (es1 es2 : list effect) (w : World) :
  emit_all es2 (emit_all es1 w) = emit_all (es1 ++ es2) w.
Proof. unfold emit_all. simpl. rewrite app_assoc. reflexivity. Qed.

Lemma emit_all_nil (w : World) : emit_all [] w = w.
Proof. destruct w. unfold emit_all. simpl. rewrite app_nil_r. reflexivity. Qed.

Lemma emit_run (e : effect) (z : Zoo.t) (w : World) :
  Zoo.emit e (z, w) = ((z, emit_all [e] w), inr tt).
Proof. reflexivity. Qed.

Lemma logger_run (lvl : level) (msg : string) (z : Zoo.t) (w : World) :
  Zoo.logger lvl msg (z, w) = ((z, emit_all [Log lvl msg] w), inr tt).
Proof. reflexivity. Qed.

(** A loop whose body emits one effect per element. *)
Lemma for_each_emit {A} (l : list A) (body : A → M Zoo.St unit) (f : A → effect)
    (z : Zoo.t) (w : World) :
  (∀ x z w, body x (z, w) = ((z, emit_w (f x) w), inr tt)) →
  for_each l body (z, w) = ((z, emit_all (map f l) w), inr tt).
Proof.
  intros Hbody. revert w. induction l as [| x rest IH]; intros w; simpl.
  - rewrite emit_all_nil. reflexivity.
  - unfold bind. rewrite Hbody, IH, emit_w_emit_all, emit_all_emit_all. reflexivity.
Qed.

Section RunDay.
Context `{PyRuntime}.

Lemma notify_feeding_run (food : string) (z : Zoo.t) (w : World) :
  Zoo.notify_animals "feeding" (Some food) (z, w)
  = ((z, emit_all
           (match Zoo._event_subscriptions z !! "feeding" with
            | Some subscribed => map (λ a, Print (Animal.eat_line a food)) (set_iter subscribed)
            | None => [Log WARNING "Неизвестный тип события: feeding"]
            end) w), inr tt).
Proof.
  unfold Zoo.notify_animals, bind, Zoo.self. simpl.
  destruct (Zoo._event_subscriptions z !! "feeding") as [subscribed |].
  - apply for_each_emit. reflexivity.
  - reflexivity.
Qed.

Lemma notify_medical_run (z : Zoo.t) (w : World) :
  Zoo.notify_animals "medical_check" None (z, w)
  = ((z, emit_all
           (match Zoo._event_subscriptions z !! "medical_check" with
            | Some subscribed =>
                map (λ a, Log INFO (Animal.name a +:+ " проходит медицинский осмотр"))
                  (set_iter subscribed)
            | None => [Log WARNING "Неизвестный тип события: medical_check"]
            end) w), inr tt).
Proof.
  unfold Zoo.notify_animals, bind, Zoo.self. simpl.
  destruct (Zoo._event_subscriptions z !! "medical_check") as [subscribed |].
  - apply for_each_emit. reflexivity.
  - reflexivity.
Qed.

Lemma process_event_run (event : ZooEvent.t) (z : Zoo.t) (w : World) :
  Zoo.process_event event (z, w) = ((z, emit_all (event_block z event) w), inr tt).
Proof.
  unfold Zoo.process_event, event_block, notification, bind. rewrite logger_run.
  destruct (ZooEvent.cls event) as [| food_type | | tour].
  - unfold ret. rewrite emit_run, logger_run, !emit_all_emit_all. reflexivity.
  - rewrite notify_feeding_run, emit_run, logger_run, !emit_all_emit_all.
    rewrite <- ?app_assoc. reflexivity.
  - rewrite notify_medical_run, emit_run, logger_run, !emit_all_emit_all.
    rewrite <- ?app_assoc. reflexivity.
  - unfold ret. rewrite emit_run, logger_run, !emit_all_emit_all. reflexivity.
Qed.

Lemma for_each_process_event (l : list ZooEvent.t) (z : Zoo.t) (w : World) :
  for_each l Zoo.process_event (z, w)
  = ((z, emit_all (flat_map (event_block z) l) w), inr tt).
Proof.
  revert w. induction l as [| event rest IH]; intros w; simpl.
  - rewrite emit_all_nil. reflexivity.
  - unfold bind. rewrite process_event_run, IH, emit_all_emit_all. reflexivity.
Qed.

(** C4: [run_day] processes exactly the events that start on the target
    date, in ascending order of start time; the effects of one event,
    its notification among them, come before those of the next event. *)
Theorem C4_run_day_order (z : Zoo.t) (w : World) (target_date : Z) :
  ∃ processed : list ZooEvent.t,
    Permutation processed
      (List.filter (λ e, date_of (ZooEvent.start_time e) =? target_date) (Zoo.events z)) ∧
    StronglySorted (λ e1 e2, ZooEvent.start_time e1 <= ZooEvent.start_time e2) processed ∧
    Zoo.run_day (Some target_date) (z, w)
    = ((z, emit_all
             ([Log INFO ("Запуск симуляции дня " +:+ date_isoformat target_date)]
              ++ flat_map (event_block z) processed
              ++ [Log INFO ("Симуляция дня " +:+ date_isoformat target_date +:+ " завершена")])
             w),
       inr tt).
Proof.
  exists (sort_by_key ZooEvent.start_time (Zoo.get_events_on_date z target_date)).
  split; [apply sort_by_key_perm |]. split; [apply sort_by_key_sorted |].
  unfold Zoo.run_day, bind, Zoo.world, Zoo.self. cbn [fst snd].
  rewrite logger_run. cbn [fst snd].
  rewrite for_each_process_event, logger_run, !emit_all_emit_all.
  rewrite <- ?app_assoc. reflexivity.
Qed.

End RunDay.

(** ** Subscriptions: every animal of the zoo is notified *)

Lemma init_subscribed_all (name : string) : subscribed_all (Zoo.init name).
Proof.
  exists ∅, ∅. unfold Zoo.init, Zoo._setup_default_event_subscriptions. simpl.
  split; [apply lookup_insert_eq |].
  split; [rewrite lookup_insert_ne by discriminate; apply lookup_insert_eq |].
  rewrite map_to_list_empty. split; reflexivity.
Qed.

Lemma subscribe_run (event_type : string) (a : Animal.t) (s : gmap nat Animal.t)
    (z : Zoo.t) (w : World) :
  Zoo._event_subscriptions z !! event_type = Some s →
  Zoo.subscribe event_type a (z, w)
  = ((Zoo.mk (Zoo.name z) (Zoo.animals z) (Zoo.staff z) (Zoo.events z)
        (<[event_type := set_add a s]> (Zoo._event_subscriptions z)), w), inr tt).
Proof.
  intros Hs. unfold Zoo.subscribe, bind, Zoo.self. cbn [fst snd]. rewrite Hs. reflexivity.
Qed.

(** An animal absent from the list is absent from a set that mirrors it. *)
Lemma absent_from_mirror (a : Animal.t) (l : list Animal.t) (s : gmap nat Animal.t) :
  Animal.is_in a l = false →
  map_to_list s ≡ₚ (λ a, (Animal.oid a, a)) <$> l →
  s !! Animal.oid a = None.
Proof.
  intros Habsent Hmirror.
  destruct (s !! Animal.oid a) as [b |] eqn:Hlookup; [| reflexivity].
  apply elem_of_map_to_list in Hlookup. rewrite Hmirror in Hlookup.
  apply list_elem_of_fmap in Hlookup as (c & Hc & Hin).
  injection Hc as Hoid _.
  assert (Hpresent : Animal.is_in a l = true).
  { unfold Animal.is_in. apply existsb_exists. exists c.
    split; [apply list_elem_of_In; exact Hin |].
    apply Nat.eqb_eq. symmetry. exact Hoid. }
  congruence.
Qed.

Lemma set_add_mirror (a : Animal.t) (l : list Animal.t) (s : gmap nat Animal.t) :
  Animal.is_in a l = false →
  map_to_list s ≡ₚ (λ a, (Animal.oid a, a)) <$> l →
  map_to_list (set_add a s) ≡ₚ (λ a, (Animal.oid a, a)) <$> (l ++ [a]).
Proof.
  intros Habsent Hmirror.
  pose proof (absent_from_mirror a l s Habsent Hmirror) as Hnone.
  unfold set_add. rewrite Hnone.
  rewrite map_to_list_insert by exact Hnone.
  rewrite fmap_app. simpl. rewrite Hmirror.
  apply Permutation_cons_append.
Qed.

Lemma add_animal_subscribed_all (a : Animal.t) (z : Zoo.t) (w : World) :
  subscribed_all z →
  ∃ z' w', Zoo.add_animal a (z, w) = ((z', w'), inr tt) ∧ subscribed_all z'.
Proof.
  intros (feeding & medical & Hf & Hm & Hpf & Hpm).
  destruct (Animal.is_in a (Zoo.animals z)) eqn:Hin.
  - eexists _, _. split; [apply add_animal_present; exact Hin |].
    exists feeding, medical. auto.
  - eexists _, _. split.
    + unfold Zoo.add_animal, bind, Zoo.self. cbn [fst snd]. rewrite Hin.
      unfold Zoo.update at 1. unfold modify. cbn [fst snd].
      rewrite logger_run.
      rewrite (subscribe_run "feeding" a feeding) by exact Hf.
      rewrite (subscribe_run "medical_check" a medical)
        by (simpl; rewrite lookup_insert_ne by discriminate; exact Hm).
      reflexivity.
    + exists (set_add a feeding), (set_add a medical). simpl.
      split; [rewrite lookup_insert_ne by discriminate; apply lookup_insert_eq |].
      split; [apply lookup_insert_eq |].
      split; apply set_add_mirror; assumption.
Qed.

Lemma add_animals_subscribed_all (l : list Animal.t) (z : Zoo.t) (w : World) :
  subscribed_all z →
  ∃ z' w', for_each l Zoo.add_animal (z, w) = ((z', w'), inr tt) ∧ subscribed_all z'.
Proof.
  revert z w. induction l as [| a rest IH]; intros z w Hinv; simpl.
  - exists z, w. split; [reflexivity | exact Hinv].
  - destruct (add_animal_subscribed_all a z w Hinv) as (z1 & w1 & Hrun & Hinv1).
    destruct (IH z1 w1 Hinv1) as (z2 & w2 & Hrest & Hinv2).
    exists z2, w2. split; [| exact Hinv2].
    unfold bind. rewrite Hrun. exact Hrest.
Qed.

Section NotifyAll.
Context `{PyRuntime}.

(** C10: in a zoo built from an empty one by [add_animal] calls, every
    animal of the list is in the feeding and in the medical-check
    subscription set, and [notify_animals("feeding", food=f)] feeds each
    animal of the zoo, whatever animals an event lists. *)
Theorem C10_all_animals_subscribed (zoo_name : string) (added : list Animal.t) (w : World) :
  ∃ (z : Zoo.t) (w' : World) (feeding medical : gmap nat Animal.t),
    for_each added Zoo.add_animal (Zoo.init zoo_name, w) = ((z, w'), inr tt) ∧
    Zoo._event_subscriptions z !! "feeding" = Some feeding ∧
    Zoo._event_subscriptions z !! "medical_check" = Some medical ∧
    Forall (λ a, feeding !! Animal.oid a = Some a ∧ medical !! Animal.oid a = Some a)
      (Zoo.animals z) ∧
    ∀ (food : string) (w1 : World),
      ∃ fed : list Animal.t,
        Permutation fed (Zoo.animals z) ∧
        Zoo.notify_animals "feeding" (Some food) (z, w1)
        = ((z, emit_all (map (λ a, Print (Animal.eat_line a food)) fed) w1), inr tt).
Proof.
  destruct (add_animals_subscribed_all added (Zoo.init zoo_name) w
              (init_subscribed_all zoo_name))
    as (z & w' & Hrun & feeding & medical & Hf & Hm & Hpf & Hpm).
  exists z, w', feeding, medical. repeat split; try assumption.
  - apply List.Forall_forall. intros a Ha.
    assert (Hpair : (Animal.oid a, a) ∈ (λ a, (Animal.oid a, a)) <$> Zoo.animals z).
    { apply list_elem_of_fmap. exists a. split; [reflexivity |].
      apply list_elem_of_In. exact Ha. }
    split; apply elem_of_map_to_list; [rewrite Hpf | rewrite Hpm]; exact Hpair.
  - intros food w1. exists (set_iter feeding). split.
    + unfold set_iter. rewrite Hpf, <- list_fmap_compose.
      rewrite (list_fmap_ext _ id (Zoo.animals z) ) by reflexivity.
      rewrite list_fmap_id. reflexivity.
    + rewrite notify_feeding_run, Hf. reflexivity.
Qed.

End NotifyAll.

(** ** Loading: failing computations *)

Section MonadFacts.
Context {S : Type}.

Lemma raises_bind_l {A B} (m : M S A) (k : A → M S B) :
  raises m → raises (bind m k).
Proof.
  intros Hm s. destruct (Hm s) as (s' & e & Hrun).
  exists s', e. unfold bind. rewrite Hrun. reflexivity.
Qed.

Lemma raises_bind_r {A B} (m : M S A) (k : A → M S B) :
  (∀ a, raises (k a)) → raises (bind m k).
Proof.
  intros Hk s. unfold bind. destruct (m s) as [s1 [e | a]].
  - exists s1, e. reflexivity.
  - apply Hk.
Qed.

Lemma raises_for_each {A} (l : list A) (body : A → M S unit) (x : A) :
  In x l → raises (body x) → raises (for_each l body).
Proof.
  intros Hin Hx. induction l as [| y rest IH]; [destruct Hin |].
  simpl in *. destruct Hin as [Heq | Hin].
  - subst y. apply raises_bind_l. exact Hx.
  - apply raises_bind_r. intros _. apply IH. exact Hin.
Qed.

Lemma stateless_ret {A} (a : A) : stateless (ret a : M S A).
Proof. intros s. reflexivity. Qed.

Lemma stateless_raise {A} (e : exn) : stateless (raise e : M S A).
Proof. intros s. reflexivity. Qed.

Lemma stateless_bind {A B} (m : M S A) (k : A → M S B) :
  stateless m → (∀ a, stateless (k a)) → stateless (bind m k).
Proof.
  intros Hm Hk s. unfold bind. specialize (Hm s).
  destruct (m s) as [s1 [e | a]]; simpl in Hm; subst s1; [reflexivity | apply Hk].
Qed.

Lemma stateless_getitem (data : value) (k : string) : stateless (getitem data k : M S value).
Proof.
  intros s. destruct data; try reflexivity. simpl. destruct (dict_get k d); reflexivity.
Qed.

Lemma stateless_get_default (data : value) (k : string) (v : value) :
  stateless (get_default data k v : M S value).
Proof. intros s. destruct data; reflexivity. Qed.

Lemma stateless_as_str (v : value) : stateless (as_str v : M S string).
Proof. intros s. destruct v; reflexivity. Qed.

Lemma stateless_as_int (v : value) : stateless (as_int v : M S Z).
Proof. intros s. destruct v; reflexivity. Qed.

Lemma stateless_contains_int (c : value) (n : Z) : stateless (contains_int c n : M S bool).
Proof. intros s. destruct c; reflexivity. Qed.

Lemma stateless_contains_str (c : value) (t : string) :
  stateless (contains_str c t : M S bool).
Proof. intros s. destruct c; reflexivity. Qed.

Lemma stateless_filter_m {A} (p : A → M S bool) (l : list A) :
  (∀ x, stateless (p x)) → stateless (filter_m p l).
Proof.
  intros Hp. induction l as [| x rest IH]; simpl; [apply stateless_ret |].
  apply stateless_bind; [apply Hp | intros b].
  apply stateless_bind; [exact IH | intros kept]. apply stateless_ret.
Qed.

Lemma stateless_new_timedelta (td : Z) : stateless (new_timedelta td : M S Z).
Proof.
  intros s. unfold new_timedelta.
  destruct (in_timedelta_range td); [reflexivity |].
  destruct (_ && _); reflexivity.
Qed.

Lemma stateless_timedelta_of_seconds (v : value) :
  stateless (timedelta_of_seconds v : M S Z).
Proof.
  intros s. destruct v; try reflexivity; apply stateless_new_timedelta.
Qed.

Lemma stateless_EventType_getitem (v : value) :
  stateless (EventType_getitem v : M S EventType).
Proof.
  intros s. unfold EventType_getitem, bind.
  destruct v; try reflexivity. simpl. destruct (EventType_lookup s0); reflexivity.
Qed.

(** A stateless computation that raises hands back the state it was given. *)
Lemma stateless_raises_run {A} (m : M S A) (s : S) :
  stateless m → raises m → ∃ e, m s = (s, inl e).
Proof.
  intros Hstateless Hraises. destruct (Hraises s) as (s' & e & Hrun).
  specialize (Hstateless s). rewrite Hrun in Hstateless. simpl in Hstateless.
  subst s'. exists e. exact Hrun.
Qed.

End MonadFacts.

(** ** Loading: unknown type tags *)

Lemma deserialize_animal_unknown (data : value) :
  known_tag animal_type_names data = false →
  raises (ZooStorage._deserialize_animal data).
Proof.
  intros Hunknown w. unfold ZooStorage._deserialize_animal, bind.
  destruct data as [| | | | | | d]; try (eexists _, _; reflexivity).
  unfold known_tag, record_type in Hunknown. cbn -[String.eqb].
  destruct (dict_get "type" d) as [tag |]; [| eexists _, _; reflexivity].
  destruct tag as [| | | | s | |]; try (eexists _, _; reflexivity).
  cbn -[String.eqb] in Hunknown. cbn -[String.eqb].
  destruct (String.eqb "Bird" s); [discriminate |].
  destruct (String.eqb "Mammal" s); [discriminate |].
  destruct (String.eqb "Reptile" s); [discriminate |].
  eexists _, _; reflexivity.
Qed.

Section UnknownTags.
Context `{PyRuntime}.

Lemma deserialize_staff_unknown (data : value) :
  known_tag staff_type_names data = false →
  raises (ZooStorage._deserialize_staff data).
Proof.
  intros Hunknown w. unfold ZooStorage._deserialize_staff, bind.
  destruct data as [| | | | | | d]; try (eexists _, _; reflexivity).
  unfold known_tag, record_type in Hunknown. cbn -[String.eqb].
  destruct (dict_get "type" d) as [tag |]; [| eexists _, _; reflexivity].
  destruct tag as [| | | | s | |]; try (eexists _, _; reflexivity).
  cbn -[String.eqb] in Hunknown. cbn -[String.eqb].
  destruct (String.eqb "ZooKeeper" s); [discriminate |].
  destruct (String.eqb "Veterinarian" s); [discriminate |].
  destruct (String.eqb "Guide" s); [discriminate |].
  eexists _, _; reflexivity.
Qed.

Lemma lift_w_raises {A} (m : M World A) : raises m → raises (Zoo.lift_w m).
Proof.
  intros Hm [z w]. destruct (Hm w) as (w' & e & Hrun).
  exists (z, w'), e. unfold Zoo.lift_w. simpl. rewrite Hrun. reflexivity.
Qed.

Lemma load_animals_unknown (records : list value) (bad : value) :
  In bad records → known_tag animal_type_names bad = false →
  raises (load_animals records).
Proof.
  intros Hin Hunknown. unfold load_animals.
  apply (raises_for_each records _ bad Hin).
  apply raises_bind_l, lift_w_raises, deserialize_animal_unknown. exact Hunknown.
Qed.

Lemma load_staff_unknown (records : list value) (bad : value) :
  In bad records → known_tag staff_type_names bad = false →
  raises (load_staff records).
Proof.
  intros Hin Hunknown. unfold load_staff.
  apply (raises_for_each records _ bad Hin).
  apply raises_bind_l, lift_w_raises, deserialize_staff_unknown. exact Hunknown.
Qed.

(** Reading a list stored under a key of the document. *)
Lemma read_list_run (d : list (string * value)) (k : string) (records : list value)
    (body : list value → M Zoo.St unit) (st : Zoo.St) :
  dict_get k d = Some (VList records) →
  (v <- get_default (VDict d) k (VList []) ;; l <- iter_value v ;; body l) st
  = body records st.
Proof.
  intros Hget. unfold bind, get_default, ret. rewrite Hget. reflexivity.
Qed.

Lemma load_body_unknown (path : string) (d : list (string * value))
    (records : list value) (bad : value) :
  In bad records →
  (dict_get "staff" d = Some (VList records) ∧ known_tag staff_type_names bad = false) ∨
  (dict_get "animals" d = Some (VList records) ∧ known_tag animal_type_names bad = false) →
  raises (load_body path (VDict d)).
Proof.
  intros Hin [[Hget Hunknown] | [Hget Hunknown]]; unfold load_body.
  - apply raises_bind_l. intros st.
    rewrite (read_list_run d "staff" records load_staff st Hget).
    apply (load_staff_unknown records bad Hin Hunknown).
  - apply raises_bind_r. intros _. apply raises_bind_l. intros st.
    rewrite (read_list_run d "animals" records load_animals st Hget).
    apply (load_animals_unknown records bad Hin Hunknown).
Qed.

(** [ZooStorage.load] hands back the document it was given, or raises. *)
Lemma storage_load_data (path : string) (doc : value) (fmt : string) (w w' : World)
    (data : value) :
  ZooStorage.load path (Some doc) fmt w = (w', inr data) → data = doc.
Proof.
  unfold ZooStorage.load, bind.
  destruct (_ : M World unit) as [w1 [e | []]]; [discriminate |].
  destruct (get_default doc "schema_version" VNone w1) as [w2 [e | version]];
    [discriminate |].
  destruct (_ : M World unit) as [w3 [e | []]]; [discriminate |].
  unfold ret. intros Heq. injection Heq as _ Hdata. symmetry. exact Hdata.
Qed.

(** An unknown animal or staff tag aborts [Zoo.load]. *)
Lemma Zoo_load_unknown (path fmt : string) (d : list (string * value))
    (records : list value) (bad : value) (w : World) :
  In bad records →
  (dict_get "staff" d = Some (VList records) ∧ known_tag staff_type_names bad = false) ∨
  (dict_get "animals" d = Some (VList records) ∧ known_tag animal_type_names bad = false) →
  ∃ w' e, Zoo_load path (Some (VDict d)) fmt w = (w', inl e).
Proof.
  intros Hin Hbad. unfold Zoo_load, bind.
  destruct (ZooStorage.load path (Some (VDict d)) fmt w) as [w1 [e | data]] eqn:Hload.
  - exists w1, e. reflexivity.
  - apply storage_load_data in Hload. subst data.
    destruct (load_body_unknown path d records bad Hin Hbad
                (Zoo.init "Загруженный зоопарк", w1)) as ([z2 w2] & e & Hrun).
    rewrite Hrun. exists w2, e. reflexivity.
Qed.

End UnknownTags.

Lemma raises_bind_getitem {S B} (d : list (string * value)) (k : string)
    (rest : value → M S B) :
  (∀ v, dict_get k d = Some v → raises (rest v)) →
  raises (bind (getitem (VDict d) k) rest).
Proof.
  intros Hrest s. unfold bind, getitem.
  destruct (dict_get k d) as [v |].
  - apply (Hrest v eq_refl).
  - eexists _, _. reflexivity.
Qed.

Lemma EventType_getitem_unnamed {S} (v : value) :
  match v with VStr s => EventType_lookup s | _ => None end = None →
  raises (EventType_getitem v : M S EventType).
Proof.
  intros Hnone s. unfold EventType_getitem, bind.
  destruct v; try (eexists _, _; reflexivity).
  simpl. rewrite Hnone. eexists _, _. reflexivity.
Qed.

Ltac stateless_step :=
  first
    [ apply stateless_ret | apply stateless_raise | apply stateless_getitem
    | apply stateless_get_default | apply stateless_as_str | apply stateless_as_int
    | apply stateless_timedelta_of_seconds | apply stateless_EventType_getitem
    | apply stateless_contains_int | apply stateless_contains_str
    | (apply stateless_filter_m; intros ?)
    | (apply stateless_bind; [| intros ?])
    | match goal with |- stateless (if ?b then _ else _) => destruct b end ].

Section EventRecords.
Context `{PyRuntime}.

Lemma stateless_parse_datetime (v : value) : stateless (ZooStorage.parse_datetime v).
Proof.
  intros w. destruct v; try reflexivity. simpl.
  destruct (datetime_fromisoformat s); reflexivity.
Qed.

(** Rebuilding an event allocates nothing and logs nothing. *)
Lemma stateless_deserialize_event (data : value) (zoo : Zoo.t) :
  stateless (ZooStorage._deserialize_event data zoo).
Proof.
  unfold ZooStorage._deserialize_event.
  repeat first [apply stateless_parse_datetime | stateless_step].
Qed.

(** A record whose tag is none of the three subclass names and that names
    no member of [EventType] cannot be rebuilt. *)
Lemma deserialize_event_unknown (data : value) (zoo : Zoo.t) :
  known_tag event_type_names data = false →
  named_event_type data = None →
  raises (ZooStorage._deserialize_event data zoo).
Proof.
  intros Hunknown Hunnamed. unfold ZooStorage._deserialize_event.
  destruct data as [| | | | | | d];
    try (apply raises_bind_l; intros w; eexists _, _; reflexivity).
  apply raises_bind_getitem. intros tag Htag.
  do 4 (apply raises_bind_r; intros ?).
  assert (Hnot : str_eq_value "FeedingEvent" tag = false ∧
                 str_eq_value "MedicalCheckEvent" tag = false ∧
                 str_eq_value "TourEvent" tag = false).
  { unfold known_tag, record_type in Hunknown. rewrite Htag in Hunknown.
    destruct tag; try (repeat split; reflexivity).
    cbn -[String.eqb] in *.
    destruct (String.eqb "FeedingEvent" s); [discriminate |].
    destruct (String.eqb "MedicalCheckEvent" s); [discriminate |].
    destruct (String.eqb "TourEvent" s); [discriminate |].
    repeat split; reflexivity. }
  destruct Hnot as (-> & -> & ->).
  apply raises_bind_l, raises_bind_getitem. intros v Hv.
  apply EventType_getitem_unnamed.
  unfold named_event_type in Hunnamed. rewrite Hv in Hunnamed. exact Hunnamed.
Qed.

(** Loading one event record never raises. *)
Lemma load_event_total (event_data : value) (st : Zoo.St) :
  ∃ st', load_event event_data st = (st', inr tt).
Proof.
  unfold load_event, try_except.
  destruct (bind Zoo.self _ st) as [st1 [e | []]].
  - eexists. reflexivity.
  - eexists. reflexivity.
Qed.

Lemma load_events_total (records : list value) (st : Zoo.St) :
  ∃ st', load_events records st = (st', inr tt).
Proof.
  unfold load_events. revert st.
  induction records as [| event_data rest IH]; intros st; simpl.
  - eexists. reflexivity.
  - unfold bind. destruct (load_event_total event_data st) as (st1 & ->). apply IH.
Qed.

(** A record that cannot be rebuilt is logged and skipped. *)
Lemma load_event_skips (event_data : value) (z : Zoo.t) (w : World) :
  raises (ZooStorage._deserialize_event event_data z) →
  ∃ e, ZooStorage._deserialize_event event_data z w = (w, inl e) ∧
       load_event event_data (z, w)
       = ((z, emit_all [Log ERROR ("Ошибка при загрузке события: " +:+ exn_str e)] w),
          inr tt).
Proof.
  intros Hraises.
  destruct (stateless_raises_run _ w (stateless_deserialize_event event_data z) Hraises)
    as (e & Hrun).
  exists e. split; [exact Hrun |].
  unfold load_event, try_except, bind, Zoo.self, Zoo.lift_w. cbn [fst snd].
  rewrite Hrun. apply logger_run.
Qed.

(** C2, amended: an animal or staff record whose type tag is not a known
    type name makes [Zoo.load] raise, so no zoo is returned; an event record
    whose type tag is not a known subclass name and whose ["event_type"]
    field names no member of [EventType] raises on deserialization, the
    error is logged, that event alone is skipped, and the loop over the
    events never aborts the load. *)
Theorem C2_unknown_type_tags :
  (∀ (path fmt : string) (d : list (string * value)) (records : list value)
     (bad : value) (w : World),
     In bad records →
     (dict_get "staff" d = Some (VList records) ∧
      known_tag staff_type_names bad = false) ∨
     (dict_get "animals" d = Some (VList records) ∧
      known_tag animal_type_names bad = false) →
     ∃ w' e, Zoo_load path (Some (VDict d)) fmt w = (w', inl e)) ∧
  (∀ (event_data : value) (rest : list value) (z : Zoo.t) (w : World),
     known_tag event_type_names event_data = false →
     named_event_type event_data = None →
     ∃ e, ZooStorage._deserialize_event event_data z w = (w, inl e) ∧
          load_events (event_data :: rest) (z, w)
          = load_events rest
              (z, emit_all [Log ERROR ("Ошибка при загрузке события: " +:+ exn_str e)] w)) ∧
  (∀ (records : list value) (st : Zoo.St),
     ∃ st', load_events records st = (st', inr tt)).
Proof.
  split; [| split].
  - intros path fmt d records bad w Hin Hbad.
    apply (Zoo_load_unknown path fmt d records bad w Hin Hbad).
  - intros event_data rest z w Hunknown Hunnamed.
    pose proof (deserialize_event_unknown event_data z Hunknown Hunnamed) as Hraises.
    destruct (load_event_skips event_data z w Hraises) as (e & Hrun & Hskip).
    exists e. split; [exact Hrun |].
    unfold load_events. simpl. unfold bind. rewrite Hskip. reflexivity.
  - apply load_events_total.
Qed.

End EventRecords.

(** C2, as stated, fails for events: a record whose type tag is unknown but
    whose ["event_type"] field names a member of [EventType] is rebuilt as a
    plain [ZooEvent] and scheduled; no error is raised or logged. *)
Lemma C2_unknown_event_tag_counterexample :
  known_tag event_type_names show_record = false ∧
  ZooStorage._deserialize_event (H := sample_runtime) show_record
    (Zoo.init "Загруженный зоопарк") sample_world
  = (sample_world, inr show_event) ∧
  Zoo_load (H := sample_runtime) "zoo.json" (Some show_document) "json" sample_world
  = (emit_all [ Log INFO "Запланировано событие: Show на 288300000000";
                Log INFO "Данные зоопарка загружены из zoo.json" ] sample_world,
     inr (Zoo.mk "Загруженный зоопарк" [] [] [show_event]
            Zoo._setup_default_event_subscriptions)).
Proof. repeat split; vm_compute; reflexivity. Qed.

Lemma C2_unknown_type_tags_witness :
  (∃ w' e, Zoo_load (H := sample_runtime) "zoo.json" (Some (VDict fish_document)) "json"
             sample_world = (w', inl e)) ∧
  (∃ e, ZooStorage._deserialize_event (H := sample_runtime) cleaning_record sample_zoo
          sample_world = (sample_world, inl e) ∧
        load_events (H := sample_runtime) [cleaning_record; show_record]
          (sample_zoo, sample_world)
        = load_events (H := sample_runtime) [show_record]
            (sample_zoo,
             emit_all [Log ERROR ("Ошибка при загрузке события: "
                                  +:+ exn_str (H := sample_runtime) e)] sample_world)).
Proof.
  destruct (C2_unknown_type_tags (H := sample_runtime)) as (Hfatal & Hskip & _).
  split.
  - apply (Hfatal "zoo.json" "json" fish_document
             [ZooStorage._serialize_animal sample_bird;
              VDict [("type", VStr "Fish"); ("name", VStr "Nemo"); ("age", VInt 1)]]
             (VDict [("type", VStr "Fish"); ("name", VStr "Nemo"); ("age", VInt 1)])).
    + right. left. reflexivity.
    + right. split; reflexivity.
  - apply (Hskip cleaning_record [show_record] sample_zoo sample_world); reflexivity.
Defined.

(** ** Save, then load *)

Section SaveLoad.
Context `{PyRuntime}.

(** C1 at a failing input: [save] writes the record of a plain [ZooEvent]
    without an ["event_type"] field, [_deserialize_event] looks that field
    up and raises, and the loaded zoo has lost the event. *)
Theorem C1_base_event_lost (w : World) :
  ∃ (doc : value) (w1 w2 : World) (loaded : Zoo.t),
    Zoo_save "zoo.json" "json" (show_zoo, w) = ((show_zoo, w1), inr doc) ∧
    Zoo_load "zoo.json" (Some doc) "json" w1 = (w2, inr loaded) ∧
    length (Zoo.events show_zoo) = 1%nat ∧
    length (Zoo.events loaded) = 0%nat.
Proof.
  set (w1 := emit_w (Log INFO ("Данные зоопарка сохранены в " +:+ "zoo.json")) w).
  destruct (load_event_skips (ZooStorage._serialize_event show_event)
              (Zoo.init "Загруженный зоопарк") w1) as (e & _ & Hskip).
  { apply deserialize_event_unknown; reflexivity. }
  exists (ZooStorage.save_data show_zoo (now w)), w1.
  eexists _, _. split; [reflexivity |].
  split; [| split; [reflexivity |]].
  - unfold Zoo_load, bind. cbn -[load_event Zoo.init].
    unfold load_body, bind. cbn -[load_event Zoo.init].
    unfold bind. rewrite Hskip. cbn. reflexivity.
  - reflexivity.
Qed.

End SaveLoad.

(** ** Save, then load: what does round-trip *)

Lemma fresh_staff_absent (s : Staff.t) (l : list Staff.t) :
  Forall (λ x, (Staff.oid x < Staff.oid s)%nat) l → Staff.is_in s l = false.
Proof.
  unfold Staff.is_in. induction 1 as [| x rest Hx _ IH]; simpl; [reflexivity |].
  rewrite IH, orb_false_r. apply Nat.eqb_neq. lia.
Qed.

Lemma fresh_animal_absent (a : Animal.t) (l : list Animal.t) :
  Forall (λ x, (Animal.oid x < Animal.oid a)%nat) l → Animal.is_in a l = false.
Proof.
  unfold Animal.is_in. induction 1 as [| x rest Hx _ IH]; simpl; [reflexivity |].
  rewrite IH, orb_false_r. apply Nat.eqb_neq. lia.
Qed.

Lemma add_staff_absent_run (person : Staff.t) (z : Zoo.t) (w : World) :
  Staff.is_in person (Zoo.staff z) = false →
  ∃ msg,
    Zoo.add_staff person (z, w)
    = ((Zoo.mk (Zoo.name z) (Zoo.animals z) (Zoo.staff z ++ [person]) (Zoo.events z)
          (Zoo._event_subscriptions z), emit_all [Log INFO msg] w), inr tt).
Proof.
  intros Habsent. eexists. unfold Zoo.add_staff, bind, Zoo.self. cbn [fst snd].
  rewrite Habsent. reflexivity.
Qed.

Lemma add_animal_absent_run (a : Animal.t) (feeding medical : gmap nat Animal.t)
    (z : Zoo.t) (w : World) :
  Zoo._event_subscriptions z !! "feeding" = Some feeding →
  Zoo._event_subscriptions z !! "medical_check" = Some medical →
  Animal.is_in a (Zoo.animals z) = false →
  ∃ msg,
    Zoo.add_animal a (z, w)
    = ((Zoo.mk (Zoo.name z) (Zoo.animals z ++ [a]) (Zoo.staff z) (Zoo.events z)
          (<["medical_check" := set_add a medical]>
             (<["feeding" := set_add a feeding]> (Zoo._event_subscriptions z))),
        emit_all [Log INFO msg] w), inr tt).
Proof.
  intros Hf Hm Habsent. eexists.
  unfold Zoo.add_animal, bind, Zoo.self. cbn [fst snd]. rewrite Habsent.
  unfold Zoo.update at 1. unfold modify. cbn [fst snd].
  rewrite logger_run.
  rewrite (subscribe_run "feeding" a feeding) by exact Hf.
  rewrite (subscribe_run "medical_check" a medical)
    by (simpl; rewrite lookup_insert_ne by discriminate; exact Hm).
  reflexivity.
Qed.

Lemma filter_m_run {S A} (p : A → M S bool) (f : A → bool) (l : list A) (s : S) :
  (∀ x, p x s = (s, inr (f x))) →
  filter_m p l s = (s, inr (List.filter f l)).
Proof.
  intros Hp. induction l as [| x rest IH]; simpl; [reflexivity |].
  unfold bind. rewrite Hp, IH. unfold ret. destruct (f x); reflexivity.
Qed.

Section RoundTrip.
Context `{R : PyRuntime} {laws : PyRuntimeLaws R}.

Lemma schedule_event_run (event : ZooEvent.t) (z : Zoo.t) (w : World) :
  end_in_range event →
  Forall end_in_range (Zoo.events z) →
  ∃ es,
    Zoo.schedule_event event (z, w)
    = ((Zoo.mk (Zoo.name z) (Zoo.animals z) (Zoo.staff z) (Zoo.events z ++ [event])
          (Zoo._event_subscriptions z), emit_all es w), inr tt).
Proof.
  intros Hevent Hevents.
  unfold Zoo.schedule_event, bind, Zoo.self. cbn [fst snd].
  destruct (scan_overlaps_first (Zoo.events z) event z w)
    as [[_ Hrun]
       | [(before & first & after & end_time & _ & _ & _ & _ & Hrun)
         | (before & first & after & e & Heq & _ & Hfirst & _)]].
  - rewrite Hrun. eexists. unfold Zoo.update, modify. cbn [fst snd].
    rewrite logger_run. reflexivity.
  - rewrite Hrun. eexists. unfold Zoo.update, modify. cbn [fst snd].
    rewrite logger_run, emit_w_emit_all, emit_all_emit_all. reflexivity.
  - exfalso. rewrite Heq in Hevents.
    apply List.Forall_app in Hevents as [_ Hrest].
    rewrite (_events_overlap_in_range first event (List.Forall_inv Hrest) Hevent) in Hfirst.
    discriminate.
Qed.

(** Multiplying the seconds of a duration back gives its microseconds. *)
Lemma timedelta_roundtrip (td : Z) :
  round_half_even (total_seconds td * inject_Z 1000000) = td.
Proof.
  unfold round_half_even, total_seconds.
  assert (Hfloor : Qfloor ((td # 1000000) * inject_Z 1000000) = td).
  { unfold Qfloor, Qmult, inject_Z. cbn [Qnum Qden].
    change (Z.pos (1000000 * 1)) with 1000000. apply Z.div_mul. discriminate. }
  rewrite Hfloor.
  assert (Hcmp : ((td # 1000000) * inject_Z 1000000 - inject_Z td ?= 1 # 2)%Q = Lt).
  { unfold Qcompare, Qminus, Qplus, Qopp, Qmult, inject_Z. cbn [Qnum Qden].
    change (Z.pos (1000000 * 1 * 1)) with 1000000.
    change (Z.pos (1000000 * 1)) with 1000000.
    change (Z.pos 2) with 2. change (Z.pos 1) with 1.
    apply Z.compare_lt_iff. lia. }
  rewrite Hcmp. reflexivity.
Qed.

Lemma new_timedelta_in_range {S} (td : Z) (s : S) :
  in_timedelta_range td = true → new_timedelta td s = (s, inr td).
Proof. intros Hr. unfold new_timedelta. rewrite Hr. reflexivity. Qed.

Lemma duration_exact_in_range (e : ZooEvent.t) :
  duration_exact e → in_timedelta_range (ZooEvent.duration e) = true.
Proof.
  unfold duration_exact, in_timedelta_range, timedelta_min, timedelta_max, usec_per_day.
  intros Hd. apply andb_true_iff. split; apply Z.leb_le; lia.
Qed.

Lemma deserialize_staff_serialized (s : Staff.t) (w : World) :
  ZooStorage._deserialize_staff (ZooStorage._serialize_staff s) w
  = (mkWorld (trace w) (Datatypes.S (next_oid w)) (now w),
     inr (Staff.mk (next_oid w) (Staff.name s) (Staff.staff_id s) (Staff.hire_date s)
            (Staff.cls s))).
Proof.
  unfold ZooStorage._deserialize_staff, ZooStorage._serialize_staff, bind.
  destruct s as [o name staff_id hire_date []]; cbn;
    rewrite date_iso_roundtrip; reflexivity.
Qed.

Lemma deserialize_animal_serialized (a : Animal.t) (w : World) :
  ∃ a',
    ZooStorage._deserialize_animal (ZooStorage._serialize_animal a) w
    = (mkWorld (trace w) (Datatypes.S (next_oid w)) (now w), inr a') ∧
    Animal.oid a' = next_oid w ∧ Animal.name a' = Animal.name a.
Proof.
  unfold ZooStorage._deserialize_animal, ZooStorage._serialize_animal, bind.
  destruct a as [o name age species [wing_span can_fly | is_domestic fur_type | is_venomous]];
    cbn; eexists; (split; [reflexivity | split; reflexivity]).
Qed.

Lemma deserialize_event_serialized (e : ZooEvent.t) (zoo : Zoo.t) (w : World) :
  ZooEvent.cls e ≠ ZooEvent.Base →
  duration_exact e →
  ∃ e',
    ZooStorage._deserialize_event (ZooStorage._serialize_event e) zoo w = (w, inr e') ∧
    ZooEvent.start_time e' = ZooEvent.start_time e ∧
    ZooEvent.duration e' = ZooEvent.duration e.
Proof.
  intros Hcls Hd. apply duration_exact_in_range in Hd.
  unfold ZooStorage._deserialize_event, ZooStorage._serialize_event.
  destruct e as [cls etype name description start_time duration location staff animals].
  simpl in Hcls, Hd.
  destruct cls as [| food_type | | tour]; [congruence | | |];
    unfold bind; cbn -[filter_m round_half_even total_seconds new_timedelta];
    rewrite datetime_iso_roundtrip;
    cbn -[filter_m round_half_even total_seconds new_timedelta];
    rewrite timedelta_roundtrip, (new_timedelta_in_range duration _ Hd);
    cbn -[filter_m];
    erewrite filter_m_run by (intros; reflexivity);
    try erewrite filter_m_run by (intros; reflexivity);
    eexists; (split; [reflexivity | split; reflexivity]).
Qed.

Lemma load_staff_serialized (l : list Staff.t) (z : Zoo.t) (w : World) :
  loading_inv (z, w) →
  ∃ z' w',
    load_staff (map ZooStorage._serialize_staff l) (z, w) = ((z', w'), inr tt) ∧
    loading_inv (z', w') ∧
    length (Zoo.staff z') = (length (Zoo.staff z) + length l)%nat ∧
    Zoo.animals z' = Zoo.animals z ∧ Zoo.events z' = Zoo.events z.
Proof.
  unfold load_staff. revert z w.
  induction l as [| s rest IH]; intros z w Hinv; simpl.
  - exists z, w. split; [reflexivity |]. split; [exact Hinv |].
    split; [lia | split; reflexivity].
  - destruct Hinv as ((feeding & medical & Hf & Hm & Hpf & Hpm) & Hstaff & Hanimals).
    simpl in *.
    set (s' := Staff.mk (next_oid w) (Staff.name s) (Staff.staff_id s)
                 (Staff.hire_date s) (Staff.cls s)).
    set (w1 := mkWorld (trace w) (Datatypes.S (next_oid w)) (now w)).
    destruct (add_staff_absent_run s' z w1) as (msg & Hadd).
    { apply fresh_staff_absent. exact Hstaff. }
    destruct (IH (Zoo.mk (Zoo.name z) (Zoo.animals z) (Zoo.staff z ++ [s']) (Zoo.events z)
                    (Zoo._event_subscriptions z)) (emit_all [Log INFO msg] w1))
      as (z' & w' & Hrest & Hinv' & Hlen & Han & Hev).
    { split; [exists feeding, medical; simpl; auto |]. simpl. split.
      - apply Forall_app. split.
        + eapply List.Forall_impl; [| exact Hstaff]. simpl. intros x Hx. lia.
        + constructor; [simpl; lia | constructor].
      - eapply List.Forall_impl; [| exact Hanimals]. simpl. intros x Hx. lia. }
    exists z', w'. simpl in *.
    split; [| split; [exact Hinv' | split; [| split; assumption]]].
    + unfold bind at 1. unfold bind at 1. unfold Zoo.lift_w. cbn [fst snd].
      rewrite deserialize_staff_serialized. fold s' w1. rewrite Hadd. exact Hrest.
    + rewrite Hlen, length_app. simpl. lia.
Qed.

Lemma load_animals_serialized (l : list Animal.t) (z : Zoo.t) (w : World) :
  loading_inv (z, w) →
  ∃ z' w' loaded,
    load_animals (map ZooStorage._serialize_animal l) (z, w) = ((z', w'), inr tt) ∧
    loading_inv (z', w') ∧
    Zoo.animals z' = Zoo.animals z ++ loaded ∧
    map Animal.name loaded = map Animal.name l ∧
    Zoo.staff z' = Zoo.staff z ∧ Zoo.events z' = Zoo.events z.
Proof.
  unfold load_animals. revert z w.
  induction l as [| a rest IH]; intros z w Hinv; simpl.
  - exists z, w, []. rewrite app_nil_r. split; [reflexivity |]. split; [exact Hinv |].
    repeat split.
  - destruct Hinv as ((feeding & medical & Hf & Hm & Hpf & Hpm) & Hstaff & Hanimals).
    simpl in *.
    destruct (deserialize_animal_serialized a w) as (a' & Hde & Hoid & Hname).
    set (w1 := mkWorld (trace w) (Datatypes.S (next_oid w)) (now w)) in *.
    assert (Habsent : Animal.is_in a' (Zoo.animals z) = false).
    { apply fresh_animal_absent. rewrite Hoid. exact Hanimals. }
    destruct (add_animal_absent_run a' feeding medical z w1 Hf Hm Habsent) as (msg & Hadd).
    destruct (IH (Zoo.mk (Zoo.name z) (Zoo.animals z ++ [a']) (Zoo.staff z) (Zoo.events z)
                    (<["medical_check" := set_add a' medical]>
                       (<["feeding" := set_add a' feeding]> (Zoo._event_subscriptions z))))
                (emit_all [Log INFO msg] w1))
      as (z' & w' & loaded & Hrest & Hinv' & Han & Hnames & Hst & Hev).
    { split; [| split]; simpl.
      - exists (set_add a' feeding), (set_add a' medical). simpl.
        split; [rewrite lookup_insert_ne by discriminate; apply lookup_insert_eq |].
        split; [apply lookup_insert_eq |].
        split; apply set_add_mirror; assumption.
      - eapply List.Forall_impl; [| exact Hstaff]. simpl. intros x Hx. lia.
      - apply Forall_app. split.
        + eapply List.Forall_impl; [| exact Hanimals]. simpl. intros x Hx. lia.
        + constructor; [lia | constructor]. }
    exists z', w', (a' :: loaded). simpl in *.
    split; [| split; [exact Hinv' | split; [| split; [| split; assumption]]]].
    + unfold bind at 1. unfold bind at 1. unfold Zoo.lift_w. cbn [fst snd].
      rewrite Hde, Hadd. exact Hrest.
    + rewrite Han, <- app_assoc. reflexivity.
    + rewrite Hname, Hnames. reflexivity.
Qed.

Lemma load_events_serialized (l : list ZooEvent.t) (z : Zoo.t) (w : World) :
  Forall (λ e, ZooEvent.cls e ≠ ZooEvent.Base ∧ duration_exact e ∧ end_in_range e) l →
  Forall end_in_range (Zoo.events z) →
  ∃ z' w',
    load_events (map ZooStorage._serialize_event l) (z, w) = ((z', w'), inr tt) ∧
    length (Zoo.events z') = (length (Zoo.events z) + length l)%nat ∧
    Zoo.animals z' = Zoo.animals z ∧ Zoo.staff z' = Zoo.staff z.
Proof.
  unfold load_events. intros Hl. revert z w.
  induction Hl as [| e rest (He & Hd & Hr) _ IH]; intros z w Hz; simpl.
  - exists z, w. repeat split. lia.
  - destruct (deserialize_event_serialized e z w He Hd) as (e' & Hde & Hstart & Hdur).
    assert (Hr' : end_in_range e').
    { unfold end_in_range. rewrite Hstart, Hdur. exact Hr. }
    destruct (schedule_event_run e' z w Hr' Hz) as (es & Hsched).
    destruct (IH (Zoo.mk (Zoo.name z) (Zoo.animals z) (Zoo.staff z) (Zoo.events z ++ [e'])
                    (Zoo._event_subscriptions z)) (emit_all es w))
      as (z' & w' & Hrest & Hlen & Han & Hst).
    { simpl. apply Forall_app. split; [exact Hz | constructor; [exact Hr' | constructor]]. }
    exists z', w'. simpl in *. split; [| split; [| split; assumption]].
    + unfold bind at 1. unfold load_event, try_except, bind, Zoo.self, Zoo.lift_w.
      cbn [fst snd]. rewrite Hde, Hsched. exact Hrest.
    + rewrite Hlen, length_app. simpl. lia.
Qed.

Lemma storage_load_saved (path : string) (z : Zoo.t) (clock : Z) (w : World) :
  ZooStorage.load path (Some (ZooStorage.save_data z clock)) "json" w
  = (w, inr (ZooStorage.save_data z clock)).
Proof. reflexivity. Qed.

Lemma load_body_saved (path : string) (z : Zoo.t) (clock : Z) (st : Zoo.St) :
  load_body path (ZooStorage.save_data z clock) st
  = (load_staff (map ZooStorage._serialize_staff (Zoo.staff z)) ;;
     load_animals (map ZooStorage._serialize_animal (Zoo.animals z)) ;;
     load_events (map ZooStorage._serialize_event (Zoo.events z)) ;;
     Zoo.logger INFO ("Данные зоопарка загружены из " +:+ path)) st.
Proof. reflexivity. Qed.

(** Save-then-load preserves the number of animals, of staff and of events
    and the animal names, position by position, for every zoo whose events
    all belong to one of the three subclasses, last less than 2^33 seconds
    and end within the range of [datetime]. *)
Lemma save_load_roundtrip (z : Zoo.t) (clock : Z) (path : string) (w : World) :
  Forall (λ e, ZooEvent.cls e ≠ ZooEvent.Base ∧ duration_exact e ∧ end_in_range e)
    (Zoo.events z) →
  ∃ w' loaded,
    Zoo_load path (Some (ZooStorage.save_data z clock)) "json" w = (w', inr loaded) ∧
    length (Zoo.animals loaded) = length (Zoo.animals z) ∧
    map Animal.name (Zoo.animals loaded) = map Animal.name (Zoo.animals z) ∧
    length (Zoo.staff loaded) = length (Zoo.staff z) ∧
    length (Zoo.events loaded) = length (Zoo.events z).
Proof.
  intros Hevents.
  destruct (load_staff_serialized (Zoo.staff z) (Zoo.init "Загруженный зоопарк") w)
    as (z1 & w1 & Hrun1 & Hinv1 & Hlen1 & Han1 & Hev1).
  { split; [apply init_subscribed_all | split; constructor]. }
  destruct (load_animals_serialized (Zoo.animals z) z1 w1 Hinv1)
    as (z2 & w2 & loaded & Hrun2 & Hinv2 & Han2 & Hnames2 & Hst2 & Hev2).
  destruct (load_events_serialized (Zoo.events z) z2 w2 Hevents)
    as (z3 & w3 & Hrun3 & Hlen3 & Han3 & Hst3).
  { rewrite Hev2, Hev1. constructor. }
  eexists _, z3. split.
  - unfold Zoo_load, bind.
    rewrite storage_load_saved, load_body_saved.
    unfold bind. rewrite Hrun1, Hrun2, Hrun3, logger_run. reflexivity.
  - simpl in *. rewrite Han3, Han2, Han1. simpl.
    repeat split.
    + rewrite <- (length_map Animal.name loaded), Hnames2. apply length_map.
    + exact Hnames2.
    + rewrite Hst3, Hst2, Hlen1. reflexivity.
    + rewrite Hlen3, Hev2, Hev1. reflexivity.
Qed.

End RoundTrip.

(** The sample runtime obeys the codec laws, so the round-trip lemma applies
    to it. *)
Lemma parse_print_Z (z : Z) : parse_Z (print_Z z) = Some z.
Proof.
  unfold parse_Z, print_Z. rewrite DecimalString.NilZero.isi.
  - simpl. rewrite DecimalZ.of_to. reflexivity.
  - destruct z; simpl; try discriminate.
    intros Heq. injection Heq as Heq. exact (DecimalPos.Unsigned.to_uint_nonnil _ Heq).
  - destruct z; simpl; try discriminate.
    intros Heq. injection Heq as Heq. exact (DecimalPos.Unsigned.to_uint_nonnil _ Heq).
Qed.

Lemma sample_runtime_laws : PyRuntimeLaws sample_runtime.
Proof. split; intros t; apply parse_print_Z. Qed.

Lemma save_load_roundtrip_sample :
  ∃ w' loaded,
    Zoo_load (H := sample_runtime) "zoo.json"
      (Some (ZooStorage.save_data (H := sample_runtime) sample_zoo_events 0)) "json"
      sample_world = (w', inr loaded) ∧
    length (Zoo.animals loaded) = 1%nat ∧
    map Animal.name (Zoo.animals loaded) = ["Kesha"] ∧
    length (Zoo.staff loaded) = 1%nat ∧
    length (Zoo.events loaded) = 2%nat.
Proof.
  apply (save_load_roundtrip (R := sample_runtime) (laws := sample_runtime_laws)
           sample_zoo_events 0 "zoo.json" sample_world).
  repeat constructor; try discriminate; vm_compute; first [reflexivity | discriminate].
Qed.

(** * Further properties of the code *)

(** ** [Zoo.add_staff] *)

Lemma add_staff_present_run (person : Staff.t) (z : Zoo.t) (w : World) :
  Staff.is_in person (Zoo.staff z) = true →
  Zoo.add_staff person (z, w)
  = ((z, emit_all [Log WARNING ("Сотрудник " +:+ Staff.name person
                                +:+ " уже работает в зоопарке")] w), inr tt).
Proof.
  intros Hpresent. unfold Zoo.add_staff, bind, Zoo.self. cbn [fst snd].
  rewrite Hpresent. reflexivity.
Qed.

Lemma staff_is_in_app_self (s : Staff.t) (l : list Staff.t) :
  Staff.is_in s (l ++ [s]) = true.
Proof.
  unfold Staff.is_in. rewrite existsb_app. simpl.
  rewrite Nat.eqb_refl. apply orb_true_iff. right. reflexivity.
Qed.

(** X1: [add_staff] does not raise and touches nothing but the staff list.
    A member already on the list leaves the zoo alone and logs one warning;
    an absent member is appended and one INFO record is logged.  A second
    call with the same object leaves the zoo as the first call left it and
    logs the warning, so calling it twice adds the member once. *)
Theorem X1_add_staff_idempotent (person : Staff.t) (z : Zoo.t) (w : World) :
  ∃ (z1 : Zoo.t) (w1 : World),
    Zoo.add_staff person (z, w) = ((z1, w1), inr tt) ∧
    (z1, w1)
    = (if Staff.is_in person (Zoo.staff z) then
         (z, emit_all [Log WARNING ("Сотрудник " +:+ Staff.name person
                                    +:+ " уже работает в зоопарке")] w)
       else
         (Zoo.mk (Zoo.name z) (Zoo.animals z) (Zoo.staff z ++ [person]) (Zoo.events z)
            (Zoo._event_subscriptions z),
          emit_all [Log INFO ("Добавлен сотрудник: " +:+ Staff.name person
                              +:+ " (" +:+ Staff.class_name person +:+ ")")] w)) ∧
    Zoo.add_staff person (z1, w1)
    = ((z1, emit_all [Log WARNING ("Сотрудник " +:+ Staff.name person
                                   +:+ " уже работает в зоопарке")] w1), inr tt).
Proof.
  destruct (Staff.is_in person (Zoo.staff z)) eqn:Hin.
  - eexists _, _. split; [apply (add_staff_present_run person z w Hin) |].
    split; [reflexivity |]. apply add_staff_present_run. exact Hin.
  - eexists _, _. split.
    + unfold Zoo.add_staff, bind, Zoo.self. cbn [fst snd]. rewrite Hin.
      unfold Zoo.update, modify. cbn [fst snd]. apply logger_run.
    + split; [reflexivity |]. apply add_staff_present_run.
      simpl. apply staff_is_in_app_self.
Qed.

(** ** The query helpers *)

Lemma filter_all {A} (p : A → bool) (l : list A) :
  (∀ x, p x = true) → List.filter p l = l.
Proof.
  intros Hp. induction l as [| x rest IH]; simpl; [reflexivity |].
  rewrite Hp, IH. reflexivity.
Qed.

Lemma filter_split_length {A} (p q r : A → bool) (l : list A) :
  (∀ x, In x l →
        (p x = true ∧ q x = false ∧ r x = false) ∨
        (p x = false ∧ q x = true ∧ r x = false) ∨
        (p x = false ∧ q x = false ∧ r x = true)) →
  (length (List.filter p l) + length (List.filter q l) + length (List.filter r l))%nat
  = length l.
Proof.
  induction l as [| x rest IH]; intros Hcases; [reflexivity |].
  assert (Hrest : ∀ y, In y rest →
             (p y = true ∧ q y = false ∧ r y = false) ∨
             (p y = false ∧ q y = true ∧ r y = false) ∨
             (p y = false ∧ q y = false ∧ r y = true)).
  { intros y Hy. apply Hcases. right. exact Hy. }
  specialize (IH Hrest).
  destruct (Hcases x (or_introl eq_refl)) as [(Hp & Hq & Hr) | [(Hp & Hq & Hr) | (Hp & Hq & Hr)]];
    simpl; rewrite Hp, Hq, Hr; simpl; lia.
Qed.

(** What a comprehension [[x for x in l if p x]] returns: a subsequence of
    [l], made of the elements that pass the test, each as often as it is in
    [l]; what it leaves out fails the test. *)
Lemma filter_exact {A} (p : A → bool) (l : list A) :
  sublist (List.filter p l) l ∧
  (∀ x, In x (List.filter p l) ↔ In x l ∧ p x = true) ∧
  ∃ others, l ≡ₚ List.filter p l ++ others ∧ Forall (λ x, p x = false) others.
Proof.
  split; [| split].
  - induction l as [| x rest IH]; simpl; [constructor |].
    destruct (p x); [apply sublist_skip | apply sublist_cons]; exact IH.
  - intros x. apply filter_In.
  - induction l as [| x rest (others & Hperm & Hout)]; simpl.
    + exists []. split; [reflexivity | constructor].
    + destruct (p x) eqn:Hp.
      * exists others. split; [| exact Hout]. simpl. constructor. exact Hperm.
      * exists (x :: others). split; [| constructor; assumption].
        rewrite Hperm at 1. apply Permutation_middle.
Qed.

(** X2: [get_animals_by_type] returns the animals of the zoo that are
    instances of the class asked for, all of them, each as often as it is in
    the registry, and in registry order; asked for [Animal] it returns the
    whole list; the three concrete classes split the list, so their result
    sizes add up to the number of animals. *)
Theorem X2_get_animals_by_type (z : Zoo.t) (animal_type : animal_type) :
  sublist (Zoo_get_animals_by_type z animal_type) (Zoo.animals z) ∧
  (∀ a, In a (Zoo_get_animals_by_type z animal_type)
        ↔ In a (Zoo.animals z) ∧ isinstance_animal a animal_type = true) ∧
  (∃ others,
     Zoo.animals z ≡ₚ Zoo_get_animals_by_type z animal_type ++ others ∧
     Forall (λ a, isinstance_animal a animal_type = false) others) ∧
  Zoo_get_animals_by_type z AnimalType = Zoo.animals z ∧
  (length (Zoo_get_animals_by_type z BirdType)
   + length (Zoo_get_animals_by_type z MammalType)
   + length (Zoo_get_animals_by_type z ReptileType))%nat
  = length (Zoo.animals z).
Proof.
  unfold Zoo_get_animals_by_type.
  destruct (filter_exact (λ a, isinstance_animal a animal_type) (Zoo.animals z))
    as (Horder & Hexact & Hothers).
  split; [exact Horder |]. split; [exact Hexact |]. split; [exact Hothers |]. split.
  - apply filter_all. reflexivity.
  - apply filter_split_length. intros a _. unfold isinstance_animal.
    destruct (Animal.cls a); auto.
Qed.

(** X3: [get_staff_by_type] returns the staff of the zoo that are instances
    of the class asked for, all of them, each as often as it is in the
    registry, and in registry order; asked for [Staff] it returns the whole
    list; the three roles split the list. *)
Theorem X3_get_staff_by_type (z : Zoo.t) (staff_type : staff_type) :
  sublist (Zoo_get_staff_by_type z staff_type) (Zoo.staff z) ∧
  (∀ s, In s (Zoo_get_staff_by_type z staff_type)
        ↔ In s (Zoo.staff z) ∧ isinstance_staff s staff_type = true) ∧
  (∃ others,
     Zoo.staff z ≡ₚ Zoo_get_staff_by_type z staff_type ++ others ∧
     Forall (λ s, isinstance_staff s staff_type = false) others) ∧
  Zoo_get_staff_by_type z StaffType = Zoo.staff z ∧
  (length (Zoo_get_staff_by_type z ZooKeeperType)
   + length (Zoo_get_staff_by_type z VeterinarianType)
   + length (Zoo_get_staff_by_type z GuideType))%nat
  = length (Zoo.staff z).
Proof.
  unfold Zoo_get_staff_by_type.
  destruct (filter_exact (λ s, isinstance_staff s staff_type) (Zoo.staff z))
    as (Horder & Hexact & Hothers).
  split; [exact Horder |]. split; [exact Hexact |]. split; [exact Hothers |]. split.
  - apply filter_all. reflexivity.
  - apply filter_split_length. intros s _. unfold isinstance_staff.
    destruct (Staff.cls s); auto.
Qed.

(** ** The observer list of an event *)

Lemma observer_is_in_In (o : nat) (l : list nat) :
  Observers.is_in o l = true ↔ In o l.
Proof.
  unfold Observers.is_in. rewrite existsb_exists. split.
  - intros (x & Hx & Heq). apply Nat.eqb_eq in Heq. subst x. exact Hx.
  - intros Hin. exists o. split; [exact Hin | apply Nat.eqb_refl].
Qed.

Lemma list_remove_In (o x : nat) (l : list nat) :
  In x (Observers.list_remove o l) → In x l.
Proof.
  induction l as [| y rest IH]; simpl; [tauto |].
  destruct (Nat.eqb o y); simpl; tauto.
Qed.

Lemma list_remove_NoDup (o : nat) (l : list nat) :
  NoDup l → NoDup (Observers.list_remove o l) ∧ ¬ In o (Observers.list_remove o l).
Proof.
  induction 1 as [| y rest Hy Hnd IH]; simpl.
  - split; [constructor | tauto].
  - destruct (Nat.eqb_spec o y) as [-> | Hne].
    + split; [exact Hnd |]. intros Hin. apply Hy. apply list_elem_of_In. exact Hin.
    + destruct IH as [IH1 IH2]. split.
      * constructor; [| exact IH1]. intros Hin. apply Hy.
        apply list_elem_of_In. apply list_elem_of_In in Hin.
        apply (list_remove_In o y rest Hin).
      * simpl. intros [Heq | Hin]; [congruence | exact (IH2 Hin)].
Qed.

Lemma list_remove_last (o : nat) (l : list nat) :
  ¬ In o l → Observers.list_remove o (l ++ [o]) = l.
Proof.
  induction l as [| y rest IH]; simpl; intros Hnot.
  - rewrite Nat.eqb_refl. reflexivity.
  - destruct (Nat.eqb_spec o y) as [-> | Hne]; [tauto |].
    rewrite IH by tauto. reflexivity.
Qed.

(** X4: on an observer list without repetitions, [add_observer] and
    [remove_observer] keep the list free of repetitions; after
    [add_observer] the observer is registered, after [remove_observer] it is
    not; adding twice is the same as adding once; and removing an observer
    that was just added to a list that did not hold it gives that list back. *)
Theorem X4_observer_registration (o : nat) (observers : list nat) :
  NoDup observers →
  NoDup (Observers.add_observer o observers) ∧
  In o (Observers.add_observer o observers) ∧
  Observers.add_observer o (Observers.add_observer o observers)
  = Observers.add_observer o observers ∧
  NoDup (Observers.remove_observer o observers) ∧
  ¬ In o (Observers.remove_observer o observers) ∧
  (¬ In o observers →
   Observers.remove_observer o (Observers.add_observer o observers) = observers).
Proof.
  intros Hnd.
  assert (Hadd_in : In o (Observers.add_observer o observers)).
  { unfold Observers.add_observer.
    destruct (Observers.is_in o observers) eqn:Hin.
    - apply observer_is_in_In. exact Hin.
    - apply in_or_app. right. left. reflexivity. }
  split; [| split; [exact Hadd_in | split; [| split; [| split]]]].
  - unfold Observers.add_observer.
    destruct (Observers.is_in o observers) eqn:Hin; [exact Hnd |].
    apply NoDup_app. split; [exact Hnd |]. split.
    + intros x Hx Hx'. apply list_elem_of_In in Hx, Hx'.
      destruct Hx' as [<- | []].
      apply observer_is_in_In in Hx. congruence.
    + apply NoDup_singleton.
  - unfold Observers.add_observer at 1.
    apply observer_is_in_In in Hadd_in. rewrite Hadd_in. reflexivity.
  - unfold Observers.remove_observer.
    destruct (Observers.is_in o observers); [| exact Hnd].
    apply list_remove_NoDup. exact Hnd.
  - unfold Observers.remove_observer.
    destruct (Observers.is_in o observers) eqn:Hin.
    + apply list_remove_NoDup. exact Hnd.
    + intros Hin'. apply observer_is_in_In in Hin'. congruence.
  - intros Hnot. unfold Observers.remove_observer.
    apply observer_is_in_In in Hadd_in. rewrite Hadd_in.
    unfold Observers.add_observer.
    destruct (Observers.is_in o observers) eqn:Hin.
    + apply observer_is_in_In in Hin. tauto.
    + apply list_remove_last. exact Hnot.
Qed.

Lemma X4_observer_registration_witness :
  Observers.remove_observer 5 (Observers.add_observer 5 sample_observers) = sample_observers ∧
  ¬ In 7%nat (Observers.remove_observer 7 sample_observers).
Proof.
  split.
  - apply (X4_observer_registration 5 sample_observers).
    + repeat constructor; simpl; intros Hin; apply list_elem_of_In in Hin;
        simpl in Hin; intuition discriminate.
    + simpl. intuition discriminate.
  - apply (X4_observer_registration 7 sample_observers).
    repeat constructor; simpl; intros Hin; apply list_elem_of_In in Hin;
      simpl in Hin; intuition discriminate.
Defined.

(** ** [TourEvent.add_visitors], any arguments *)

(** X5: [add_visitors(count)] returns true exactly when
    [visitor_count + count <= max_visitors], for negative counts too; a call
    that returns true adds [count], one that returns false changes nothing;
    so after any sequence of calls the count is the initial count plus the
    sum of the admitted arguments, and [max_visitors] is never changed. *)
Theorem X5_add_visitors_admitted (counts : list Z) (count : Z) (self : TourEvent.t) :
  (snd (TourEvent.add_visitors count self) = true ↔
   TourEvent.visitor_count self + count <= TourEvent.max_visitors self) ∧
  TourEvent.visitor_count (fst (TourEvent.add_visitors count self))
  = TourEvent.visitor_count self
    + (if snd (TourEvent.add_visitors count self) then count else 0) ∧
  TourEvent.visitor_count (TourEvent.add_visitors_seq counts self)
  = TourEvent.visitor_count self + admitted counts self ∧
  TourEvent.max_visitors (TourEvent.add_visitors_seq counts self)
  = TourEvent.max_visitors self.
Proof.
  assert (Hstep : ∀ c s,
            TourEvent.visitor_count (fst (TourEvent.add_visitors c s))
            = TourEvent.visitor_count s
              + (if snd (TourEvent.add_visitors c s) then c else 0)).
  { intros c s. unfold TourEvent.add_visitors.
    destruct (_ <=? _); simpl; lia. }
  split; [| split; [apply Hstep | split]].
  - unfold TourEvent.add_visitors.
    destruct (Z.leb_spec (TourEvent.visitor_count self + count)
                (TourEvent.max_visitors self)); simpl; split; intros; try lia; try congruence.
  - revert self. induction counts as [| c rest IH]; intros self.
    + simpl. lia.
    + change (TourEvent.add_visitors_seq (c :: rest) self)
        with (TourEvent.add_visitors_seq rest (fst (TourEvent.add_visitors c self))).
      rewrite IH, Hstep. simpl. lia.
  - revert self. induction counts as [| c rest IH]; intros self; [reflexivity |].
    change (TourEvent.add_visitors_seq (c :: rest) self)
      with (TourEvent.add_visitors_seq rest (fst (TourEvent.add_visitors c self))).
    rewrite IH. apply add_visitors_max.
Qed.

(** ** The tally of [daily_report] *)

Lemma tally_incr_get (k k' : string) (d : list (string * nat)) :
  tally_get k' (tally_incr k d)
  = ((if String.eqb k k' then 1 else 0) + tally_get k' d)%nat.
Proof.
  unfold tally_get. induction d as [| [k0 n] rest IH]; simpl.
  - destruct (String.eqb k k'); reflexivity.
  - destruct (String.eqb_spec k0 k) as [-> | Hne]; simpl.
    + destruct (String.eqb k k'); simpl; lia.
    + destruct (String.eqb_spec k0 k') as [-> | Hne'].
      * destruct (String.eqb_spec k k') as [-> | _]; [congruence | reflexivity].
      * exact IH.
Qed.

Lemma tally_incr_keys (k : string) (d : list (string * nat)) :
  NoDup (map fst d) →
  NoDup (map fst (tally_incr k d)) ∧
  ∀ k', In k' (map fst (tally_incr k d)) → k' = k ∨ In k' (map fst d).
Proof.
  induction d as [| [k0 n] rest IH]; simpl; intros Hnd.
  - split; [apply NoDup_singleton |]. intros k' [<- | []]. left. reflexivity.
  - apply NoDup_cons in Hnd as [Hk0 Hrest]. destruct (IH Hrest) as [IH1 IH2].
    destruct (String.eqb_spec k0 k) as [-> | Hne]; simpl.
    + split; [apply NoDup_cons; split; assumption | tauto].
    + split.
      * apply NoDup_cons. split; [| exact IH1].
        intros Hin. apply list_elem_of_In in Hin.
        destruct (IH2 k0 Hin) as [Heq | Hin']; [congruence |].
        apply Hk0. apply list_elem_of_In. exact Hin'.
      * intros k' [Heq | Hin]; [tauto |].
        destruct (IH2 k' Hin); tauto.
Qed.

Lemma tally_incr_positive (k : string) (d : list (string * nat)) :
  Forall (λ kv, (0 < snd kv)%nat) d →
  Forall (λ kv, (0 < snd kv)%nat) (tally_incr k d).
Proof.
  induction 1 as [| [k0 n] rest Hn Hrest IH]; simpl.
  - repeat constructor.
  - simpl in Hn. destruct (String.eqb k0 k).
    + constructor; [simpl; lia | exact Hrest].
    + constructor; [exact Hn | exact IH].
Qed.

Lemma tally_fold (l : list Animal.t) (d : list (string * nat)) :
  NoDup (map fst d) →
  Forall (λ kv, (0 < snd kv)%nat) d →
  let tally := fold_left (λ d a, tally_incr (Animal.class_name a) d) l d in
  NoDup (map fst tally) ∧
  Forall (λ kv, (0 < snd kv)%nat) tally ∧
  ∀ k, tally_get k tally
       = (length (List.filter (λ a, String.eqb (Animal.class_name a) k) l)
          + tally_get k d)%nat.
Proof.
  revert d. induction l as [| a rest IH]; intros d Hnd Hpos; simpl.
  - repeat split; assumption.
  - destruct (IH (tally_incr (Animal.class_name a) d)) as (H1 & H2 & H3).
    + apply tally_incr_keys. exact Hnd.
    + apply tally_incr_positive. exact Hpos.
    + repeat split; try assumption.
      intros k. rewrite H3, tally_incr_get.
      destruct (String.eqb (Animal.class_name a) k); simpl; lia.
Qed.

Section TallyReport.
Context `{PyRuntime}.

(** X6: the summary that closes the daily report has one line per class
    name that occurs among the animals, no class name twice, and the number
    on the line of a class is the number of animals of that class in the
    registry (never zero). *)
Theorem X6_report_tally_exact (today : Z) (z : Zoo.t) (report_date : option Z)
    (class_name : string) :
  (∃ head, Zoo.report_lines today z report_date
           = head ++ map tally_line (animal_tally z)) ∧
  NoDup (map fst (animal_tally z)) ∧
  Forall (λ entry, (0 < snd entry)%nat) (animal_tally z) ∧
  tally_get class_name (animal_tally z)
  = length (List.filter (λ a, String.eqb (Animal.class_name a) class_name) (Zoo.animals z)).
Proof.
  destruct (tally_fold (Zoo.animals z) []) as (Hnd & Hpos & Hget);
    [constructor | constructor |].
  split; [| split; [exact Hnd | split; [exact Hpos |]]].
  - unfold Zoo.report_lines. eexists. rewrite !app_assoc. f_equal.
    unfold animal_tally, tally_line. apply map_ext. intros [k n]. reflexivity.
  - unfold animal_tally. rewrite (Hget class_name). unfold tally_get. simpl. lia.
Qed.

End TallyReport.

(** ** Stability of the order of the day *)

Lemma insert_by_key_filter {A} (key : A → Z) (t : Z) (x : A) (l : list A) :
  List.filter (λ y, key y =? t) (insert_by_key key x l)
  = (if key x =? t then [x] else []) ++ List.filter (λ y, key y =? t) l.
Proof.
  induction l as [| y rest IH]; simpl.
  - destruct (key x =? t); reflexivity.
  - destruct (Z.leb_spec (key x) (key y)) as [Hle | Hgt]; simpl.
    + destruct (key x =? t); reflexivity.
    + rewrite IH. destruct (Z.eqb_spec (key y) t) as [Hy | Hy];
        destruct (Z.eqb_spec (key x) t) as [Hx | Hx]; try reflexivity. lia.
Qed.

Lemma sort_by_key_stable {A} (key : A → Z) (t : Z) (l : list A) :
  List.filter (λ y, key y =? t) (sort_by_key key l) = List.filter (λ y, key y =? t) l.
Proof.
  induction l as [| x rest IH]; simpl; [reflexivity |].
  rewrite insert_by_key_filter, IH. destruct (key x =? t); reflexivity.
Qed.

Section DayOrder.
Context `{PyRuntime}.

(** X7: events of the day that start at the same time are processed by
    [run_day] in the order in which they were scheduled: restricted to one
    start time, the processing order is the order of the event list. *)
Theorem X7_run_day_stable (z : Zoo.t) (w : World) (target_date : Z) :
  ∃ processed : list ZooEvent.t,
    Zoo.run_day (Some target_date) (z, w)
    = ((z, emit_all
             ([Log INFO ("Запуск симуляции дня " +:+ date_isoformat target_date)]
              ++ flat_map (event_block z) processed
              ++ [Log INFO ("Симуляция дня " +:+ date_isoformat target_date +:+ " завершена")])
             w),
       inr tt) ∧
    ∀ t : Z,
      List.filter (λ e, ZooEvent.start_time e =? t) processed
      = List.filter (λ e, ZooEvent.start_time e =? t)
          (List.filter (λ e, date_of (ZooEvent.start_time e) =? target_date) (Zoo.events z)).
Proof.
  exists (sort_by_key ZooEvent.start_time (Zoo.get_events_on_date z target_date)).
  split; [| intros t; apply sort_by_key_stable].
  unfold Zoo.run_day, bind, Zoo.world, Zoo.self. cbn [fst snd].
  rewrite logger_run. cbn [fst snd].
  rewrite for_each_process_event, logger_run, !emit_all_emit_all.
  rewrite <- ?app_assoc. reflexivity.
Qed.

(** X8: the daily report states as the number of scheduled events the number
    of events of the registry that start on the report date, and the
    headline [HH:MM - name] of each of them is a line of the report. *)
Theorem X8_daily_report_lists_events (today : Z) (z : Zoo.t) (report_date : Z)
    (event : ZooEvent.t) :
  In event (Zoo.events z) →
  date_of (ZooEvent.start_time event) = report_date →
  In ("Запланировано событий: "
      +:+ pretty (length (Zoo.get_events_on_date z report_date)))
     (Zoo.report_lines today z (Some report_date)) ∧
  In (event_headline event) (Zoo.report_lines today z (Some report_date)) ∧
  Zoo.daily_report today z (Some report_date)
  = join nl (Zoo.report_lines today z (Some report_date)).
Proof.
  intros Hin Hdate. unfold Zoo.report_lines.
  fold (Zoo.get_events_on_date z report_date).
  set (daily := sort_by_key ZooEvent.start_time (Zoo.get_events_on_date z report_date)).
  assert (Hperm : Permutation daily (Zoo.get_events_on_date z report_date))
    by apply sort_by_key_perm.
  assert (Hdaily : In event daily).
  { apply list_elem_of_In. rewrite Hperm. apply list_elem_of_In.
    unfold Zoo.get_events_on_date. apply filter_In. split; [exact Hin |].
    apply Z.eqb_eq. exact Hdate. }
  split; [| split; [| reflexivity]].
  - rewrite (Permutation_length Hperm). simpl. tauto.
  - apply in_or_app. right. apply in_or_app. left.
    assert (Hlisted : In (event_headline event) (concat (map Zoo.report_event daily))).
    { clear Hperm. induction daily as [| e1 more IH]; [destruct Hdaily |].
      change (In (event_headline event)
                (Zoo.report_event e1 ++ concat (map Zoo.report_event more))).
      apply in_or_app. destruct Hdaily as [-> | Hmore].
      - left. left. reflexivity.
      - right. apply IH. exact Hmore. }
    destruct daily; [destruct Hdaily | exact Hlisted].
Qed.

End DayOrder.

Lemma X8_daily_report_lists_events_witness :
  In (event_headline sample_feeding)
    (Zoo.report_lines (H := sample_runtime) 0 sample_zoo_events (Some 3)).
Proof.
  apply (X8_daily_report_lists_events (H := sample_runtime) 0 sample_zoo_events 3
           sample_feeding).
  - right. left. reflexivity.
  - reflexivity.
Defined.

(** ** Records of the persisted document *)

Lemma bind_inr {S A B} (m : M S A) (k : A → M S B) (s s' : S) (b : B) :
  bind m k s = (s', inr b) →
  ∃ s1 a, m s = (s1, inr a) ∧ k a s1 = (s', inr b).
Proof.
  unfold bind. destruct (m s) as [s1 [e | a]]; [discriminate |].
  intros Hk. exists s1, a. split; [reflexivity | exact Hk].
Qed.

Lemma filter_m_incl {S A} (p : A → M S bool) (l : list A) (s s' : S) (kept : list A) :
  filter_m p l s = (s', inr kept) → Forall (λ x, In x l) kept.
Proof.
  revert s s' kept. induction l as [| x rest IH]; simpl; intros s s' kept Hrun.
  - injection Hrun as _ <-. constructor.
  - apply bind_inr in Hrun as (s1 & b & _ & Hrun).
    apply bind_inr in Hrun as (s2 & kept' & Hrest & Hrun).
    injection Hrun as _ <-. apply IH in Hrest.
    assert (Hweak : Forall (λ y, x = y ∨ In y rest) kept').
    { eapply List.Forall_impl; [| exact Hrest]. simpl. tauto. }
    destruct b; [constructor; [left; reflexivity | exact Hweak] | exact Hweak].
Qed.

Lemma existsb_int_eq_value (n : Z) (ids : list Z) :
  existsb (int_eq_value n) (map VInt ids) = existsb (Z.eqb n) ids.
Proof. induction ids as [| i rest IH]; simpl; [reflexivity | rewrite IH; reflexivity]. Qed.

Lemma existsb_str_eq_value (s : string) (names : list string) :
  existsb (str_eq_value s) (map VStr names) = existsb (String.eqb s) names.
Proof. induction names as [| n rest IH]; simpl; [reflexivity | rewrite IH; reflexivity]. Qed.

Lemma animal_record_reloaded (a : Animal.t) (w : World) :
  ZooStorage._deserialize_animal (ZooStorage._serialize_animal a) w
  = (mkWorld (trace w) (Datatypes.S (next_oid w)) (now w),
     inr (Animal.mk (next_oid w) (Animal.name a) (Animal.age a) (reloaded_species a)
            (Animal.cls a))).
Proof.
  unfold ZooStorage._deserialize_animal, ZooStorage._serialize_animal, bind, reloaded_species.
  destruct a as [o name age species [wing_span can_fly | is_domestic fur_type | is_venomous]];
    reflexivity.
Qed.


(** X9: an animal record written by [_serialize_animal] is read back by
    [_deserialize_animal] without error as a new object with the same name,
    age, class and class attributes; the species comes back for a [Mammal]
    only, a [Bird] or [Reptile] gets the species its constructor sets. *)
Theorem X9_animal_record_roundtrip (a : Animal.t) (w : World) :
  ZooStorage._deserialize_animal (ZooStorage._serialize_animal a) w
  = (mkWorld (trace w) (Datatypes.S (next_oid w)) (now w),
     inr (Animal.mk (next_oid w) (Animal.name a) (Animal.age a) (reloaded_species a)
            (Animal.cls a))).
Proof. exact (animal_record_reloaded a w). Qed.

Section RecordRoundTrip.
Context `{R : PyRuntime} {laws : PyRuntimeLaws R}.

(** X10: a staff record written by [_serialize_staff] is read back by
    [_deserialize_staff] without error as a new object of the same class
    with the same name, id and hire date (the date of the record, not the
    day of loading). *)
Theorem X10_staff_record_roundtrip (s : Staff.t) (w : World) :
  ZooStorage._deserialize_staff (ZooStorage._serialize_staff s) w
  = (mkWorld (trace w) (Datatypes.S (next_oid w)) (now w),
     inr (Staff.mk (next_oid w) (Staff.name s) (Staff.staff_id s) (Staff.hire_date s)
            (Staff.cls s))).
Proof.
  unfold ZooStorage._deserialize_staff, ZooStorage._serialize_staff, bind.
  destruct s as [o name staff_id hire_date []]; cbn;
    rewrite date_iso_roundtrip; reflexivity.
Qed.

Lemma event_record_reloaded (e : ZooEvent.t) (zoo : Zoo.t) (w : World) :
  ZooEvent.cls e ≠ ZooEvent.Base →
  duration_exact e →
  ∃ e',
    ZooStorage._deserialize_event (ZooStorage._serialize_event e) zoo w = (w, inr e') ∧
    ZooEvent.cls e' = ZooEvent.cls e ∧
    ZooEvent.name e' = ZooEvent.name e ∧
    ZooEvent.start_time e' = ZooEvent.start_time e ∧
    ZooEvent.location e' = ZooEvent.location e ∧
    ZooEvent.description e'
    = ZooEvent.or_default (ZooEvent.description e) (default_description e) ∧
    ZooEvent.staff e' = resolved_staff e zoo ∧
    ZooEvent.animals e'
    = (match ZooEvent.cls e with
       | ZooEvent.TourEvent _ => []
       | _ => resolved_animals e zoo
       end) ∧
    ZooEvent.duration e' = ZooEvent.duration e.
Proof.
  intros Hcls Hd. apply duration_exact_in_range in Hd.
  assert (Hstaff : ∀ x : Staff.t,
            existsb (int_eq_value (Staff.staff_id x))
              (map (λ s, VInt (Staff.staff_id s)) (ZooEvent.staff e))
            = existsb (Z.eqb (Staff.staff_id x)) (map Staff.staff_id (ZooEvent.staff e))).
  { intros x. rewrite <- existsb_int_eq_value, map_map. reflexivity. }
  assert (Hanimals : ∀ x : Animal.t,
            existsb (str_eq_value (Animal.name x))
              (map (λ a, VStr (Animal.name a)) (ZooEvent.animals e))
            = existsb (String.eqb (Animal.name x)) (map Animal.name (ZooEvent.animals e))).
  { intros x. rewrite <- existsb_str_eq_value, map_map. reflexivity. }
  unfold ZooStorage._deserialize_event, ZooStorage._serialize_event,
    resolved_staff, resolved_animals, default_description.
  destruct e as [cls etype name description start_time duration location staff animals].
  simpl in Hcls, Hstaff, Hanimals, Hd.
  destruct cls as [| food_type | | [max_visitors visitor_count]]; [congruence | | |];
    unfold bind; cbn -[filter_m round_half_even total_seconds new_timedelta];
    rewrite datetime_iso_roundtrip;
    cbn -[filter_m round_half_even total_seconds new_timedelta];
    rewrite timedelta_roundtrip, (new_timedelta_in_range duration _ Hd);
    cbn -[filter_m];
    erewrite filter_m_run by (intros; reflexivity);
    try erewrite filter_m_run by (intros; reflexivity);
    eexists; (split; [reflexivity |]); cbn;
    repeat split;
    try (apply List.filter_ext; intros x; first [apply Hstaff | apply Hanimals]).
Qed.

(** X11: the record that [_serialize_event] writes for an event of one of
    the three subclasses that lasts less than 2^33 seconds is read back by
    [_deserialize_event] without error and without effect, as an event of the
    same class with the same name, start time, location, food type or visitor
    numbers; an empty description is replaced by the default of the class;
    staff and animals are looked up in the target zoo by id and by name. *)
Theorem X11_event_record_roundtrip (e : ZooEvent.t) (zoo : Zoo.t) (w : World) :
  ZooEvent.cls e ≠ ZooEvent.Base →
  duration_exact e →
  ∃ e',
    ZooStorage._deserialize_event (ZooStorage._serialize_event e) zoo w = (w, inr e') ∧
    ZooEvent.cls e' = ZooEvent.cls e ∧
    ZooEvent.name e' = ZooEvent.name e ∧
    ZooEvent.start_time e' = ZooEvent.start_time e ∧
    ZooEvent.location e' = ZooEvent.location e ∧
    ZooEvent.description e'
    = ZooEvent.or_default (ZooEvent.description e) (default_description e) ∧
    ZooEvent.staff e' = resolved_staff e zoo ∧
    ZooEvent.animals e'
    = match ZooEvent.cls e with
      | ZooEvent.TourEvent _ => []
      | _ => resolved_animals e zoo
      end.
Proof.
  intros Hcls Hd.
  destruct (event_record_reloaded e zoo w Hcls Hd)
    as (e' & Hrun & Hc & Hn & Hs & Hl & Hdesc & Hst & Han & _).
  exists e'. repeat split; assumption.
Qed.

End RecordRoundTrip.

Lemma X10_staff_record_roundtrip_witness :
  ZooStorage._deserialize_staff (H := sample_runtime)
    (ZooStorage._serialize_staff (H := sample_runtime) sample_keeper) sample_world
  = (mkWorld [] 1 (now sample_world), inr (Staff.mk 0 "Ivan" 1 7 Staff.ZooKeeper)).
Proof.
  apply (X10_staff_record_roundtrip (R := sample_runtime) (laws := sample_runtime_laws)
           sample_keeper sample_world).
Defined.

Lemma X11_event_record_roundtrip_witness :
  ∃ e',
    ZooStorage._deserialize_event (H := sample_runtime)
      (ZooStorage._serialize_event (H := sample_runtime) sample_feeding)
      sample_zoo sample_world = (sample_world, inr e') ∧
    ZooEvent.name e' = "Feed" ∧ ZooEvent.staff e' = [sample_keeper].
Proof.
  destruct (X11_event_record_roundtrip (R := sample_runtime) (laws := sample_runtime_laws)
              sample_feeding sample_zoo sample_world)
    as (e' & Hrun & _ & Hname & _ & _ & _ & Hstaff & _).
  - discriminate.
  - vm_compute. reflexivity.
  - exists e'. split; [exact Hrun |]. split; [exact Hname |].
    rewrite Hstaff. reflexivity.
Defined.

Section EventReferences.
Context `{PyRuntime}.

Ltac bind_inv H :=
  let s := fresh "s" in
  let a := fresh "a" in
  let Ha := fresh "Ha" in
  apply bind_inr in H; destruct H as (s & a & Ha & H).

(** X12: whenever [_deserialize_event] returns an event, for any record
    whatever, it has had no effect; the staff and the animals of the event
    are objects of the target zoo (records never create them); and the class
    of the event is fixed by the type tag: one of the three subclasses for
    its name, the base class for every other tag. *)
Theorem X12_event_references_resolved (data : value) (zoo : Zoo.t) (w w' : World)
    (e' : ZooEvent.t) :
  ZooStorage._deserialize_event data zoo w = (w', inr e') →
  w' = w ∧
  Forall (λ s, In s (Zoo.staff zoo)) (ZooEvent.staff e') ∧
  Forall (λ a, In a (Zoo.animals zoo)) (ZooEvent.animals e') ∧
  ∃ tag, record_type data = Some tag ∧ ZooEvent.class_name e' = class_for_tag tag.
Proof.
  intros Hrun. split.
  { pose proof (stateless_deserialize_event data zoo w) as Hsame.
    rewrite Hrun in Hsame. exact Hsame. }
  unfold ZooStorage._deserialize_event in Hrun.
  apply bind_inr in Hrun as (s1 & tag & Htag & Hrun).
  apply bind_inr in Hrun as (s2 & start_time & _ & Hrun).
  apply bind_inr in Hrun as (s3 & duration & _ & Hrun).
  apply bind_inr in Hrun as (s4 & staff & Hstaff & Hrun).
  apply bind_inr in Hrun as (s5 & animals & Hanimals & Hrun).
  apply filter_m_incl in Hstaff, Hanimals.
  assert (Hrecord : record_type data = Some tag).
  { unfold getitem in Htag. destruct data as [| | | | | | d]; try discriminate.
    simpl. destruct (dict_get "type" d); [| discriminate].
    injection Htag as _ ->. reflexivity. }
  assert (Hevent : Forall (λ s, In s (Zoo.staff zoo)) (ZooEvent.staff e') ∧
                   Forall (λ a, In a (Zoo.animals zoo)) (ZooEvent.animals e') ∧
                   ZooEvent.class_name e' = class_for_tag tag).
  { unfold class_for_tag.
    destruct (str_eq_value "FeedingEvent" tag);
      [| destruct (str_eq_value "MedicalCheckEvent" tag);
         [| destruct (str_eq_value "TourEvent" tag)]];
      repeat bind_inv Hrun;
      injection Hrun as _ <-; simpl;
      (split; [assumption | split; [first [assumption | constructor] | reflexivity]]). }
  destruct Hevent as (Hs & Ha & Hclass).
  split; [exact Hs | split; [exact Ha |]].
  exists tag. split; [exact Hrecord | exact Hclass].
Qed.

End EventReferences.

Lemma X12_event_references_resolved_witness :
  ∃ e',
    ZooStorage._deserialize_event (H := sample_runtime) feeding_record sample_zoo
      sample_world = (sample_world, inr e') ∧
    ZooEvent.staff e' = [sample_keeper] ∧
    ZooEvent.animals e' = [sample_bird] ∧
    Forall (λ s, In s (Zoo.staff sample_zoo)) (ZooEvent.staff e') ∧
    Forall (λ a, In a (Zoo.animals sample_zoo)) (ZooEvent.animals e') ∧
    ZooEvent.class_name e' = "FeedingEvent".
Proof.
  destruct (ZooStorage._deserialize_event (H := sample_runtime) feeding_record sample_zoo
              sample_world) as [w' [e | e']] eqn:Hrun.
  - vm_compute in Hrun. discriminate.
  - destruct (X12_event_references_resolved (H := sample_runtime) feeding_record sample_zoo
                sample_world w' e' Hrun) as (Hw & Hstaff & Hanimals & tag & Htag & Hclass).
    subst w'. exists e'. split; [reflexivity |].
    injection Htag as <-.
    split; [| split; [| split; [exact Hstaff | split; [exact Hanimals | exact Hclass]]]];
      vm_compute in Hrun; injection Hrun as <-; reflexivity.
Defined.

(** ** What every successful load establishes *)

Section Keeps.
Context (I : Zoo.t → Prop).

Lemma keeps_bind {A B} (m : M Zoo.St A) (k : A → M Zoo.St B) :
  keeps I m → (∀ a, keeps I (k a)) → keeps I (bind m k).
Proof.
  intros Hm Hk z w HI. unfold bind. specialize (Hm z w HI).
  destruct (m (z, w)) as [[z1 w1] [e | a]]; simpl in *; [exact Hm |].
  apply Hk. exact Hm.
Qed.

Lemma keeps_stateless {A} (m : M Zoo.St A) : stateless m → keeps I m.
Proof. intros Hm z w HI. rewrite (Hm (z, w)). exact HI. Qed.

Lemma keeps_lift_w {A} (m : M World A) : keeps I (Zoo.lift_w m).
Proof.
  intros z w HI. unfold Zoo.lift_w. simpl. destruct (m w) as [w' r]. exact HI.
Qed.

Lemma keeps_logger (lvl : level) (msg : string) : keeps I (Zoo.logger lvl msg).
Proof. intros z w HI. exact HI. Qed.

Lemma keeps_self : keeps I Zoo.self.
Proof. intros z w HI. exact HI. Qed.

Lemma keeps_update (f : Zoo.t → Zoo.t) : (∀ z, I z → I (f z)) → keeps I (Zoo.update f).
Proof. intros Hf z w HI. apply Hf. exact HI. Qed.

Lemma keeps_try_except {A} (m : M Zoo.St A) (h : exn → M Zoo.St A) :
  keeps I m → (∀ e, keeps I (h e)) → keeps I (try_except m h).
Proof.
  intros Hm Hh z w HI. unfold try_except. specialize (Hm z w HI).
  destruct (m (z, w)) as [[z1 w1] [e | a]]; simpl in *; [| exact Hm].
  apply Hh. exact Hm.
Qed.

Lemma keeps_for_each {A} (l : list A) (body : A → M Zoo.St unit) :
  (∀ x, keeps I (body x)) → keeps I (for_each l body).
Proof.
  intros Hbody. induction l as [| x rest IH]; simpl.
  - apply keeps_stateless, stateless_ret.
  - apply keeps_bind; [apply Hbody | intros _; exact IH].
Qed.

Section Load.
Context `{PyRuntime}.
Hypothesis add_staff_keeps : ∀ s, keeps I (Zoo.add_staff s).
Hypothesis add_animal_keeps : ∀ a, keeps I (Zoo.add_animal a).
Hypothesis schedule_event_keeps : ∀ e, keeps I (Zoo.schedule_event e).

Lemma keeps_read_list (data : value) (k : string) (body : list value → M Zoo.St unit) :
  (∀ l, keeps I (body l)) →
  keeps I (v <- get_default data k (VList []) ;; l <- iter_value v ;; body l).
Proof.
  intros Hbody.
  apply keeps_bind; [apply keeps_stateless, stateless_get_default | intros v].
  apply keeps_bind; [| exact Hbody].
  apply keeps_stateless. intros s. destruct v; reflexivity.
Qed.

Lemma keeps_load_body (path : string) (data : value) : keeps I (load_body path data).
Proof.
  unfold load_body.
  apply keeps_bind; [| intros _; apply keeps_bind; [| intros _; apply keeps_bind]].
  - apply keeps_read_list. intros l. unfold load_staff.
    apply keeps_for_each. intros staff_data.
    apply keeps_bind; [apply keeps_lift_w | exact add_staff_keeps].
  - apply keeps_read_list. intros l. unfold load_animals.
    apply keeps_for_each. intros animal_data.
    apply keeps_bind; [apply keeps_lift_w | exact add_animal_keeps].
  - apply keeps_read_list. intros l. unfold load_events, load_event.
    apply keeps_for_each. intros event_data.
    apply keeps_try_except; [| intros e; apply keeps_logger].
    apply keeps_bind; [apply keeps_self | intros zoo].
    apply keeps_bind; [apply keeps_lift_w | exact schedule_event_keeps].
  - intros _. apply keeps_logger.
Qed.

Lemma Zoo_load_keeps (path : string) (file : option value) (fmt : string) (w w' : World)
    (z : Zoo.t) :
  I (Zoo.init "Загруженный зоопарк") →
  Zoo_load path file fmt w = (w', inr z) → I z.
Proof.
  intros Hinit. unfold Zoo_load. intros Hrun.
  apply bind_inr in Hrun as (w1 & data & _ & Hrun).
  pose proof (keeps_load_body path data (Zoo.init "Загруженный зоопарк") w1 Hinit) as Hkept.
  destruct (load_body path data (Zoo.init "Загруженный зоопарк", w1)) as [[z1 w2] [e | []]];
    [discriminate |].
  injection Hrun as _ <-. exact Hkept.
Qed.

End Load.
End Keeps.

Section LoadedZoo.
Context `{PyRuntime}.

(** [schedule_event] appends the event, or is left by an exception of the
    scan with the zoo as it was. *)
Lemma schedule_event_zoo (event : ZooEvent.t) (z : Zoo.t) (w : World) :
  fst (fst (Zoo.schedule_event event (z, w))) = z ∨
  fst (fst (Zoo.schedule_event event (z, w)))
  = Zoo.mk (Zoo.name z) (Zoo.animals z) (Zoo.staff z) (Zoo.events z ++ [event])
      (Zoo._event_subscriptions z).
Proof.
  unfold Zoo.schedule_event, bind, Zoo.self. cbn [fst snd].
  destruct (scan_overlaps_first (Zoo.events z) event z w)
    as [[_ Hrun]
       | [(before & first & after & end_time & _ & _ & _ & _ & Hrun)
         | (before & first & after & e & _ & _ & _ & Hrun)]]; rewrite Hrun;
    [right | right | left]; reflexivity.
Qed.

Lemma add_staff_zoo (person : Staff.t) (z : Zoo.t) (w : World) :
  fst (fst (Zoo.add_staff person (z, w)))
  = Zoo.mk (Zoo.name z) (Zoo.animals z)
      (if Staff.is_in person (Zoo.staff z) then Zoo.staff z else Zoo.staff z ++ [person])
      (Zoo.events z) (Zoo._event_subscriptions z).
Proof.
  unfold Zoo.add_staff, bind, Zoo.self. cbn [fst snd].
  destruct (Staff.is_in person (Zoo.staff z)); [destruct z |]; reflexivity.
Qed.

Lemma add_animal_name (a : Animal.t) (z : Zoo.t) (w : World) :
  Zoo.name (fst (fst (Zoo.add_animal a (z, w)))) = Zoo.name z.
Proof.
  unfold Zoo.add_animal, bind, Zoo.self. cbn [fst snd].
  destruct (Animal.is_in a (Zoo.animals z)); [reflexivity |].
  unfold Zoo.subscribe, bind, Zoo.self, raise. simpl.
  destruct (Zoo._event_subscriptions z !! "feeding") as [f |]; simpl; [| reflexivity].
  destruct (<["feeding" := set_add a f]> (Zoo._event_subscriptions z) !! "medical_check");
    reflexivity.
Qed.

(** X14: a zoo returned by [Zoo.load] is always named ["Загруженный
    зоопарк"], whatever the document holds: the name of the saved zoo is not
    part of what load restores. *)
Theorem X14_loaded_zoo_name (path : string) (file : option value) (fmt : string)
    (w w' : World) (z : Zoo.t) :
  Zoo_load path file fmt w = (w', inr z) →
  Zoo.name z = "Загруженный зоопарк".
Proof.
  apply (Zoo_load_keeps (λ z, Zoo.name z = "Загруженный зоопарк")); [| | | reflexivity].
  - intros s z0 w0 Hname. rewrite add_staff_zoo. exact Hname.
  - intros a z0 w0 Hname. rewrite add_animal_name. exact Hname.
  - intros e z0 w0 Hname.
    destruct (schedule_event_zoo e z0 w0) as [Heq | Heq]; rewrite Heq; exact Hname.
Qed.

(** X15: in a zoo returned by [Zoo.load], whatever the document holds, the
    animals have pairwise distinct identities, records with equal contents
    included, and each of them is in the feeding and in the medical-check
    subscription set. *)
Theorem X15_loaded_zoo_subscribed (path : string) (file : option value) (fmt : string)
    (w w' : World) (z : Zoo.t) :
  Zoo_load path file fmt w = (w', inr z) →
  NoDup (map Animal.oid (Zoo.animals z)) ∧
  ∃ feeding medical : gmap nat Animal.t,
    Zoo._event_subscriptions z !! "feeding" = Some feeding ∧
    Zoo._event_subscriptions z !! "medical_check" = Some medical ∧
    Forall (λ a, feeding !! Animal.oid a = Some a ∧ medical !! Animal.oid a = Some a)
      (Zoo.animals z).
Proof.
  intros Hrun.
  assert (Hsub : subscribed_all z).
  { revert Hrun. apply (Zoo_load_keeps subscribed_all).
    - intros s z0 w0 Hinv. rewrite add_staff_zoo. exact Hinv.
    - intros a z0 w0 Hinv.
      destruct (add_animal_subscribed_all a z0 w0 Hinv) as (z1 & w1 & Hadd & Hinv1).
      rewrite Hadd. exact Hinv1.
    - intros e z0 w0 Hinv.
      destruct (schedule_event_zoo e z0 w0) as [Heq | Heq]; rewrite Heq; exact Hinv.
    - apply init_subscribed_all. }
  destruct Hsub as (feeding & medical & Hf & Hm & Hpf & Hpm). split.
  - assert (Hkeys : NoDup ((map_to_list feeding).*1)) by apply NoDup_fst_map_to_list.
    rewrite Hpf, <- list_fmap_compose in Hkeys. exact Hkeys.
  - exists feeding, medical. split; [exact Hf | split; [exact Hm |]].
    apply List.Forall_forall. intros a Ha.
    assert (Hpair : (Animal.oid a, a) ∈ (λ a, (Animal.oid a, a)) <$> Zoo.animals z).
    { apply list_elem_of_fmap. exists a. split; [reflexivity |].
      apply list_elem_of_In. exact Ha. }
    split; apply elem_of_map_to_list; [rewrite Hpf | rewrite Hpm]; exact Hpair.
Qed.

End LoadedZoo.

Lemma X14_loaded_zoo_name_witness :
  option_map Zoo.name
    (loaded_zoo (H := sample_runtime) "zoo.json" (Some twins_document) "json" sample_world)
  = Some "Загруженный зоопарк".
Proof.
  unfold loaded_zoo.
  destruct (Zoo_load (H := sample_runtime) "zoo.json" (Some twins_document) "json"
              sample_world) as [w' [e | z]] eqn:Hrun.
  - vm_compute in Hrun. discriminate.
  - simpl. f_equal.
    exact (X14_loaded_zoo_name (H := sample_runtime) _ _ _ _ _ _ Hrun).
Defined.

Lemma X15_loaded_zoo_subscribed_witness :
  match loaded_zoo (H := sample_runtime) "zoo.json" (Some twins_document) "json"
          sample_world with
  | Some z => NoDup (map Animal.oid (Zoo.animals z)) ∧ length (Zoo.animals z) = 2%nat
  | None => False
  end.
Proof.
  unfold loaded_zoo.
  destruct (Zoo_load (H := sample_runtime) "zoo.json" (Some twins_document) "json"
              sample_world) as [w' [e | z]] eqn:Hrun.
  - vm_compute in Hrun. discriminate.
  - simpl. split.
    + exact (proj1 (X15_loaded_zoo_subscribed (H := sample_runtime) _ _ _ _ _ _ Hrun)).
    + vm_compute in Hrun. injection Hrun as _ <-. reflexivity.
Defined.

(** ** Scheduling a batch of events *)

Section Batch.
Context `{PyRuntime}.

Lemma schedule_event_effects (event : ZooEvent.t) (z : Zoo.t) (w : World) :
  end_in_range event →
  Forall end_in_range (Zoo.events z) →
  ∃ es,
    Zoo.schedule_event event (z, w)
    = ((Zoo.mk (Zoo.name z) (Zoo.animals z) (Zoo.staff z) (Zoo.events z ++ [event])
          (Zoo._event_subscriptions z), emit_all es w), inr tt) ∧
    length (List.filter is_info es) = 1%nat ∧ (length es <= 2)%nat.
Proof.
  intros Hevent Hevents.
  unfold Zoo.schedule_event, bind, Zoo.self. cbn [fst snd].
  destruct (scan_overlaps_first (Zoo.events z) event z w)
    as [[_ Hrun]
       | [(before & first & after & end_time & _ & _ & _ & _ & Hrun)
         | (before & first & after & e & Heq & _ & Hfirst & _)]].
  - rewrite Hrun. eexists. unfold Zoo.update, modify. cbn [fst snd]. rewrite logger_run.
    split; [reflexivity |]. simpl. split; lia.
  - rewrite Hrun. eexists. unfold Zoo.update, modify. cbn [fst snd].
    rewrite logger_run, emit_w_emit_all, emit_all_emit_all.
    split; [reflexivity |]. simpl. split; lia.
  - exfalso. rewrite Heq in Hevents.
    apply List.Forall_app in Hevents as [_ Hrest].
    rewrite (_events_overlap_in_range first event (List.Forall_inv Hrest) Hevent) in Hfirst.
    discriminate.
Qed.

(** X16: when the events of the zoo and those of a list all end within the
    range of [datetime], scheduling the list one event after the other does
    not raise and never drops or reorders an event, whatever overlaps there
    are: the event list grows by exactly these events in order, one INFO
    record is logged per event and at most one warning per event; nothing
    else of the zoo changes. *)
Theorem X16_schedule_batch (batch : list ZooEvent.t) (z : Zoo.t) (w : World) :
  Forall end_in_range (Zoo.events z) →
  Forall end_in_range batch →
  ∃ es,
    for_each batch Zoo.schedule_event (z, w)
    = ((Zoo.mk (Zoo.name z) (Zoo.animals z) (Zoo.staff z) (Zoo.events z ++ batch)
          (Zoo._event_subscriptions z), emit_all es w), inr tt) ∧
    length (List.filter is_info es) = length batch ∧
    (length es <= 2 * length batch)%nat.
Proof.
  intros Hz Hbatch. revert z w Hz.
  induction Hbatch as [| event rest Hevent _ IH]; intros z w Hz.
  - exists []. simpl. rewrite emit_all_nil, app_nil_r. destruct z.
    split; [reflexivity | split; reflexivity].
  - destruct (schedule_event_effects event z w Hevent Hz) as (es1 & Hrun1 & Hinfo1 & Hlen1).
    destruct (IH (Zoo.mk (Zoo.name z) (Zoo.animals z) (Zoo.staff z)
                    (Zoo.events z ++ [event]) (Zoo._event_subscriptions z))
                (emit_all es1 w)) as (es2 & Hrun2 & Hinfo2 & Hlen2).
    { simpl. apply Forall_app. split; [exact Hz | constructor; [exact Hevent | constructor]]. }
    exists (es1 ++ es2). split; [| split].
    + cbn [for_each]. unfold bind. rewrite Hrun1, Hrun2. simpl.
      rewrite emit_all_emit_all, <- app_assoc. reflexivity.
    + rewrite List.filter_app, length_app, Hinfo1, Hinfo2. reflexivity.
    + rewrite length_app. simpl length. lia.
Qed.

End Batch.

Lemma X16_schedule_batch_witness :
  ∃ es,
    for_each [sample_feeding; sample_tour] (Zoo.schedule_event (H := sample_runtime))
      (sample_zoo, sample_world)
    = ((Zoo.mk "Z" [sample_bird] [sample_keeper] [sample_feeding; sample_tour]
          Zoo._setup_default_event_subscriptions, emit_all es sample_world), inr tt) ∧
    length (List.filter is_info es) = 2%nat ∧
    (length es <= 4)%nat.
Proof.
  apply (X16_schedule_batch (H := sample_runtime) [sample_feeding; sample_tour]
           sample_zoo sample_world).
  - constructor.
  - repeat constructor; vm_compute; discriminate.
Defined.

(** ** Save, then load: what comes back *)

Section FullRoundTrip.
Context `{R : PyRuntime} {laws : PyRuntimeLaws R}.

Lemma load_staff_reloaded (l : list Staff.t) (z : Zoo.t) (w : World) :
  loading_inv (z, w) →
  ∃ z' w' l',
    load_staff (map ZooStorage._serialize_staff l) (z, w) = ((z', w'), inr tt) ∧
    loading_inv (z', w') ∧
    Zoo.staff z' = Zoo.staff z ++ l' ∧ Forall2 same_staff l l' ∧
    Zoo.animals z' = Zoo.animals z ∧ Zoo.events z' = Zoo.events z.
Proof.
  unfold load_staff. revert z w.
  induction l as [| s rest IH]; intros z w Hinv; simpl.
  - exists z, w, []. rewrite app_nil_r. split; [reflexivity |]. split; [exact Hinv |].
    split; [reflexivity |]. split; [constructor | split; reflexivity].
  - destruct Hinv as ((feeding & medical & Hf & Hm & Hpf & Hpm) & Hstaff & Hanimals).
    simpl in *.
    set (s' := Staff.mk (next_oid w) (Staff.name s) (Staff.staff_id s)
                 (Staff.hire_date s) (Staff.cls s)).
    set (w1 := mkWorld (trace w) (Datatypes.S (next_oid w)) (now w)).
    destruct (add_staff_absent_run s' z w1) as (msg & Hadd).
    { apply fresh_staff_absent. exact Hstaff. }
    destruct (IH (Zoo.mk (Zoo.name z) (Zoo.animals z) (Zoo.staff z ++ [s']) (Zoo.events z)
                    (Zoo._event_subscriptions z)) (emit_all [Log INFO msg] w1))
      as (z' & w' & l' & Hrest & Hinv' & Hst & Hsame & Han & Hev).
    { split; [exists feeding, medical; simpl; auto |]. simpl. split.
      - apply Forall_app. split.
        + eapply List.Forall_impl; [| exact Hstaff]. simpl. intros x Hx. lia.
        + constructor; [simpl; lia | constructor].
      - eapply List.Forall_impl; [| exact Hanimals]. simpl. intros x Hx. lia. }
    exists z', w', (s' :: l'). simpl in *.
    split; [| split; [exact Hinv' | split; [| split; [| split; assumption]]]].
    + unfold bind at 1. unfold bind at 1. unfold Zoo.lift_w. cbn [fst snd].
      rewrite deserialize_staff_serialized. fold s' w1. rewrite Hadd. exact Hrest.
    + rewrite Hst, <- app_assoc. reflexivity.
    + constructor; [repeat split | exact Hsame].
Qed.

Lemma load_animals_reloaded (l : list Animal.t) (z : Zoo.t) (w : World) :
  loading_inv (z, w) →
  ∃ z' w' l',
    load_animals (map ZooStorage._serialize_animal l) (z, w) = ((z', w'), inr tt) ∧
    loading_inv (z', w') ∧
    Zoo.animals z' = Zoo.animals z ++ l' ∧ Forall2 same_animal l l' ∧
    Zoo.staff z' = Zoo.staff z ∧ Zoo.events z' = Zoo.events z.
Proof.
  unfold load_animals. revert z w.
  induction l as [| a rest IH]; intros z w Hinv; simpl.
  - exists z, w, []. rewrite app_nil_r. split; [reflexivity |]. split; [exact Hinv |].
    split; [reflexivity |]. split; [constructor | split; reflexivity].
  - destruct Hinv as ((feeding & medical & Hf & Hm & Hpf & Hpm) & Hstaff & Hanimals).
    simpl in *.
    set (a' := Animal.mk (next_oid w) (Animal.name a) (Animal.age a) (reloaded_species a)
                 (Animal.cls a)).
    set (w1 := mkWorld (trace w) (Datatypes.S (next_oid w)) (now w)).
    assert (Habsent : Animal.is_in a' (Zoo.animals z) = false).
    { apply fresh_animal_absent. exact Hanimals. }
    destruct (add_animal_absent_run a' feeding medical z w1 Hf Hm Habsent) as (msg & Hadd).
    destruct (IH (Zoo.mk (Zoo.name z) (Zoo.animals z ++ [a']) (Zoo.staff z) (Zoo.events z)
                    (<["medical_check" := set_add a' medical]>
                       (<["feeding" := set_add a' feeding]> (Zoo._event_subscriptions z))))
                (emit_all [Log INFO msg] w1))
      as (z' & w' & l' & Hrest & Hinv' & Han & Hsame & Hst & Hev).
    { split; [| split]; simpl.
      - exists (set_add a' feeding), (set_add a' medical). simpl.
        split; [rewrite lookup_insert_ne by discriminate; apply lookup_insert_eq |].
        split; [apply lookup_insert_eq |].
        split; apply set_add_mirror; assumption.
      - eapply List.Forall_impl; [| exact Hstaff]. simpl. intros x Hx. lia.
      - apply Forall_app. split.
        + eapply List.Forall_impl; [| exact Hanimals]. simpl. intros x Hx. lia.
        + constructor; [simpl; lia | constructor]. }
    exists z', w', (a' :: l'). simpl in *.
    split; [| split; [exact Hinv' | split; [| split; [| split; assumption]]]].
    + unfold bind at 1. unfold bind at 1. unfold Zoo.lift_w. cbn [fst snd].
      rewrite animal_record_reloaded. fold a' w1. rewrite Hadd. exact Hrest.
    + rewrite Han, <- app_assoc. reflexivity.
    + constructor; [repeat split | exact Hsame].
Qed.

Lemma same_event_staff_animals (z1 z2 : Zoo.t) (e e' : ZooEvent.t) :
  Zoo.staff z1 = Zoo.staff z2 → Zoo.animals z1 = Zoo.animals z2 →
  same_event z1 e e' → same_event z2 e e'.
Proof.
  unfold same_event, resolved_staff, resolved_animals. intros -> ->. tauto.
Qed.

Lemma load_events_reloaded (l : list ZooEvent.t) (z : Zoo.t) (w : World) :
  Forall (λ e, ZooEvent.cls e ≠ ZooEvent.Base ∧ duration_exact e ∧ end_in_range e) l →
  Forall end_in_range (Zoo.events z) →
  ∃ z' w' l',
    load_events (map ZooStorage._serialize_event l) (z, w) = ((z', w'), inr tt) ∧
    Zoo.events z' = Zoo.events z ++ l' ∧ Forall2 (same_event z) l l' ∧
    Zoo.animals z' = Zoo.animals z ∧ Zoo.staff z' = Zoo.staff z.
Proof.
  unfold load_events. intros Hl. revert z w.
  induction Hl as [| e rest (He & Hd & Hr) _ IH]; intros z w Hz; simpl.
  - exists z, w, []. rewrite app_nil_r. repeat split. constructor.
  - destruct (event_record_reloaded e z w He Hd)
      as (e' & Hde & Hc & Hn & Hs & Hl & Hdesc & Hst' & Han' & Hdur).
    assert (Hsame : same_event z e e') by (repeat split; assumption).
    assert (Hr' : end_in_range e').
    { unfold end_in_range. rewrite Hs, Hdur. exact Hr. }
    destruct (schedule_event_run e' z w Hr' Hz) as (es & Hsched).
    destruct (IH (Zoo.mk (Zoo.name z) (Zoo.animals z) (Zoo.staff z) (Zoo.events z ++ [e'])
                    (Zoo._event_subscriptions z)) (emit_all es w))
      as (z' & w' & l' & Hrest & Hev & Hsames & Han & Hst).
    { simpl. apply Forall_app. split; [exact Hz | constructor; [exact Hr' | constructor]]. }
    exists z', w', (e' :: l'). simpl in *.
    split; [| split; [| split; [| split; assumption]]].
    + unfold bind at 1. unfold load_event, try_except, bind, Zoo.self, Zoo.lift_w.
      cbn [fst snd]. rewrite Hde, Hsched. exact Hrest.
    + rewrite Hev, <- app_assoc. reflexivity.
    + constructor; [exact Hsame |].
      eapply Forall2_impl; [exact Hsames |]. intros x y Hxy.
      eapply same_event_staff_animals; [| | exact Hxy]; reflexivity.
Qed.

(** X17: for a zoo whose events all belong to one of the three subclasses,
    last less than 2^33 seconds and end within the range of [datetime],
    [Zoo.load] of what [save] wrote returns a zoo that holds, position by
    position, staff with the same name, id, hire date and class, animals with
    the same name, age, class and class attributes, and events with the same
    class, name, start time and location whose staff and animals are the
    reloaded objects with the ids and names the saved event referred to. *)
Theorem X17_save_load_contents (z : Zoo.t) (clock : Z) (path : string) (w : World) :
  Forall (λ e, ZooEvent.cls e ≠ ZooEvent.Base ∧ duration_exact e ∧ end_in_range e)
    (Zoo.events z) →
  ∃ w' loaded,
    Zoo_load path (Some (ZooStorage.save_data z clock)) "json" w = (w', inr loaded) ∧
    Forall2 same_staff (Zoo.staff z) (Zoo.staff loaded) ∧
    Forall2 same_animal (Zoo.animals z) (Zoo.animals loaded) ∧
    Forall2 (same_event loaded) (Zoo.events z) (Zoo.events loaded).
Proof.
  intros Hevents.
  destruct (load_staff_reloaded (Zoo.staff z) (Zoo.init "Загруженный зоопарк") w)
    as (z1 & w1 & l1 & Hrun1 & Hinv1 & Hst1 & Hsame1 & Han1 & Hev1).
  { split; [apply init_subscribed_all | split; constructor]. }
  destruct (load_animals_reloaded (Zoo.animals z) z1 w1 Hinv1)
    as (z2 & w2 & l2 & Hrun2 & Hinv2 & Han2 & Hsame2 & Hst2 & Hev2).
  destruct (load_events_reloaded (Zoo.events z) z2 w2 Hevents)
    as (z3 & w3 & l3 & Hrun3 & Hev3 & Hsame3 & Han3 & Hst3).
  { rewrite Hev2, Hev1. constructor. }
  eexists _, z3. split; [| split; [| split]].
  - unfold Zoo_load, bind.
    rewrite storage_load_saved, load_body_saved.
    unfold bind. rewrite Hrun1, Hrun2, Hrun3, logger_run. reflexivity.
  - rewrite Hst3, Hst2, Hst1. exact Hsame1.
  - rewrite Han3, Han2, Han1. exact Hsame2.
  - rewrite Hev3, Hev2, Hev1. simpl.
    eapply Forall2_impl; [exact Hsame3 |]. intros x y Hxy.
    eapply same_event_staff_animals; [| | exact Hxy]; symmetry; assumption.
Qed.

End FullRoundTrip.

Lemma X17_save_load_contents_witness :
  ∃ w' loaded,
    Zoo_load (H := sample_runtime) "zoo.json"
      (Some (ZooStorage.save_data (H := sample_runtime) sample_zoo_events 0)) "json"
      sample_world = (w', inr loaded) ∧
    Forall2 same_staff [sample_keeper] (Zoo.staff loaded) ∧
    Forall2 same_animal [sample_bird] (Zoo.animals loaded) ∧
    Forall2 (same_event loaded) [sample_tour; sample_feeding] (Zoo.events loaded).
Proof.
  apply (X17_save_load_contents (R := sample_runtime) (laws := sample_runtime_laws)
           sample_zoo_events 0 "zoo.json" sample_world).
  repeat constructor; try discriminate; vm_compute; first [reflexivity | discriminate].
Defined.

(** ** Notification: the cases that do nothing *)

Lemma for_each_noop {S A} (l : list A) (body : A → M S unit) (s : S) :
  (∀ x s, body x s = (s, inr tt)) → for_each l body s = (s, inr tt).
Proof.
  intros Hbody. induction l as [| x rest IH]; simpl; [reflexivity |].
  unfold bind. rewrite Hbody. exact IH.
Qed.

Section NotifyEdges.
Context `{PyRuntime}.

(** X18: [notify_animals] does not raise and does not change the zoo,
    whatever it is called with.  For an event type that is not a key of the
    subscriptions it logs one warning and nothing else; for a subscribed type
    other than feeding and medical check (such as enrichment) it does
    nothing; for feeding without a food it does nothing either, whoever is
    subscribed; for feeding with a food it prints the eat line of every
    subscribed animal; for a medical check it logs one INFO record per
    subscribed animal, with or without a food. *)
Theorem X18_notify_without_effect (z : Zoo.t) (w : World) (event_type : string)
    (food : option string) (subscribed : gmap nat Animal.t) :
  (Zoo._event_subscriptions z !! event_type = None →
   Zoo.notify_animals event_type food (z, w)
   = ((z, emit_all [Log WARNING ("Неизвестный тип события: " +:+ event_type)] w), inr tt)) ∧
  (Zoo._event_subscriptions z !! event_type = Some subscribed →
   event_type ≠ "feeding" → event_type ≠ "medical_check" →
   Zoo.notify_animals event_type food (z, w) = ((z, w), inr tt)) ∧
  (Zoo._event_subscriptions z !! "feeding" = Some subscribed →
   Zoo.notify_animals "feeding" None (z, w) = ((z, w), inr tt)) ∧
  (Zoo._event_subscriptions z !! "feeding" = Some subscribed →
   ∀ given : string,
     Zoo.notify_animals "feeding" (Some given) (z, w)
     = ((z, emit_all (map (λ a, Print (Animal.eat_line a given)) (set_iter subscribed)) w),
        inr tt)) ∧
  (Zoo._event_subscriptions z !! "medical_check" = Some subscribed →
   Zoo.notify_animals "medical_check" food (z, w)
   = ((z, emit_all (map (λ a, Log INFO (Animal.name a +:+ " проходит медицинский осмотр"))
                      (set_iter subscribed)) w), inr tt)) ∧
  ∃ effects : list effect,
    Zoo.notify_animals event_type food (z, w) = ((z, emit_all effects w), inr tt).
Proof.
  assert (Hunknown : Zoo._event_subscriptions z !! event_type = None →
            Zoo.notify_animals event_type food (z, w)
            = ((z, emit_all [Log WARNING ("Неизвестный тип события: " +:+ event_type)] w),
               inr tt)).
  { intros Hnone. unfold Zoo.notify_animals, bind, Zoo.self. cbn [fst snd].
    rewrite Hnone. apply logger_run. }
  assert (Hother : ∀ s, Zoo._event_subscriptions z !! event_type = Some s →
            event_type ≠ "feeding" → event_type ≠ "medical_check" →
            Zoo.notify_animals event_type food (z, w) = ((z, w), inr tt)).
  { intros s Hsome Hfeeding Hmedical.
    unfold Zoo.notify_animals, bind, Zoo.self. cbn [fst snd]. rewrite Hsome.
    apply for_each_noop. intros a st.
    destruct (String.eqb_spec event_type "feeding") as [Heq | _]; [congruence |].
    destruct (String.eqb_spec event_type "medical_check") as [Heq | _]; [congruence |].
    reflexivity. }
  assert (Hnofood : ∀ s, Zoo._event_subscriptions z !! "feeding" = Some s →
            Zoo.notify_animals "feeding" None (z, w) = ((z, w), inr tt)).
  { intros s Hsome. unfold Zoo.notify_animals, bind, Zoo.self. cbn [fst snd].
    rewrite Hsome. apply for_each_noop. intros a st. reflexivity. }
  assert (Hfood : ∀ s, Zoo._event_subscriptions z !! "feeding" = Some s →
            ∀ given : string,
              Zoo.notify_animals "feeding" (Some given) (z, w)
              = ((z, emit_all (map (λ a, Print (Animal.eat_line a given)) (set_iter s)) w),
                 inr tt)).
  { intros s Hsome given. unfold Zoo.notify_animals, bind, Zoo.self. cbn [fst snd].
    rewrite Hsome. apply for_each_emit. reflexivity. }
  assert (Hmedical : ∀ s, Zoo._event_subscriptions z !! "medical_check" = Some s →
            Zoo.notify_animals "medical_check" food (z, w)
            = ((z, emit_all (map (λ a, Log INFO (Animal.name a
                                                 +:+ " проходит медицинский осмотр"))
                               (set_iter s)) w), inr tt)).
  { intros s Hsome. unfold Zoo.notify_animals, bind, Zoo.self. cbn [fst snd].
    rewrite Hsome. apply for_each_emit. intros a z0 w0. destruct food; reflexivity. }
  split; [exact Hunknown |]. split; [apply Hother |]. split; [apply Hnofood |].
  split; [apply Hfood |]. split; [apply Hmedical |].
  destruct (Zoo._event_subscriptions z !! event_type) as [s |] eqn:Hsubs.
  - destruct (String.eqb_spec event_type "feeding") as [-> | Hnf].
    + destruct food as [given |].
      * eexists. apply Hfood. exact Hsubs.
      * exists []. rewrite emit_all_nil. apply (Hnofood s). exact Hsubs.
    + destruct (String.eqb_spec event_type "medical_check") as [-> | Hnm].
      * eexists. apply Hmedical. exact Hsubs.
      * exists []. rewrite emit_all_nil.
        apply (Hother s); [reflexivity | assumption | assumption].
  - eexists. apply Hunknown. reflexivity.
Qed.

Lemma filter_sleep_notification (z : Zoo.t) (event : ZooEvent.t) :
  List.filter is_sleep (notification z event) = [].
Proof.
  unfold notification.
  destruct (ZooEvent.cls event); try reflexivity.
  - destruct (Zoo._event_subscriptions z !! "feeding") as [s |]; [| reflexivity].
    induction (set_iter s) as [| a rest IH]; [reflexivity | exact IH].
  - destruct (Zoo._event_subscriptions z !! "medical_check") as [s |]; [| reflexivity].
    induction (set_iter s) as [| a rest IH]; [reflexivity | exact IH].
Qed.

Lemma filter_sleep_blocks (z : Zoo.t) (l : list ZooEvent.t) :
  length (List.filter is_sleep (flat_map (event_block z) l)) = length l.
Proof.
  induction l as [| event rest IH]; [reflexivity |].
  cbn [flat_map]. rewrite List.filter_app, length_app, IH.
  unfold event_block. rewrite !List.filter_app, filter_sleep_notification. reflexivity.
Qed.

(** X19: [run_day] never raises, leaves the zoo as it is, and pauses exactly
    once per event that starts on the target date, whatever the class of the
    event and however long it lasts. *)
Theorem X19_run_day_one_pause_per_event (z : Zoo.t) (w : World) (target_date : Z) :
  ∃ effects : list effect,
    Zoo.run_day (Some target_date) (z, w) = ((z, emit_all effects w), inr tt) ∧
    length (List.filter is_sleep effects)
    = length (Zoo.get_events_on_date z target_date).
Proof.
  eexists. split.
  - unfold Zoo.run_day, bind, Zoo.world, Zoo.self. cbn [fst snd].
    rewrite logger_run. cbn [fst snd].
    rewrite for_each_process_event, logger_run, !emit_all_emit_all. reflexivity.
  - rewrite !List.filter_app, !length_app, filter_sleep_blocks. simpl.
    rewrite Nat.add_0_r.
    apply Permutation_length, sort_by_key_perm.
Qed.

End NotifyEdges.

Lemma X18_notify_without_effect_witness :
  Zoo.notify_animals "cleaning" None (sample_zoo, sample_world)
  = ((sample_zoo, emit_all [Log WARNING "Неизвестный тип события: cleaning"] sample_world),
     inr tt) ∧
  Zoo.notify_animals "enrichment" (Some "corn")
    (sample_zoo, sample_world) = ((sample_zoo, sample_world), inr tt) ∧
  Zoo.notify_animals "feeding" None (fed_zoo, sample_world)
  = ((fed_zoo, sample_world), inr tt) ∧
  Zoo.notify_animals "feeding" (Some "corn") (fed_zoo, sample_world)
  = ((fed_zoo, emit_all [Print "Kesha the Bird is eating corn."] sample_world), inr tt) ∧
  Zoo.notify_animals "medical_check" (Some "corn") (fed_zoo, sample_world)
  = ((fed_zoo, emit_all [Log INFO "Kesha проходит медицинский осмотр"] sample_world),
     inr tt).
Proof.
  destruct (X18_notify_without_effect sample_zoo sample_world "cleaning" None ∅)
    as (Hunknown & _).
  destruct (X18_notify_without_effect sample_zoo sample_world "enrichment" (Some "corn") ∅)
    as (_ & Hother & _).
  destruct (X18_notify_without_effect fed_zoo sample_world "feeding" (Some "corn")
              (set_add sample_bird ∅))
    as (_ & _ & Hnofood & Hfood & Hmedical & _).
  split; [| split; [| split; [| split]]].
  - apply Hunknown. reflexivity.
  - apply Hother; [reflexivity | discriminate | discriminate].
  - apply Hnofood. reflexivity.
  - apply (Hfood eq_refl "corn").
  - apply Hmedical. reflexivity.
Defined.

(** ** Loading: missing parts and failures *)

Section LoadEdges.
Context `{PyRuntime}.

(** X20: a document that has none of the keys ["staff"], ["animals"] and
    ["events"] loads as an empty zoo: no object is created and nothing is
    raised. *)
Theorem X20_load_missing_lists (path : string) (d : list (string * value)) (w : World) :
  dict_get "staff" d = None →
  dict_get "animals" d = None →
  dict_get "events" d = None →
  ∃ w',
    Zoo_load path (Some (VDict d)) "json" w
    = (w', inr (Zoo.init "Загруженный зоопарк")) ∧
    next_oid w' = next_oid w.
Proof.
  intros Hstaff Hanimals Hevents.
  unfold Zoo_load, ZooStorage.load, load_body, bind, get_default, ret.
  cbn -[Zoo.init].
  destruct (str_eq_value ZooStorage.SCHEMA_VERSION _);
    cbn -[Zoo.init]; rewrite Hstaff; cbn -[Zoo.init];
    rewrite Hanimals; cbn -[Zoo.init];
    rewrite Hevents; cbn -[Zoo.init];
    eexists; (split; [reflexivity | reflexivity]).
Qed.


Ltac bind_inv' H :=
  let s := fresh "s" in
  let a := fresh "a" in
  let Ha := fresh "Ha" in
  apply bind_inr in H; destruct H as (s & a & Ha & H).

(** X22: an event that [_deserialize_event] builds from a record tagged
    ["TourEvent"] is a tour without animals; a missing ["max_visitors"]
    becomes 20 and a missing ["visitor_count"] becomes 0; integers given in
    the record are taken as they are, the count is not checked against the
    limit. *)
Theorem X22_tour_record_defaults (d : list (string * value)) (zoo : Zoo.t) (w w' : World)
    (e' : ZooEvent.t) :
  dict_get "type" d = Some (VStr "TourEvent") →
  ZooStorage._deserialize_event (VDict d) zoo w = (w', inr e') →
  ∃ tour,
    ZooEvent.cls e' = ZooEvent.TourEvent tour ∧
    ZooEvent.animals e' = [] ∧
    (dict_get "max_visitors" d = None → TourEvent.max_visitors tour = 20) ∧
    (dict_get "visitor_count" d = None → TourEvent.visitor_count tour = 0) ∧
    (∀ n, dict_get "max_visitors" d = Some (VInt n) → TourEvent.max_visitors tour = n) ∧
    (∀ n, dict_get "visitor_count" d = Some (VInt n) → TourEvent.visitor_count tour = n).
Proof.
  intros Htype Hrun. unfold ZooStorage._deserialize_event in Hrun.
  apply bind_inr in Hrun as (s1 & tag & Htag & Hrun).
  assert (tag = VStr "TourEvent") as ->.
  { unfold getitem in Htag. rewrite Htype in Htag. injection Htag as _ <-. reflexivity. }
  do 4 bind_inv' Hrun.
  change (str_eq_value "FeedingEvent" (VStr "TourEvent")) with false in Hrun.
  change (str_eq_value "MedicalCheckEvent" (VStr "TourEvent")) with false in Hrun.
  change (str_eq_value "TourEvent" (VStr "TourEvent")) with true in Hrun.
  cbv iota in Hrun.
  bind_inv' Hrun. bind_inv' Hrun. bind_inv' Hrun.
  apply bind_inr in Hrun as (s9 & max_visitors & Hmax & Hrun).
  apply bind_inr in Hrun as (s10 & visitor_count & Hcount & Hrun).
  injection Hrun as _ <-. simpl.
  exists (TourEvent.mk max_visitors visitor_count). simpl.
  unfold bind, get_default, ret in Hmax, Hcount.
  repeat split.
  - intros Hnone. rewrite Hnone in Hmax. injection Hmax as _ <-. reflexivity.
  - intros Hnone. rewrite Hnone in Hcount. injection Hcount as _ <-. reflexivity.
  - intros n Hsome. rewrite Hsome in Hmax. injection Hmax as _ <-. reflexivity.
  - intros n Hsome. rewrite Hsome in Hcount. injection Hcount as _ <-. reflexivity.
Qed.

End LoadEdges.

Lemma X20_load_missing_lists_witness :
  ∃ w',
    Zoo_load (H := sample_runtime) "zoo.json" (Some (VDict [("schema_version", VStr "1.0")]))
      "json" sample_world
    = (w', inr (Zoo.init "Загруженный зоопарк")) ∧
    next_oid w' = next_oid sample_world.
Proof.
  apply (X20_load_missing_lists (H := sample_runtime) "zoo.json"
           [("schema_version", VStr "1.0")] sample_world); reflexivity.
Defined.


Lemma X22_tour_record_defaults_witness :
  ∃ e' tour,
    ZooStorage._deserialize_event (H := sample_runtime) (VDict bare_tour_record) sample_zoo
      sample_world = (sample_world, inr e') ∧
    ZooEvent.cls e' = ZooEvent.TourEvent tour ∧
    TourEvent.max_visitors tour = 20 ∧ TourEvent.visitor_count tour = 0.
Proof.
  destruct (ZooStorage._deserialize_event (H := sample_runtime) (VDict bare_tour_record)
              sample_zoo sample_world) as [w' [e | e']] eqn:Hrun.
  - vm_compute in Hrun. discriminate.
  - assert (w' = sample_world) as ->.
    { vm_compute in Hrun. injection Hrun as <- _. reflexivity. }
    destruct (X22_tour_record_defaults (H := sample_runtime) bare_tour_record sample_zoo
                sample_world sample_world e' eq_refl Hrun)
      as (tour & Hcls & _ & Hmax & Hcount & _ & _).
    exists e', tour. split; [reflexivity |]. split; [exact Hcls |].
    split; [apply Hmax | apply Hcount]; reflexivity.
Defined.
